(** * CDC-Camper-Bot: session state, diff engine, retry guards and orchestration

    A shallow embedding of the parts of the bot that the specification makes
    claims about:

    - [abstracts/cdc_abstract.py]: the per-category attribute store
      ([CDCAbstract]);
    - [src/website_handler.py]: [convert_to_datetime],
      [get_earliest_time_slots], [check_if_same_sessions],
      [check_call_depth], [account_login] and the practical-lesson page
      opener;
    - [src/utils/account_manager.py]: [run_all_accounts];
    - [src/utils/common.py]: [init_config_with_default].

    Python objects are modelled by their attribute dictionary, Python
    dictionaries by finite maps (or by association lists in insertion order
    where the iteration order is observable), exceptions by an explicit
    [outcome] type, and the browser by scripted observations. *)

From Stdlib Require Import ZArith NArith Ascii String List Lia Sorted Permutation.
From stdpp Require Import gmap strings list fin_maps pretty.

Local Open Scope string_scope.
Local Open Scope list_scope.

Set Warnings "-register-all".

(* ===================================================================== *)
(** * Part I: definitions                                                 *)
(* ===================================================================== *)

(** ** Python values and outcomes *)

(** The exceptions the modelled code can raise. *)
Inductive exn : Type :=
  | ValueError        (* datetime.strptime on malformed input *)
  | TypeError
  | WebDriverError    (* any selenium failure other than a timeout *)
  | AttributeError
  | CourseDataError.  (* "Could not get course data ..." *)

(** A call either returns a value or raises. *)
Inductive outcome (A : Type) : Type :=
  | Returns (a : A)
  | Raises (e : exn).
Arguments Returns {A} a.
Arguments Raises {A} e.

Definition bind_outcome {A B} (m : outcome A) (k : A -> outcome B) : outcome B :=
  match m with
  | Returns a => k a
  | Raises e => Raises e
  end.

(** The values stored in attributes and configuration dictionaries.  A nested
    dictionary is kept as an association list in insertion order. *)
Inductive value : Type :=
  | VNone
  | VBool (b : bool)
  | VInt (z : Z)
  | VStr (s : string)
  | VList (l : list value)
  | VDict (d : list (string * value)).

(** ** [utils.init_config_with_default] (src/utils/common.py) *)

Section config_defaults.
Context {K : Type} `{Countable K} {V : Type}.

(** [check_key_existence_in_dict]: [dic[key]] inside [try]; [KeyError]
    gives [False]. *)
Definition check_key_existence_in_dict (dic : gmap K V) (key : K) : bool :=
  match dic !! key with
  | Some _ => true
  | None => false
  end.

(** One iteration of the loop over [default_config.items()]; [config] is
    the dictionary being filled in place. *)
Definition init_config_step (default_key : K) (default_value : V)
    (config : gmap K V) : gmap K V :=
  if negb (check_key_existence_in_dict config default_key)
  then <[default_key := default_value]> config
  else config.

Definition init_config_with_default (config default_config : gmap K V) : gmap K V :=
  map_fold init_config_step config default_config.
End config_defaults.

(** ** [CDCAbstract] (abstracts/cdc_abstract.py) *)

(** The type constructors used to initialise an attribute. *)
Inductive type_ctor : Type := list_ctor | dict_ctor | str_ctor.

(** Calling the constructor with no argument: [list()], [dict()], [str()]. *)
Definition construct (c : type_ctor) : value :=
  match c with
  | list_ctor => VList []
  | dict_ctor => VDict []
  | str_ctor => VStr ""
  end.

Definition attribute_templates : list (string * type_ctor) :=
  [ ("days_in_view", list_ctor);
    ("web_elements_in_view", dict_ctor);
    ("times_in_view", list_ctor);
    ("available_sessions", dict_ctor);
    ("reserved_sessions", dict_ctor);
    ("booked_sessions", dict_ctor);
    ("lesson_name", str_ctor);
    ("earlier_sessions", dict_ctor);
    ("cached_earlier_sessions", dict_ctor) ].

(** [class Types]: the names of the class attributes and their values. *)
Inductive Types : Type := PRACTICAL | PT.

Definition Types_value (t : Types) : string :=
  match t with
  | PRACTICAL => "practical"
  | PT => "pt"
  end.

(** [field_types]: [dir(Types)] filtered, hence in alphabetical order. *)
Definition field_types : list Types := [PRACTICAL; PT].

(** An instance is its attribute dictionary ([__dict__]): [setattr] inserts,
    [getattr] looks up ([None] stands for [AttributeError]). *)
Abbreviation instance := (gmap string value).

Definition setattr (self : instance) (name : string) (v : value) : instance :=
  <[name := v]> self.

Definition getattr (self : instance) (name : string) : option value :=
  self !! name.

(** The f-string [f"{attribute}_{field_type}"]. *)
Definition fieldtype_attr (attribute field_type : string) : string :=
  attribute +:+ "_" +:+ field_type.

Definition get_attribute_with_fieldtype (attribute field_type : string)
    (self : instance) : option value :=
  getattr self (fieldtype_attr attribute field_type).

Definition set_attribute_with_fieldtype (attribute field_type : string)
    (v : value) (self : instance) : instance :=
  setattr self (fieldtype_attr attribute field_type) v.

Definition whitelisted_attributes : list string := ["cached_earlier_sessions"].

(** The loop over [attribute_templates] of [reset_attributes_with_fieldtype]. *)
Definition reset_template (field_type : string) (self : instance)
    (attribute_template : string * type_ctor) : instance :=
  let attribute := attribute_template.1 in
  if bool_decide (attribute ∉ whitelisted_attributes)
  then set_attribute_with_fieldtype attribute field_type
         (construct attribute_template.2) self
  else self.

Definition reset_attributes_with_fieldtype (field_type : string)
    (self : instance) : instance :=
  let self := foldl (reset_template field_type) self attribute_templates in
  let self :=
    if bool_decide (field_type = Types_value PRACTICAL)
    then setattr (setattr self "can_book_next_practical" (VBool true))
                 "has_auto_reserved_practical" (VBool false)
    else self in
  if bool_decide (field_type = Types_value PT)
  then setattr self "can_book_next_pt" (VBool true)
  else self.

Definition reset_attributes_for_all_fieldtypes (self : instance) : instance :=
  foldl (fun self field_type =>
           reset_attributes_with_fieldtype (Types_value field_type) self)
        self field_types.

(** [CDCAbstract.__init__]: every template attribute for every field type,
    then the flags. *)
Definition init_attributes (self : instance) : instance :=
  let self :=
    foldl (fun self field_type =>
             foldl (fun self (tpl : string * type_ctor) =>
                      setattr self (fieldtype_attr tpl.1 (Types_value field_type))
                              (construct tpl.2))
                   self attribute_templates)
          self field_types in
  let self := setattr self "can_book_next_practical" (VBool true) in
  let self := setattr self "has_auto_reserved_practical" (VBool false) in
  setattr self "can_book_next_pt" (VBool true).

(** The per-category fields that a reset clears, with their empty values. *)
Definition cleared_fields : list (string * value) :=
  [ ("days_in_view", VList []);
    ("web_elements_in_view", VDict []);
    ("times_in_view", VList []);
    ("available_sessions", VDict []);
    ("reserved_sessions", VDict []);
    ("booked_sessions", VDict []);
    ("lesson_name", VStr "");
    ("earlier_sessions", VDict []) ].

(** ** [handler.check_if_same_sessions] (src/website_handler.py) *)

(** A sessions dictionary: date string to the list of its time-slot strings.
    Nothing in [check_if_same_sessions] depends on the insertion order, so
    the dictionary is a finite map here. *)
Abbreviation sessions_map := (gmap string (list string)).

(** [set(time_slots)] *)
Definition time_set (time_slots : list string) : gset string :=
  list_to_set time_slots.

(** Returns [true] when the two dictionaries differ. *)
Definition check_if_same_sessions (session0 session1 : sessions_map) : bool :=
  if bool_decide (dom session0 <> dom session1) then true
  else
    existsb (fun '(date_str, time_slots) =>
               bool_decide (time_set time_slots <>
                            time_set (default [] (session1 !! date_str))))
            (map_to_list session0).

(** The specification's [equalCollections]: the negation of the above. *)
Definition equalCollections (a b : sessions_map) : bool :=
  negb (check_if_same_sessions a b).

(** The specification's wording of equal collections: identical date keys
    and, for every date, identical time-range sets. *)
Definition same_collections (a b : sessions_map) : Prop :=
  dom a = dom b /\
  forall date ts0 ts1,
    a !! date = Some ts0 -> b !! date = Some ts1 -> time_set ts0 = time_set ts1.

(** ** [AccountManager.run_all_accounts] (src/utils/account_manager.py) *)

(** Truth value of a Python object, as tested by [if] and [not]. *)
Definition truthy (v : value) : bool :=
  match v with
  | VNone => false
  | VBool b => b
  | VInt z => negb (z =? 0)%Z
  | VStr s => negb (String.eqb s "")
  | VList l => match l with [] => false | _ => true end
  | VDict d => match d with [] => false | _ => true end
  end.

(** [d.get(key, default)] on a nested dictionary. *)
Fixpoint dict_get (d : list (string * value)) (key : string) (default : value) : value :=
  match d with
  | [] => default
  | (k, v) :: rest => if String.eqb k key then v else dict_get rest key default
  end.

(** An account, and the whole configuration, are dictionaries loaded from
    the YAML file. *)
Abbreviation account := (gmap string value).
Abbreviation configuration := (gmap string value).

(** [a.get("enabled", True)] used as a condition. *)
Definition account_enabled (a : account) : bool :=
  truthy (default (VBool true) (a !! "enabled")).

(** [self.config.get("program_config", {}).get("max_concurrent_accounts", 0)],
    then used in integer comparisons: a Boolean counts as 0 or 1, anything
    else that is not a number makes the comparison raise. *)
Definition max_concurrent_accounts (config : configuration) : outcome Z :=
  match default (VDict []) (config !! "program_config") with
  | VDict program_config =>
      match dict_get program_config "max_concurrent_accounts" (VInt 0) with
      | VInt z => Returns z
      | VBool b => Returns (if b then 1 else 0)%Z
      | _ => Raises TypeError
      end
  | _ => Raises AttributeError
  end.

(** The [if]/[else] that fixes the size of the pool. *)
Definition effective_max_workers (max_concurrent : Z) (enabled_count : nat) : Z :=
  if ((max_concurrent <=? 0) || (max_concurrent >? Z.of_nat enabled_count))%Z
  then Z.of_nat enabled_count
  else max_concurrent.

(** [stagger_seconds = 30  # Seconds between account starts] *)
Definition stagger_seconds : Z := 30.

(** What a pool thread does for one submitted call. *)
Inductive worker_action : Type :=
  | Sleep (seconds : Z)
  | RunAccount (a : account).

(** [_delayed_account_start(account, delay_seconds)] *)
Definition _delayed_account_start (a : account) (delay_seconds : Z) : list worker_action :=
  (if (delay_seconds >? 0)%Z then [Sleep delay_seconds] else []) ++ [RunAccount a].

(** One pass: the pool that is created and the calls submitted to it, in
    order, each with its [account] and [delay] arguments. *)
Record pass_plan : Type := {
  max_workers : Z;
  submitted : list (account * Z)
}.

(** [run_all_accounts] up to the point where every call is submitted.
    [None] is the early return when no account is enabled. *)
Definition run_all_accounts (config : configuration) (accounts : list account)
    : outcome (option pass_plan) :=
  let enabled_accounts := List.filter account_enabled accounts in
  match enabled_accounts with
  | [] => Returns None
  | _ =>
      bind_outcome (max_concurrent_accounts config) (fun m =>
        Returns (Some {|
          max_workers := effective_max_workers m (length enabled_accounts);
          submitted :=
            imap (fun i a => (a, (Z.of_nat i * stagger_seconds)%Z)) enabled_accounts
        |}))
  end.

(** *** The thread pool

    [ThreadPoolExecutor] is library code.  Its scheduling is modelled as a
    transition system on the status of the submitted calls: the pool has at
    most [max_workers] threads, a thread executes one call at a time, and
    calls leave the queue in submission order.  A call is [Delaying] while
    its thread is in the [time.sleep] of [_delayed_account_start] and
    [Running] while it is in [run_account], that is while the account is in
    [running_accounts]. *)
Inductive call_status : Type := Queued | Delaying | Running | Finished.

Global Instance call_status_eq_dec : EqDecision call_status.
Proof. solve_decision. Defined.

Definition busy (s : call_status) : bool :=
  match s with
  | Delaying | Running => true
  | _ => false
  end.

Definition is_running (s : call_status) : bool :=
  match s with
  | Running => true
  | _ => false
  end.

Definition count_busy (calls : list call_status) : nat :=
  length (List.filter busy calls).

Definition count_running (calls : list call_status) : nat :=
  length (List.filter is_running calls).

Inductive pool_step (workers : Z) : list call_status -> list call_status -> Prop :=
  | step_take before after :
      (* a free thread takes the oldest queued call *)
      Forall (fun s => s <> Queued) before ->
      (Z.of_nat (count_busy (before ++ Queued :: after)) < workers)%Z ->
      pool_step workers (before ++ Queued :: after) (before ++ Delaying :: after)
  | step_wake before after :
      (* the delay is over (or was zero): [run_account] begins *)
      pool_step workers (before ++ Delaying :: after) (before ++ Running :: after)
  | step_finish before after :
      (* [run_account] returns or raises: the thread is free again *)
      pool_step workers (before ++ Running :: after) (before ++ Finished :: after).

(** The states the pool of a pass can be in. *)
Inductive pool_reachable (plan : pass_plan) : list call_status -> Prop :=
  | reach_submitted :
      pool_reachable plan (List.map (fun _ => Queued) (submitted plan))
  | reach_step calls calls' :
      pool_reachable plan calls ->
      pool_step (max_workers plan) calls calls' ->
      pool_reachable plan calls'.

(** The specification's reading of the stagger: a value of the configuration
    ([staggerSeconds] among the global configuration inputs). *)
Definition configured_stagger_seconds (config : configuration) : option Z :=
  match default (VDict []) (config !! "program_config") with
  | VDict program_config =>
      match dict_get program_config "stagger_seconds" VNone with
      | VInt z => Some z
      | _ => None
      end
  | _ => None
  end.

(** *** Sample data: three enabled accounts and a configuration with a
    given limit and an optional [stagger_seconds] entry. *)
Definition demo_account (n : string) : account :=
  {[ "name" := VStr n; "username" := VStr n; "password" := VStr "secret" ]}.

Definition demo_accounts : list account :=
  [demo_account "alice"; demo_account "bob"; demo_account "carol"].

Definition demo_config (m : Z) : configuration :=
  {[ "program_config" := VDict [("max_concurrent_accounts", VInt m)] ]}.

Definition demo_config_stagger (m stagger : Z) : configuration :=
  {[ "program_config" :=
       VDict [("max_concurrent_accounts", VInt m);
              ("stagger_seconds", VInt stagger)] ]}.

(** ** [handler]: login and the call-depth guard (src/website_handler.py) *)

(** *** The browser

    Selenium, the CAPTCHA solver and the website are outside the program.
    They are represented by a script that says what the program observes at
    its [k]-th login attempt and at its [k]-th opening of the practical
    lessons booking page.  Driver calls that are not scripted (the logout
    page, [time.sleep]) are taken to succeed. *)

(** What one pass through the body of [account_login] meets. *)
Inductive login_observation : Type :=
  | LoginRaises (e : exn)      (* any exception not handled inside the body *)
  | PromptTimeout              (* "Learner's Login" link not clickable *)
  | UserIdTimeout              (* the userId field did not appear *)
  | PasswordTimeout            (* the password field did not appear *)
  | CaptchaUnsolved            (* captcha_solver.solve(...) failed *)
  | LoginButtonTimeout         (* BTNSERVICE2 not clickable *)
  | CaptchaAlert               (* alert containing "complete the captcha" *)
  | Landed (current_url : string). (* no such alert; the browser is at this URL *)

(** What one pass through [open_practical_lessons_booking_page] meets after
    the page is requested. *)
Inductive page_observation : Type :=
  | PageRaises (e : exn)       (* a driver call raised *)
  | AccessDenied               (* "Alert.aspx" in the URL *)
  | NoCourseData               (* get_course_data() returned False *)
  | NoCourses                  (* at most one entry in the course list *)
  | NoCourseSelected           (* neither by name nor by index *)
  | NormalCaptchaFailed        (* dismiss_normal_captcha(...) returned False *)
  | FullyBooked                (* lblFullBookMsg is present *)
  | PageOpened.                (* everything after the CAPTCHA went through *)

Record browser : Type := {
  login_obs : nat -> login_observation;
  booking_obs : nat -> page_observation
}.

(** The calls made to the browser, oldest first. *)
Inductive event : Type :=
  | EvLogout
  | EvLoginAttempt (current_attempt : Z)
  | EvOpenBookingPL (call_depth : Z).

(** The fields of the handler that login and page opening read or write,
    with the position reached in the browser script and the log of calls. *)
Record handler_state : Type := {
  port : string;
  logged_in : bool;
  login_clock : nat;
  page_clock : nat;
  events : list event
}.

Definition initial_handler : handler_state :=
  {| port := ""; logged_in := false; login_clock := 0; page_clock := 0;
     events := [] |}.

Definition set_logged_in (st : handler_state) (p : string) : handler_state :=
  {| port := p; logged_in := true; login_clock := login_clock st;
     page_clock := page_clock st; events := events st |}.

Definition begin_login_attempt (st : handler_state) (current_attempt : Z)
    : handler_state :=
  {| port := port st; logged_in := logged_in st;
     login_clock := S (login_clock st); page_clock := page_clock st;
     events := events st ++ [EvLoginAttempt current_attempt] |}.

Definition begin_page_open (st : handler_state) (call_depth : Z) : handler_state :=
  {| port := port st; logged_in := logged_in st;
     login_clock := login_clock st; page_clock := S (page_clock st);
     events := events st ++ [EvOpenBookingPL call_depth] |}.

(** *** String helpers *)

(** [needle in haystack] on strings. *)
Fixpoint contains (needle haystack : string) : bool :=
  String.prefix needle haystack ||
  match haystack with
  | "" => false
  | String _ rest => contains needle rest
  end.

Definition is_digit (c : ascii) : bool :=
  Nat.leb 48 (nat_of_ascii c) && Nat.leb (nat_of_ascii c) 57.

Definition starts_with_digit (s : string) : bool :=
  match s with
  | String c _ => is_digit c
  | "" => false
  end.

(** [re.findall(r'\d+', s)]: the maximal runs of digits, left to right. *)
Fixpoint findall_digits (s : string) : list string :=
  match s with
  | "" => []
  | String c rest =>
      let runs := findall_digits rest in
      if is_digit c then
        if starts_with_digit rest then
          match runs with
          | run :: runs => String c run :: runs
          | [] => [String c ""]
          end
        else String c "" :: runs
      else runs
  end.

(** *** [account_login] *)

(** [try: ... except Exception: return False] around a body that already
    produced its outcome. *)
Definition except_return_false
    (body : option (outcome bool * handler_state))
    : option (outcome bool * handler_state) :=
  match body with
  | Some (Raises _, st) => Some (Returns false, st)
  | other => other
  end.

(** The recursion of [account_login]; [fuel] bounds the nesting of calls and
    [None] means that it ran out. *)
Fixpoint account_login_rec (fuel : nat) (w : browser)
    (max_login_attempts current_attempt : Z) (st : handler_state)
    : option (outcome bool * handler_state) :=
  match fuel with
  | O => None
  | S fuel =>
      if (current_attempt >? max_login_attempts)%Z then Some (Returns false, st)
      else
        let obs := login_obs w (login_clock st) in
        let st := begin_login_attempt st current_attempt in
        (* "if current_attempt < max_login_attempts: return self.account_login(
           max_login_attempts, current_attempt + 1)" followed by "return False" *)
        let retry :=
          if (current_attempt <? max_login_attempts)%Z
          then account_login_rec fuel w max_login_attempts (current_attempt + 1) st
          else Some (Returns false, st) in
        except_return_false
          match obs with
          | LoginRaises e => Some (Raises e, st)
          | PromptTimeout => retry
          | UserIdTimeout => retry
          | PasswordTimeout => Some (Returns false, st)
          | CaptchaUnsolved => retry
          | LoginButtonTimeout => retry
          | CaptchaAlert => retry
          | Landed current_url =>
              if contains "NewPortal" current_url then
                let url_digits := findall_digits current_url in
                match last url_digits with
                | Some p => Some (Returns true, set_logged_in st p)
                | None => retry
                end
              else retry
          end
  end.

(** [account_login(max_login_attempts, current_attempt)], with the fuel that
    the remaining attempts need. *)
Definition account_login (w : browser) (max_login_attempts current_attempt : Z)
    (st : handler_state) : option (outcome bool * handler_state) :=
  account_login_rec (S (Z.to_nat (max_login_attempts - current_attempt)))
                    w max_login_attempts current_attempt st.

(** The defaults [max_login_attempts=3, current_attempt=1]. *)
Definition account_login_default (w : browser) (st : handler_state)
    : option (outcome bool * handler_state) :=
  account_login w 3 1 st.

(** Whether an observation lets an attempt succeed: the URL contains
    "NewPortal" and has at least one run of digits. *)
Definition yields_port (obs : login_observation) : bool :=
  match obs with
  | Landed current_url =>
      contains "NewPortal" current_url &&
      match findall_digits current_url with [] => false | _ => true end
  | _ => false
  end.

(** [account_logout] *)
Definition account_logout (st : handler_state) : handler_state :=
  {| port := port st; logged_in := false; login_clock := login_clock st;
     page_clock := page_clock st; events := events st ++ [EvLogout] |}.

(** *** [check_call_depth] and [open_practical_lessons_booking_page] *)

Definition check_call_depth (w : browser) (call_depth : Z) (st : handler_state)
    : option (outcome bool * handler_state) :=
  if (call_depth >? 4)%Z then
    let st := account_logout st in
    match account_login_default w st with
    | Some (Returns _, st) => Some (Returns false, st)
    | other => other
    end
  else Some (Returns true, st).

Fixpoint open_practical_lessons_booking_page (fuel : nat) (w : browser)
    (field_type : string) (call_depth : Z) (st : handler_state)
    : option (outcome bool * handler_state) :=
  match fuel with
  | O => None
  | S fuel =>
      match check_call_depth w call_depth st with
      | None => None
      | Some (Raises e, st) => Some (Raises e, st)
      | Some (Returns ok, st) =>
          let call_depth := if negb ok then 0%Z else call_depth in
          let obs := booking_obs w (page_clock st) in
          let st := begin_page_open st call_depth in
          match obs with
          | PageRaises e => Some (Raises e, st)
          | AccessDenied => Some (Returns false, st)
          | NoCourseData => Some (Raises CourseDataError, st)
          | NoCourses => Some (Returns false, st)
          | NoCourseSelected => Some (Returns false, st)
          | NormalCaptchaFailed =>
              open_practical_lessons_booking_page fuel w field_type
                (call_depth + 1) st
          | FullyBooked => Some (Returns false, st)
          | PageOpened => Some (Returns true, st)
          end
      end
  end.

(** What the call returns when the page meets [obs] and does not retry. *)
Definition page_result (obs : page_observation) : outcome bool :=
  match obs with
  | PageRaises e => Raises e
  | NoCourseData => Raises CourseDataError
  | PageOpened => Returns true
  | _ => Returns false
  end.

Definition is_logout (e : event) : bool :=
  match e with
  | EvLogout => true
  | _ => false
  end.

(** Number of forced logouts in a log; every one is followed by a login. *)
Definition count_logouts (evs : list event) : nat :=
  length (List.filter is_logout evs).

(** The depth with which a page is opened stays between 0 and 4. *)
Definition depth_in_range (e : event) : Prop :=
  match e with
  | EvOpenBookingPL call_depth => (0 <= call_depth <= 4)%Z
  | _ => True
  end.

(** What a finished login guarantees, relative to the state it started in. *)
Definition login_post (w : browser) (max_login_attempts current_attempt : Z)
    (st : handler_state) (b : bool) (st' : handler_state) : Prop :=
  page_clock st' = page_clock st /\
  count_logouts (events st') = count_logouts (events st) /\
  (Forall depth_in_range (events st) -> Forall depth_in_range (events st')) /\
  login_clock st <= login_clock st' /\
  login_clock st' <= login_clock st + Z.to_nat (max_login_attempts + 1 - current_attempt) /\
  (b = true ->
     exists url,
       login_obs w (pred (login_clock st')) = Landed url /\
       contains "NewPortal" url = true /\
       last (findall_digits url) = Some (port st') /\
       logged_in st' = true) /\
  (b = false -> port st' = port st /\ logged_in st' = logged_in st) /\
  ((forall k, login_clock st <= k -> yields_port (login_obs w k) = false) ->
   b = false).

(** *** Sample browsers *)

(** Every login lands on the portal at port 8443. *)
Definition login_ok : nat -> login_observation :=
  fun _ => Landed "https://bookingportal.cdc.com.sg:8443/NewPortal/Booking/Dashboard.aspx".

(** The booking page fails its CAPTCHA [n] times, then opens. *)
Definition failing_browser (n : nat) : browser :=
  {| login_obs := login_ok;
     booking_obs := fun k => if Nat.ltb k n then NormalCaptchaFailed else PageOpened |}.

(** The login page always lands on the portal without a port in the URL. *)
Definition portless_browser : browser :=
  {| login_obs := fun _ => Landed "https://bookingportal.cdc.com.sg/NewPortal/";
     booking_obs := fun _ => PageOpened |}.

(** ** [datetime.strptime] for the two formats the program uses

    [datetime] is library code.  The model below covers ASCII input in the
    C locale for the formats ["%d/%b/%Y | %H:%M"] and ["%d/%b/%Y"]: the
    directives accept what their regular expressions in [_strptime] accept,
    white space in the format stands for one or more white-space
    characters, the whole string has to be consumed, and the day has to
    exist in its month. *)

Record datetime : Type := {
  year : N; month : N; day : N; hour : N; minute : N
}.

(** [a < b] on [datetime] objects compares the fields in order. *)
Definition datetime_lt (a b : datetime) : Prop :=
  (year a < year b \/
   year a = year b /\
   (month a < month b \/
    month a = month b /\
    (day a < day b \/
     day a = day b /\
     (hour a < hour b \/
      hour a = hour b /\ minute a < minute b))))%N.

(** A number that orders well-formed datetimes in the same way; it is the
    key the sort compares. *)
Definition datetime_key (dt : datetime) : N :=
  ((((year dt * 13 + month dt) * 32 + day dt) * 24 + hour dt) * 60 + minute dt)%N.

Definition datetime_in_range (dt : datetime) : Prop :=
  (month dt < 13 /\ day dt < 32 /\ hour dt < 24 /\ minute dt < 60)%N.

Definition digit_value (c : ascii) : option N :=
  if is_digit c then Some (N_of_ascii c - 48)%N else None.

Fixpoint digits_value_from (acc : N) (s : string) : option N :=
  match s with
  | "" => Some acc
  | String c rest =>
      match digit_value c with
      | Some v => digits_value_from (acc * 10 + v) rest
      | None => None
      end
  end.

(** [\s] on ASCII characters. *)
Definition is_space (c : ascii) : bool :=
  let n := nat_of_ascii c in
  (Nat.leb 9 n && Nat.leb n 13) || (Nat.leb 28 n && Nat.leb n 32).

(** The part before the first [sep] and the part after it. *)
Fixpoint split_at_char (sep : ascii) (s : string) : option (string * string) :=
  match s with
  | "" => None
  | String c rest =>
      if Ascii.eqb c sep then Some ("", rest)
      else
        match split_at_char sep rest with
        | Some (before, after) => Some (String c before, after)
        | None => None
        end
  end.

(** [%d]: [3[0-1]|[1-2]\d|0[1-9]|[1-9]| [1-9]] *)
Definition parse_day (s : string) : option N :=
  match s with
  | String c "" =>
      match digit_value c with
      | Some v => if (1 <=? v)%N then Some v else None
      | None => None
      end
  | String c1 (String c2 "") =>
      match digit_value c1, digit_value c2 with
      | Some a, Some b =>
          let v := (a * 10 + b)%N in
          if ((1 <=? v) && (v <=? 31))%N then Some v else None
      | None, Some b =>
          if Ascii.eqb c1 " " && (1 <=? b)%N then Some b else None
      | _, None => None
      end
  | _ => None
  end.

Definition to_lower (c : ascii) : ascii :=
  let n := nat_of_ascii c in
  if Nat.leb 65 n && Nat.leb n 90 then ascii_of_nat (n + 32) else c.

Fixpoint lower (s : string) : string :=
  match s with
  | "" => ""
  | String c rest => String (to_lower c) (lower rest)
  end.

Definition month_abbreviations : list string :=
  ["jan"; "feb"; "mar"; "apr"; "may"; "jun";
   "jul"; "aug"; "sep"; "oct"; "nov"; "dec"].

Fixpoint index_of (x : string) (l : list string) (from : N) : option N :=
  match l with
  | [] => None
  | y :: rest => if String.eqb x y then Some from else index_of x rest (from + 1)%N
  end.

(** [%b]: a month abbreviation, matched without regard to case. *)
Definition parse_month (s : string) : option N :=
  index_of (lower s) month_abbreviations 1.

(** [%Y]: [\d\d\d\d]; gives the year and what follows it. *)
Definition parse_year (s : string) : option (N * string) :=
  match s with
  | String a (String b (String c (String d rest))) =>
      match digits_value_from 0 (String a (String b (String c (String d "")))) with
      | Some y => Some (y, rest)
      | None => None
      end
  | _ => None
  end.

(** [%H]: [2[0-3]|[0-1]\d|\d] *)
Definition parse_hour (s : string) : option N :=
  match s with
  | String c "" => digit_value c
  | String c1 (String c2 "") =>
      match digit_value c1, digit_value c2 with
      | Some a, Some b =>
          let v := (a * 10 + b)%N in if (v <=? 23)%N then Some v else None
      | _, _ => None
      end
  | _ => None
  end.

(** [%M]: [[0-5]\d|\d] *)
Definition parse_minute (s : string) : option N :=
  match s with
  | String c "" => digit_value c
  | String c1 (String c2 "") =>
      match digit_value c1, digit_value c2 with
      | Some a, Some b =>
          let v := (a * 10 + b)%N in if (v <=? 59)%N then Some v else None
      | _, _ => None
      end
  | _ => None
  end.

Definition is_leap (y : N) : bool :=
  ((y mod 4 =? 0) && (negb (y mod 100 =? 0) || (y mod 400 =? 0)))%N.

Definition days_in_month (y m : N) : N :=
  match m with
  | 2 => if is_leap y then 29 else 28
  | 4 | 6 | 9 | 11 => 30
  | _ => 31
  end%N.

(** The check made when the date object is built. *)
Definition valid_date (y m d : N) : bool :=
  ((1 <=? y) && (d <=? days_in_month y m))%N.

(** ["%d/%b/%Y"] at the start of the string; gives day, month, year and the
    rest. *)
Definition parse_date_prefix (s : string) : option (N * N * N * string) :=
  match split_at_char "/" s with
  | None => None
  | Some (day_str, after_day) =>
      match parse_day day_str, split_at_char "/" after_day with
      | Some d, Some (month_str, after_month) =>
          match parse_month month_str, parse_year after_month with
          | Some m, Some (y, rest) => Some (d, m, y, rest)
          | _, _ => None
          end
      | _, _ => None
      end
  end.

(** [datetime.strptime(s, "%d/%b/%Y")] *)
Definition strptime_date (s : string) : outcome datetime :=
  match parse_date_prefix s with
  | Some (d, m, y, "") =>
      if valid_date y m d
      then Returns {| year := y; month := m; day := d; hour := 0; minute := 0 |}
      else Raises ValueError
  | _ => Raises ValueError
  end.

Fixpoint skip_spaces (s : string) : string :=
  match s with
  | String c rest => if is_space c then skip_spaces rest else s
  | "" => ""
  end.

(** [\s+] *)
Definition expect_spaces (s : string) : option string :=
  match s with
  | String c rest => if is_space c then Some (skip_spaces rest) else None
  | "" => None
  end.

Definition expect_char (c : ascii) (s : string) : option string :=
  match s with
  | String c' rest => if Ascii.eqb c c' then Some rest else None
  | "" => None
  end.

(** ["\s+\|\s+%H:%M"] up to the end of the string. *)
Definition parse_time_suffix (s : string) : option (N * N) :=
  match expect_spaces s with
  | None => None
  | Some s =>
      match expect_char "|" s with
      | None => None
      | Some s =>
          match expect_spaces s with
          | None => None
          | Some s =>
              match split_at_char ":" s with
              | None => None
              | Some (hour_str, minute_str) =>
                  match parse_hour hour_str, parse_minute minute_str with
                  | Some h, Some mi => Some (h, mi)
                  | _, _ => None
                  end
              end
          end
      end
  end.

(** [datetime.strptime(s, '%d/%b/%Y | %H:%M')] *)
Definition strptime_datetime (s : string) : outcome datetime :=
  match parse_date_prefix s with
  | Some (d, m, y, rest) =>
      match parse_time_suffix rest with
      | Some (h, mi) =>
          if valid_date y m d
          then Returns {| year := y; month := m; day := d; hour := h; minute := mi |}
          else Raises ValueError
      | None => Raises ValueError
      end
  | None => Raises ValueError
  end.

(** ** [convert_to_datetime] (src/website_handler.py) *)

(** [s.split(' ')[0]] *)
Fixpoint first_token (s : string) : string :=
  match s with
  | "" => ""
  | String c rest => if Ascii.eqb c " " then "" else String c (first_token rest)
  end.

Definition convert_to_datetime (date_str : string) (time_str : option string)
    : outcome datetime :=
  match time_str with
  | Some (String c rest) =>
      let time_str := first_token (String c rest) in
      strptime_datetime (date_str +:+ " | " +:+ time_str)
  | _ => strptime_date date_str
  end.

(** ** [handler.get_earliest_time_slots] (src/website_handler.py) *)

(** The sessions dictionary in insertion order: the order of the items is
    the order in which the comprehension flattens them, and through the
    stable sort it decides between slots of equal time.  Keys occur once. *)
Abbreviation sessions := (list (string * list string)).

(** A [(date_str, time_slot)] pair. *)
Abbreviation slot := (string * string)%type.

(** [[(date_str, time_slot) for date_str, time_slots in sessions_data.items()
      for time_slot in time_slots]] *)
Definition flatten_sessions (sessions_data : sessions) : list slot :=
  flat_map (fun '(date_str, time_slots) => List.map (pair date_str) time_slots)
           sessions_data.

(** The sort key: [lambda comp_date: convert_to_datetime(comp_date[0], comp_date[1])] *)
Definition sort_key (comp_date : slot) : outcome datetime :=
  convert_to_datetime comp_date.1 (Some comp_date.2).

(** [list.sort(key=...)]: the key of every element is computed first, an
    exception in a key function leaves the sort; then the elements are
    sorted by key, elements of equal key keeping their order. *)
Fixpoint decorate {A} (key : A -> outcome datetime) (l : list A)
    : outcome (list (N * A)) :=
  match l with
  | [] => Returns []
  | x :: rest =>
      bind_outcome (key x) (fun k =>
        bind_outcome (decorate key rest) (fun decorated =>
          Returns ((datetime_key k, x) :: decorated)))
  end.

Section stable_sort.
Context {A : Type} (key : A -> N).

(** [x] goes in front of the first element that is not smaller. *)
Fixpoint insert_by (x : A) (sorted : list A) : list A :=
  match sorted with
  | [] => [x]
  | y :: rest =>
      if (key x <=? key y)%N then x :: y :: rest else y :: insert_by x rest
  end.

Fixpoint stable_sort_by (l : list A) : list A :=
  match l with
  | [] => []
  | x :: rest => insert_by x (stable_sort_by rest)
  end.

(** Sorted by key, every element against every later one. *)
Definition sorted_by : list A -> Prop :=
  StronglySorted (fun x y => (key x <= key y)%N).
End stable_sort.

Definition sort_with_key {A} (key : A -> outcome datetime) (l : list A)
    : outcome (list A) :=
  bind_outcome (decorate key l) (fun decorated =>
    Returns (List.map snd (stable_sort_by fst decorated))).

(** [range(start, stop, step)] for a positive step. *)
Definition py_range (start stop step : Z) : list Z :=
  List.map (fun k => (start + Z.of_nat k * step)%Z)
           (seq 0 (Z.to_nat ((stop - start + step - 1) / step))).

(** [date_str in return_sessions_data] *)
Fixpoint dict_has (d : sessions) (date_str : string) : bool :=
  match d with
  | [] => false
  | (k, _) :: rest => String.eqb k date_str || dict_has rest date_str
  end.

(** [return_sessions_data[date_str].append(time_slot)] *)
Fixpoint dict_append (d : sessions) (date_str time_slot : string) : sessions :=
  match d with
  | [] => []
  | (k, time_slots) :: rest =>
      if String.eqb k date_str then (k, (time_slots ++ [time_slot])%list) :: rest
      else (k, time_slots) :: dict_append rest date_str time_slot
  end.

(** The body of the selection loop. *)
Definition add_slot (return_sessions_data : sessions) (selected : slot) : sessions :=
  let '(selected_date_str, selected_time_slot) := selected in
  if negb (dict_has return_sessions_data selected_date_str)
  then (return_sessions_data ++ [(selected_date_str, [selected_time_slot])])%list
  else dict_append return_sessions_data selected_date_str selected_time_slot.

(** [step = 1 # Simplified as SIMULATOR is removed.] *)
Definition step : Z := 1.

Definition get_earliest_time_slots (sessions_data : sessions) (length : Z)
    (field_type : string) : outcome sessions :=
  bind_outcome (sort_with_key sort_key (flatten_sessions sessions_data))
    (fun sorted_datetimes =>
       Returns
         (foldl (fun return_sessions_data i =>
                   match sorted_datetimes !! Z.to_nat i with
                   | Some selected => add_slot return_sessions_data selected
                   | None => return_sessions_data
                   end)
                []
                (py_range 0 (Z.min (length * step)
                                   (Z.of_nat (List.length sorted_datetimes)))
                          step))).

(** The same dictionary without its insertion order, as
    [check_if_same_sessions] sees it. *)
Definition sessions_as_map (d : sessions) : sessions_map := list_to_map d.

(** The key of a slot as a number; 0 when the slot does not parse. *)
Definition slot_key (s : slot) : N :=
  match sort_key s with
  | Returns dt => datetime_key dt
  | Raises _ => 0%N
  end.

Definition parses (s : slot) : Prop := exists dt, sort_key s = Returns dt.

(** [a] is not later than [b]. *)
Definition chron_le (a b : slot) : Prop :=
  exists da db,
    sort_key a = Returns da /\ sort_key b = Returns db /\
    (datetime_key da <= datetime_key db)%N.

(** *** Sample sessions *)

Definition may_sessions : sessions :=
  [ ("14/May/2025", ["11:00 - 12:40"; "09:00 - 10:40"]);
    ("12/May/2025", ["15:00 - 16:40"]);
    ("13/May/2025", ["08:00 - 09:40"; "13:00 - 14:40"]) ].

(** The date format of the specification's scenarios, which [%b] rejects. *)
Definition numeric_month_sessions : sessions :=
  [ ("12/May/2025", ["09:00 - 10:40"]);
    ("12/05/2025", ["09:00-10:00"; "11:00-12:00"]) ].

(** *** The shape of the result

    What the selection loop builds from a list of slots, described without
    the loop: the dates in the order of their first occurrence, each with
    its time slots in the order of the list. *)

Definition group_slots (l : list slot) : sessions := foldl add_slot [] l.

Definition on_date (d : string) (s : slot) : bool := String.eqb s.1 d.

Definition off_date (d : string) (s : slot) : bool := negb (String.eqb s.1 d).

Definition other_than (d : string) (d' : string) : bool := negb (String.eqb d' d).

Fixpoint first_dates (l : list slot) : list string :=
  match l with
  | [] => []
  | s :: rest => s.1 :: List.filter (other_than s.1) (first_dates rest)
  end.

Definition times_on (l : list slot) (d : string) : string * list string :=
  (d, List.map snd (List.filter (on_date d) l)).

(** The slots date by date, as flattening the result gives them. *)
Definition regroup (l : list slot) : list slot :=
  flat_map (fun d => List.filter (on_date d) l) (first_dates l).

(** ** [handler.reset_state] (src/website_handler.py) *)

(** The handler keeps its own fields in the same attribute dictionary as the
    per-category ones. *)
Definition reset_state (self : instance) : instance :=
  let self := reset_attributes_for_all_fieldtypes self in
  let self := setattr self "notification_update_msg" (VStr "") in
  setattr self "has_slots_reserved" (VBool false).

(** ** Further exceptions

    [KeyError] and [IndexError] occur in the code below; [Other] embeds the
    exceptions above. *)
Inductive py_error : Type :=
  | KeyError
  | IndexError
  | Other (e : exn).

Inductive result (A : Type) : Type :=
  | Ok (a : A)
  | Err (e : py_error).
Arguments Ok {A} a.
Arguments Err {A} e.

(** ** [utils.concat_tuple] and [utils.get_date_formatter] (src/utils/common.py) *)

(** [str.rstrip()]: a white-space character goes when all that follows it
    goes. *)
Fixpoint rstrip (s : string) : string :=
  match s with
  | "" => ""
  | String c rest =>
      match rstrip rest with
      | "" => if is_space c then "" else String c ""
      | kept => String c kept
      end
  end.

(** [str.strip()] *)
Definition py_strip (s : string) : string := rstrip (skip_spaces s).

(** [concat_tuple]; the tuple is given by the [str(m)] of its elements. *)
Definition concat_tuple (ouput_tuple : list string) : string :=
  py_strip (foldl (fun result m => result +:+ m +:+ " ") "" ouput_tuple).

Definition starts_with_space (s : string) : bool :=
  match s with
  | String c _ => is_space c
  | "" => false
  end.

Fixpoint ends_with_space (s : string) : bool :=
  match s with
  | "" => false
  | String c "" => is_space c
  | String _ rest => ends_with_space rest
  end.

(** [' '.join(l)] *)
Fixpoint join_spaces (l : list string) : string :=
  match l with
  | [] => ""
  | [m] => m
  | m :: rest => m +:+ " " +:+ join_spaces rest
  end.

(** A message that [strip] would not change and that is not empty. *)
Definition trimmed (m : string) : Prop :=
  m <> "" /\ starts_with_space m = false /\ ends_with_space m = false.

(** The table [utils.date_formatter]. *)
Definition date_formatter : list (string * string) :=
  [ ("dd/mm/yyyy", "%d/%m/%Y");
    ("dd-mm-yyyy", "%d-%m-%Y");
    ("ddmmyyyy", "%d%m%Y");
    ("mm/dd/yyyy", "%m/%d/%y");
    ("mm dd, yyyy", "%B %d, %Y");
    ("mm-dd-yyyy", "%b-%d-%Y");
    ("dd/mm/yyyy hh:mm:ss", "%d/%m/%Y %H:%M:%S");
    ("dd-mm-yyyy hh:mm:ss", "%d-%m-%Y %H:%M:%S");
    ("dd-mm-yyyy hhmmss", "%d-%m-%Y %H%M%S");
    ("dd-mm-yyyy hhmm", "%d-%m-%Y %H%M");
    ("ddmmyyyy hhmmss", "%d%m%Y %H%M%S");
    ("yyyymmdd-hhmmss", "%Y%m%d-%H%M%S") ].

Fixpoint table_lookup (table : list (string * string)) (key : string) : option string :=
  match table with
  | [] => None
  | (k, v) :: rest => if String.eqb k key then Some v else table_lookup rest key
  end.

(** [utils.date_formatter.get(format_option, utils.date_formatter[default_format_option])]:
    the default is looked up before [get] is called. *)
Definition get_date_formatter (format_option default_format_option : string)
    : result string :=
  match table_lookup date_formatter default_format_option with
  | None => Err KeyError
  | Some fallback =>
      Ok (default fallback (table_lookup date_formatter format_option))
  end.

(** The format that [get_date_now] and [get_datetime_now] hand to
    [strftime]. *)
Definition get_date_now_format (format_option : string) : result string :=
  get_date_formatter format_option "dd-mm-yyyy".

Definition get_datetime_now_format (format_option : string) : result string :=
  get_date_formatter format_option "ddmmyyyy hhmmss".

(** ** Choosing a course (src/website_handler.py) *)

(** [course_data] as [get_course_data] returns it: the texts of the options
    of the dropdown, and the dropdown itself, of which the calls to
    [select_by_index] are kept, oldest first. *)
Record course_data : Type := {
  available_courses : list string;
  course_selection : list Z
}.

Definition select_by_index (cd : course_data) (index : Z) : course_data :=
  {| available_courses := available_courses cd;
     course_selection := course_selection cd ++ [index] |}.

(** The loop of [select_course_from_name] from position [selection_idx] on:
    the index of the first course whose text contains [course_name]. *)
Fixpoint first_course_with_name (courses : list string) (selection_idx : Z)
    (course_name : string) : option Z :=
  match courses with
  | [] => None
  | current_course :: rest =>
      if contains course_name current_course then Some selection_idx
      else first_course_with_name rest (selection_idx + 1) course_name
  end.

(** Returns the index, or [False]. *)
Definition select_course_from_name (cd : course_data) (course_name : string)
    : course_data * value :=
  match first_course_with_name (available_courses cd) 0 course_name with
  | Some selection_idx => (select_by_index cd selection_idx, VInt selection_idx)
  | None => (cd, VBool false)
  end.

(** Returns the text of the course, or [False]. *)
Definition select_course_from_idx (cd : course_data) (course_idx : Z)
    : course_data * value :=
  if negb ((0 <=? course_idx)%Z &&
           (course_idx <? Z.of_nat (List.length (available_courses cd)))%Z)
  then (cd, VBool false)
  else (select_by_index cd course_idx,
        VStr (default "" (available_courses cd !! Z.to_nat course_idx))).

(** [self.select_course_from_name(course_data, "Class 3A Motorcar") or
     self.select_course_from_idx(course_data, 1)] in
    [open_practical_lessons_booking_page]. *)
Definition select_motorcar_or_second (cd : course_data) : course_data * value :=
  let '(cd, by_name) := select_course_from_name cd "Class 3A Motorcar" in
  if truthy by_name then (cd, by_name) else select_course_from_idx cd 1.

(** ** Retry loops (src/website_handler.py) *)

(** *** [_fetch_with_flaresolverr] *)

(** What one attempt meets: the cookies that [get_flaresolverr_cookies]
    returned ([None] and the empty list are both [[]] here), and the reply
    to the request: status code and text, or an exception. *)
Record fetch_observation : Type := {
  fetch_cookies : list (string * string);
  fetch_reply : outcome (Z * string)
}.

(** The calls an attempt loop makes, oldest first. *)
Inductive retry_event : Type :=
  | EvAttempt (attempt : nat)
  | EvSleep (seconds : Z).

(** What the attempt returns when it is the one that succeeds. *)
Definition fetch_success (obs : fetch_observation)
    : option (string * list (string * string)) :=
  match fetch_cookies obs with
  | [] => None
  | cookies =>
      match fetch_reply obs with
      | Returns (status_code, text) =>
          if (status_code =? 200)%Z then Some (text, cookies) else None
      | Raises _ => None
      end
  end.

(** [for attempt in range(max_retries)] over the attempts that are left.
    The four ways in which an attempt fails share their ending: sleep and
    [continue] when [attempt < max_retries - 1], [return None] otherwise. *)
Fixpoint fetch_attempts (fs : nat -> fetch_observation) (max_retries : nat)
    (retry_delay : Z) (attempts : list nat)
    : option (string * list (string * string)) * list retry_event :=
  match attempts with
  | [] => (None, [])
  | attempt :: rest =>
      match fetch_success (fs attempt) with
      | Some response => (Some response, [EvAttempt attempt])
      | None =>
          if Nat.ltb attempt (max_retries - 1) then
            let '(response, evs) := fetch_attempts fs max_retries retry_delay rest in
            (response, EvAttempt attempt :: EvSleep retry_delay :: evs)
          else (None, [EvAttempt attempt])
      end
  end.

Definition _fetch_with_flaresolverr (fs : nat -> fetch_observation)
    : option (string * list (string * string)) * list retry_event :=
  let max_retries := 3 in
  let retry_delay := 5%Z in
  fetch_attempts fs max_retries retry_delay (seq 0 max_retries).

(** *** [initialize_driver] *)

(** How [initialize_driver] ends: with the driver of some attempt, with the
    exception of an attempt, or with the exception
    ["Unknown error during Chromedriver initialization after retries"] of
    its last line. *)
Inductive driver_result (driver : Type) : Type :=
  | DriverReady (d : driver)
  | InitRaises (e : exn)
  | InitUnknownError.
Arguments DriverReady {driver} d.
Arguments InitRaises {driver} e.
Arguments InitUnknownError {driver}.

Section initialize_driver.
Context {driver : Type}.

(** The body of the [try] of attempt [k] gives [ds k]: the driver, or the
    exception that leaves the [try]. *)
Fixpoint initialize_attempts (ds : nat -> outcome driver) (max_retries : nat)
    (retry_delay : Z) (attempts : list nat) (last_exception : option exn)
    : driver_result driver * list retry_event :=
  match attempts with
  | [] =>
      match last_exception with
      | Some e => (InitRaises e, [])
      | None => (InitUnknownError, [])
      end
  | attempt :: rest =>
      match ds attempt with
      | Returns d => (DriverReady d, [EvAttempt attempt])
      | Raises e =>
          let last_exception := Some e in
          if Nat.ltb attempt (max_retries - 1) then
            let '(r, evs) :=
              initialize_attempts ds max_retries retry_delay rest last_exception in
            (r, EvAttempt attempt :: EvSleep retry_delay :: evs)
          else
            match last_exception with
            | Some e => (InitRaises e, [EvAttempt attempt])
            | None => (InitUnknownError, [EvAttempt attempt])
            end
      end
  end.

Definition initialize_driver (ds : nat -> outcome driver)
    : driver_result driver * list retry_event :=
  let max_retries := 3 in
  let retry_delay := 5%Z in
  initialize_attempts ds max_retries retry_delay (seq 0 max_retries) None.
End initialize_driver.

(** The log of a loop that stopped in attempt [j], having started with
    attempt [k]: a sleep between any two attempts, none after the last. *)
Definition attempt_log (retry_delay : Z) (k j : nat) : list retry_event :=
  EvAttempt k ::
  flat_map (fun i => [EvSleep retry_delay; EvAttempt i]) (seq (S k) (j - k)).

(** Seconds slept according to a log. *)
Definition seconds_slept (evs : list retry_event) : Z :=
  foldr (fun ev total => match ev with
                         | EvSleep seconds => (seconds + total)%Z
                         | EvAttempt _ => total
                         end) 0%Z evs.

(** ** Notifications and logging
    (src/utils/notifications/discord_manager.py,
     src/utils/notifications/notification_manager.py, src/utils/log.py) *)

(** *** The network

    Discord is outside the program.  It is represented by a script that
    says what the [k]-th call of [requests.post] meets. *)
Inductive post_observation : Type :=
  | PostRaises
      (* requests.post raised *)
  | Response (status_code : Z) (retry_after : outcome Z).
      (* [retry_after]: what [response.json().get("retry_after", 1)] gives,
         in seconds, or the exception of [response.json()] *)

(** What the program does to the outside, oldest first: a post with the
    webhook it goes to, the suffix of the bot name and the colour of the
    embed; a [time.sleep]; a line handed to the local logger. *)
Inductive net_event : Type :=
  | EvPost (webhook_url : value) (bot : string) (color : Z)
  | EvWait (seconds : Z)
  | EvLog (level : string) (message : string).

Record net_state : Type := {
  post_clock : nat;
  net_events : list net_event
}.

Definition requests_post (net : nat -> post_observation) (webhook_url : value)
    (bot : string) (color : Z) (st : net_state) : post_observation * net_state :=
  (net (post_clock st),
   {| post_clock := S (post_clock st);
      net_events := net_events st ++ [EvPost webhook_url bot color] |}).

Definition time_sleep (seconds : Z) (st : net_state) : net_state :=
  {| post_clock := post_clock st;
     net_events := net_events st ++ [EvWait seconds] |}.

Definition emit (level message : string) (st : net_state) : net_state :=
  {| post_clock := post_clock st;
     net_events := net_events st ++ [EvLog level message] |}.

(** The webhooks posted to according to a log. *)
Definition posts_of (evs : list net_event) : list value :=
  flat_map (fun ev => match ev with
                      | EvPost webhook_url _ _ => [webhook_url]
                      | _ => []
                      end) evs.

(** [self.log] of a manager: its [error] and [warning] methods, which may
    themselves reach the network.  [None] stands for a nesting of calls
    deeper than the fuel of the caller. *)
Record logger : Type := {
  log_error : string -> net_state -> option net_state;
  log_warning : string -> net_state -> option net_state
}.

(** A logger that only writes locally. *)
Definition plain_logger : logger :=
  {| log_error := fun message st => Some (emit "ERROR" message st);
     log_warning := fun message st => Some (emit "WARNING" message st) |}.

Definition to_upper (c : ascii) : ascii :=
  let n := nat_of_ascii c in
  if Nat.leb 97 n && Nat.leb n 122 then ascii_of_nat (n - 32) else c.

Fixpoint upper (s : string) : string :=
  match s with
  | "" => ""
  | String c rest => String (to_upper c) (upper rest)
  end.

(** *** [DiscordManager] *)

Module DiscordManager.

Record t : Type := {
  config : list (string * value);
  enabled : value;
  webhook_url : value;
  username : value;
  avatar_url : value;
  log_channel_webhook : value;
  queries_channel_webhook : value;
  reservations_webhook_url : value;
  store_value_webhook_url : value;
  error_logs_webhook_url : value;
  send_queries : value;
  send_error_logs : value
}.

(** [__init__]; the second component tells whether the error
    "Discord notifications are enabled but webhook_url is not set" was
    logged. *)
Definition init (config : list (string * value)) : t * bool :=
  let enabled := dict_get config "discord_notification_enabled" (VBool false) in
  let webhook_url := dict_get config "webhook_url" (VStr "") in
  let log_channel_webhook := dict_get config "log_channel_webhook" webhook_url in
  let unset := truthy enabled && negb (truthy webhook_url) in
  ({| config := config;
      enabled := if unset then VBool false else enabled;
      webhook_url := webhook_url;
      username := dict_get config "bot_username" (VStr "CDC Bot");
      avatar_url := dict_get config "avatar_url" (VStr "");
      log_channel_webhook := log_channel_webhook;
      queries_channel_webhook :=
        dict_get config "queries_webhook_url" log_channel_webhook;
      reservations_webhook_url :=
        dict_get config "reservations_webhook_url" webhook_url;
      store_value_webhook_url :=
        dict_get config "store_value_webhook_url" webhook_url;
      error_logs_webhook_url :=
        dict_get config "error_logs_webhook_url" webhook_url;
      send_queries := dict_get config "send_queries_to_discord" (VBool false);
      send_error_logs :=
        dict_get config "send_error_logs_to_discord" (VBool false) |},
   unset).

Section sending.
Context (self : t) (log : logger) (net : nat -> post_observation).

(** [except Exception as e: self.log.error(...); return False] *)
Definition on_exception (st : net_state) : option (bool * net_state) :=
  match log_error log "Error sending Discord notification" st with
  | Some st => Some (false, st)
  | None => None
  end.

(** [if response.status_code >= 400: self.log.error(...); return False]
    and [return True] *)
Definition check_status (status_code : Z) (st : net_state)
    : option (bool * net_state) :=
  if (400 <=? status_code)%Z then
    match log_error log "Failed to send Discord notification" st with
    | Some st => Some (false, st)
    | None => None
    end
  else Some (true, st).

Definition _send_to_webhook (webhook_url : value) (bot : string) (color : Z)
    (retry_on_rate_limit : bool) (st : net_state) : option (bool * net_state) :=
  if negb (truthy (enabled self)) then Some (false, st)
  else
    let '(obs, st) := requests_post net webhook_url bot color st in
    match obs with
    | PostRaises => on_exception st
    | Response status_code retry_after =>
        if (status_code =? 429)%Z && retry_on_rate_limit then
          match retry_after with
          | Raises _ => on_exception st
          | Returns seconds =>
              match log_warning log "Discord rate limited" st with
              | None => None
              | Some st =>
                  (* time.sleep raises ValueError for a negative length *)
                  if (seconds <? 0)%Z then on_exception st
                  else
                    let st := time_sleep seconds st in
                    let '(obs, st) := requests_post net webhook_url bot color st in
                    match obs with
                    | PostRaises => on_exception st
                    | Response status_code _ => check_status status_code st
                    end
              end
          end
        else check_status status_code st
    end.

(** [send_notification]: lines 73 to 101 are lines 118 to 146 of
    [_send_to_webhook] with the retry always on. *)
Definition send_notification (color : option Z) (st : net_state)
    : option (bool * net_state) :=
  let color := match color with
               | Some c => if (c =? 0)%Z then 3447003%Z else c
               | None => 3447003%Z
               end in
  _send_to_webhook (webhook_url self) "" color true st.

Definition colors : list (string * Z) :=
  [ ("DEBUG", 7506394%Z); ("INFO", 3066993%Z); ("WARNING", 16776960%Z);
    ("ERROR", 15158332%Z); ("CRITICAL", 10038562%Z) ].

Fixpoint colors_get (table : list (string * Z)) (key : string) (default : Z) : Z :=
  match table with
  | [] => default
  | (k, v) :: rest => if String.eqb k key then v else colors_get rest key default
  end.

Definition send_log (level msg : string) (st : net_state)
    : option (bool * net_state) :=
  if negb (truthy (enabled self)) ||
     negb (truthy (dict_get (config self) "send_logs_to_discord" (VBool false)))
  then Some (false, st)
  else _send_to_webhook (log_channel_webhook self) " Logs"
                        (colors_get colors (upper level) 7506394) false st.

(** [main_sent = ...; reservations_sent = ...;
     return main_sent or reservations_sent] *)
Definition send_to_both (second_webhook : value) (bot : string) (color : Z)
    (st : net_state) : option (bool * net_state) :=
  match _send_to_webhook (webhook_url self) bot color true st with
  | None => None
  | Some (main_sent, st) =>
      match _send_to_webhook second_webhook bot color true st with
      | None => None
      | Some (second_sent, st) => Some (main_sent || second_sent, st)
      end
  end.

Definition send_booking_alert (st : net_state) : option (bool * net_state) :=
  send_to_both (reservations_webhook_url self) " Reservations" 5763719 st.

Definition send_booking_confirmation_alert (st : net_state)
    : option (bool * net_state) :=
  send_to_both (reservations_webhook_url self) " Reservations" 2067276 st.

Definition send_query_log (st : net_state) : option (bool * net_state) :=
  if negb (truthy (enabled self)) || negb (truthy (send_queries self))
  then Some (false, st)
  else _send_to_webhook (queries_channel_webhook self) " Queries" 3447003 false st.

Definition send_error_log (st : net_state) : option (bool * net_state) :=
  if negb (truthy (enabled self)) || negb (truthy (send_error_logs self))
  then Some (false, st)
  else _send_to_webhook (error_logs_webhook_url self) " Error Logs" 15158332 true st.
End sending.

End DiscordManager.

(** *** [NotificationManager] *)

Module NotificationManager.

(** [discord_manager] is [False] or a [DiscordManager]. *)
Record t : Type := {
  discord_manager : option DiscordManager.t
}.

Definition init (discord_config : list (string * value)) : t :=
  if truthy (VDict discord_config) &&
     truthy (dict_get discord_config "discord_notification_enabled" (VBool false))
  then {| discord_manager := Some (DiscordManager.init discord_config).1 |}
  else {| discord_manager := None |}.

(** Returns [None] without a manager. *)
Definition send_notification_all (self : t) (log : logger)
    (net : nat -> post_observation) (st : net_state)
    : option (option bool * net_state) :=
  match discord_manager self with
  | Some dm =>
      match DiscordManager.send_notification dm log net None st with
      | Some (discord_result, st) => Some (Some discord_result, st)
      | None => None
      end
  | None => Some (None, st)
  end.

Definition send_log_to_discord (self : t) (log : logger)
    (net : nat -> post_observation) (level msg : string) (st : net_state)
    : option (option bool * net_state) :=
  match discord_manager self with
  | Some dm =>
      match DiscordManager.send_log dm log net level msg st with
      | Some (sent, st) => Some (Some sent, st)
      | None => None
      end
  | None => Some (None, st)
  end.

End NotificationManager.

(** *** [Log] *)

Module Log.

(** The method of [self.logger] that is handed to [append_stack_if]. *)
Inductive log_type : Type := debug | info | warning | error.

(** [level_map.get(log_type, 2)] *)
Definition level_value (lt : log_type) : Z :=
  match lt with
  | debug => 1
  | info => 2
  | warning => 3
  | error => 4
  end.

Definition __name__ (lt : log_type) : string :=
  match lt with
  | debug => "debug"
  | info => "info"
  | warning => "warning"
  | error => "error"
  end.

(** The fields that [append_stack_if] reads; [discord_log_level] is
    [self.config.get("discord_log_level", 2)], a number. *)
Record t : Type := {
  prefix : string;
  discord_log_level : Z;
  discord_notification_manager : option NotificationManager.t
}.

(** [message]: the output concatenated, behind the prefix when there is
    one. *)
Definition message_of (self : t) (output : list string) : string :=
  concat_tuple (if negb (String.eqb (prefix self) "")
                then [prefix self +:+ concat_tuple output]
                else output).

(** [append_stack_if(log_type, *output)].  What the local logger writes is
    kept as one event with the message.  The managers reached through
    [discord_notification_manager] were built with this same [Log] as their
    [log] (src/main.py), so an error they log comes back here. *)
Fixpoint append_stack_if (fuel : nat) (self : t) (net : nat -> post_observation)
    (lt : log_type) (output : list string) (st : net_state) : option net_state :=
  match fuel with
  | O => None
  | S fuel =>
      let message := message_of self output in
      let st := emit (upper (__name__ lt)) message st in
      match discord_notification_manager self with
      | None => Some st
      | Some nm =>
          if (discord_log_level self <=? level_value lt)%Z then
            let log :=
              {| log_error := fun m => append_stack_if fuel self net error [m];
                 log_warning := fun m => append_stack_if fuel self net warning [m] |} in
            match NotificationManager.send_log_to_discord
                    nm log net (upper (__name__ lt)) message st with
            | Some (_, st) => Some st
            | None => None
            end
          else Some st
      end
  end.

End Log.

(** A post that makes [_send_to_webhook] log an error when it does not
    retry: an exception, or a status of 400 or more. *)
Definition post_fails (obs : post_observation) : bool :=
  match obs with
  | PostRaises => true
  | Response status_code _ => (400 <=? status_code)%Z
  end.

(** A logger wired to Discord as src/main.py does it, with everything
    switched on that a log line needs to be posted. *)
Definition forwards_errors (self : Log.t) (dm : DiscordManager.t) : Prop :=
  (exists nm,
     Log.discord_notification_manager self = Some nm /\
     NotificationManager.discord_manager nm = Some dm) /\
  truthy (DiscordManager.enabled dm) = true /\
  truthy (dict_get (DiscordManager.config dm) "send_logs_to_discord" (VBool false))
    = true /\
  (Log.discord_log_level self <= 4)%Z.

(** *** The description of an error log ([DiscordManager.send_error_log])

    Strings are sequences of characters here as in Python; [len] is
    [String.length]. *)

Fixpoint string_take (n : nat) (s : string) : string :=
  match n, s with
  | S n, String c rest => String c (string_take n rest)
  | _, _ => ""
  end.

(** [s[:n]]: the first [n] characters, or all but the last [-n] for a
    negative [n]. *)
Definition slice_to (s : string) (n : Z) : string :=
  if (0 <=? n)%Z then string_take (Z.to_nat n) s
  else string_take (String.length s - Z.to_nat (- n)) s.

(** The line feed. *)
Definition nl : string := String (ascii_of_nat 10) "".

(** [description] before the stack trace is added. *)
Definition error_description_head
    (account_name error_type current_time error_msg : string) : string :=
  "**Account:** " +:+ account_name +:+ nl +:+
  "**Error Type:** " +:+ error_type +:+ nl +:+
  "**Time:** " +:+ current_time +:+ nl +:+
  "**Error Message:** " +:+ error_msg +:+ nl.

(** [description] as it is sent. *)
Definition error_description
    (account_name error_type current_time error_msg : string)
    (stack_trace : option string) : string :=
  let description :=
    error_description_head account_name error_type current_time error_msg in
  match stack_trace with
  | None => description
  | Some stack_trace =>
      if String.eqb stack_trace "" then description
      else
        let max_stack_length :=
          (2000 - Z.of_nat (String.length description) - 50)%Z in
        let stack_trace :=
          if (max_stack_length <? Z.of_nat (String.length stack_trace))%Z
          then slice_to stack_trace max_stack_length +:+ "...(truncated)"
          else stack_trace in
        description +:+ nl +:+ "**Stack Trace:**" +:+ nl +:+ "```" +:+ nl +:+
        stack_trace +:+ nl +:+ "```"
  end.

(** ** [AccountManager]: accounts and one run of an account
    (src/utils/account_manager.py) *)

(** *** [_parse_accounts] *)

(** [account.get("username", "") == ""] *)
Definition username_is_empty (a : account) : bool :=
  match default (VStr "") (a !! "username") with
  | VStr s => String.eqb s ""
  | _ => false
  end.

(** The body of the first loop for the account at position [i]: an account
    without a name is named [account_{i+1}] when its user name is missing or
    empty, and after its user name otherwise. *)
Definition name_account (i : nat) (a : account) : account :=
  match a !! "name" with
  | Some _ => a
  | None =>
      <["name" := if username_is_empty a
                  then VStr ("account_" +:+ pretty (S i))
                  else default VNone (a !! "username")]> a
  end.

(** [not account.get("username") or not account.get("password")], negated. *)
Definition has_credentials (a : account) : bool :=
  truthy (default VNone (a !! "username")) &&
  truthy (default VNone (a !! "password")).

(** [accounts] is the ["accounts"] section of the configuration, if there
    is one. *)
Definition _parse_accounts (accounts : option (list account)) : list account :=
  match accounts with
  | None => []
  | Some accounts => List.filter has_credentials (imap name_account accounts)
  end.

(** *** [run_account]

    The handler, the browser and the file system are outside the manager.
    A script says how each of the calls made for one account ends. *)
Record account_script : Type := {
  clear_account_temp_dir : outcome unit;
  handler_init : outcome unit;       (* handler(...) *)
  login_result : outcome bool;       (* cdc_handler.account_login() *)
  process_account : outcome unit;    (* cdc_handler.process_account(...) *)
  logout_result : outcome unit;      (* cdc_handler.account_logout() *)
  quit_result : outcome unit         (* cdc_handler.driver.quit() *)
}.

(** The calls made for an account, oldest first; a notification is kept
    with the end of its title. *)
Inductive account_event : Type :=
  | AcClearTemp (account_name : string)
  | AcHandler
  | AcLogin
  | AcProcess (monitored_types : value)
  | AcLogout
  | AcQuit
  | AcNotify (title : string).

(** [running_accounts] holds the names that are strings; a name of another
    type makes [os.path.join] raise in [clear_account_temp_dir]. *)
Record manager_state : Type := {
  running_accounts : gset string;
  account_events : list account_event
}.

Definition record_event (ev : account_event) (st : manager_state) : manager_state :=
  {| running_accounts := running_accounts st;
     account_events := account_events st ++ [ev] |}.

Definition set_running (names : gset string) (st : manager_state) : manager_state :=
  {| running_accounts := names; account_events := account_events st |}.

(** [d[key]] on a nested dictionary. *)
Fixpoint dict_find (d : list (string * value)) (key : string) : option value :=
  match d with
  | [] => None
  | (k, v) :: rest => if String.eqb k key then Some v else dict_find rest key
  end.

(** [self.config["program_config"]["monitored_types"]]; [None] when the
    subscript raises. *)
Definition default_monitored_types (config : configuration) : option value :=
  match config !! "program_config" with
  | Some (VDict program_config) => dict_find program_config "monitored_types"
  | _ => None
  end.

(** The [finally] of the inner [try]: log out, then close the driver,
    whatever either of them raises. *)
Definition release_browser (st : manager_state) : manager_state :=
  record_event AcQuit (record_event AcLogout st).

(** The inner [try] with its [except] and [finally]. *)
Definition run_logged_in (config : configuration) (w : account_script)
    (a : account) (st : manager_state) : manager_state :=
  let st := record_event AcLogin st in
  let st :=
    match login_result w with
    | Raises _ => record_event (AcNotify " Error") st
    | Returns false => record_event (AcNotify " Login Failed") st
    | Returns true =>
        (* the default of [account.get("monitored_types", ...)] is
           evaluated before [get] is called *)
        match default_monitored_types config with
        | None => record_event (AcNotify " Error") st
        | Some fallback =>
            let monitored_types := default fallback (a !! "monitored_types") in
            let st := record_event (AcProcess monitored_types) st in
            match process_account w with
            | Raises _ => record_event (AcNotify " Error") st
            | Returns _ => st
            end
        end
    end in
  release_browser st.

(** The outer [try] with its [except]: the arguments of [handler(...)] are
    subscripts that raise [KeyError] when a key is missing. *)
Definition run_with_handler (config : configuration) (w : account_script)
    (a : account) (st : manager_state) : manager_state :=
  match a !! "username", a !! "password",
        config !! "browser_config", config !! "program_config" with
  | Some _, Some _, Some _, Some _ =>
      let st := record_event AcHandler st in
      match handler_init w with
      | Raises _ => record_event (AcNotify " Setup Error") st
      | Returns _ => run_logged_in config w a st
      end
  | _, _, _, _ => record_event (AcNotify " Setup Error") st
  end.

Definition run_account (config : configuration) (w : account_script)
    (a : account) (st : manager_state) : result unit * manager_state :=
  match a !! "name" with
  | None => (Err KeyError, st)
  | Some (VStr name) =>
      if negb (account_enabled a) then (Ok tt, st)
      else
        let st := set_running ({[ name ]} ∪ running_accounts st) st in
        let st := record_event (AcClearTemp name) st in
        match clear_account_temp_dir w with
        | Raises e => (Err (Other e), st)
        | Returns _ =>
            let st := run_with_handler config w a st in
            (Ok tt, set_running (running_accounts st ∖ {[ name ]}) st)
        end
  | Some _ =>
      if negb (account_enabled a) then (Ok tt, st)
      else (Err (Other TypeError), st)
  end.

(** *** [_cleanup_resources]

    The loop runs over a copy of the set; what
    [clear_account_temp_dir] raises is caught and logged. *)
Definition cleanup_account (st : manager_state) (account_name : string)
    : manager_state :=
  let st := record_event (AcClearTemp account_name) st in
  set_running (running_accounts st ∖ {[ account_name ]}) st.

Definition _cleanup_resources (st : manager_state) : manager_state :=
  foldl cleanup_account st (elements (running_accounts st)).

(** Number of events of a log that satisfy [p]. *)
Definition count_events (p : account_event -> bool) (evs : list account_event) : nat :=
  List.length (List.filter p evs).

Definition is_notify (ev : account_event) : bool :=
  match ev with AcNotify _ => true | _ => false end.

Definition is_process (ev : account_event) : bool :=
  match ev with AcProcess _ => true | _ => false end.

Definition is_login (ev : account_event) : bool :=
  match ev with AcLogin => true | _ => false end.

Definition is_release (ev : account_event) : bool :=
  match ev with AcLogout | AcQuit => true | _ => false end.

(* ===================================================================== *)
(** * Part II: theorems                                                   *)
(* ===================================================================== *)

(** ** [init_config_with_default] *)

Section config_defaults_facts.
Context {K : Type} `{Countable K} {V : Type}.
Implicit Types config default_config : gmap K V.

Lemma init_config_step_lookup k v config j :
  init_config_step k v config !! j =
    match config !! j with
    | Some x => Some x
    | None => if decide (k = j) then Some v else None
    end.
Proof.
  unfold init_config_step, check_key_existence_in_dict.
  destruct (config !! k) as [y|] eqn:Hk; simpl.
  - destruct (config !! j) eqn:Hj; [done|].
    destruct (decide (k = j)) as [->|]; [congruence | done].
  - rewrite lookup_insert. destruct (decide (k = j)) as [->|].
    + by rewrite Hk.
    + by destruct (config !! j).
Qed.

(** The loop computes the left-biased union of [config] and the defaults. *)
Lemma init_config_with_default_lookup config default_config j :
  init_config_with_default config default_config !! j =
    match config !! j with
    | Some x => Some x
    | None => default_config !! j
    end.
Proof.
  unfold init_config_with_default.
  apply (map_fold_weak_ind
           (fun r m => r !! j = match config !! j with
                                | Some x => Some x
                                | None => m !! j
                                end)).
  - rewrite lookup_empty. by destruct (config !! j).
  - intros i x m r Hi IH. rewrite init_config_step_lookup, IH.
    destruct (config !! j) as [y|] eqn:Hj; [done|].
    rewrite lookup_insert. destruct (decide (i = j)) as [->|].
    + by rewrite Hi.
    + by destruct (m !! j).
Qed.

(** C10: every default key is present in the result, every key of [config]
    keeps its value whatever that value is, and the result has no key from
    elsewhere. *)
Theorem init_config_with_default_spec config default_config :
  let result := init_config_with_default config default_config in
  (forall k, k ∈ dom default_config -> k ∈ dom result) /\
  (forall k v, config !! k = Some v -> result !! k = Some v) /\
  (forall k, k ∈ dom result -> k ∈ dom config \/ k ∈ dom default_config) /\
  (forall k v, config !! k = None -> default_config !! k = Some v ->
               result !! k = Some v).
Proof.
  intros result. subst result. repeat split.
  - intros k [v Hv]%elem_of_dom. apply elem_of_dom.
    rewrite init_config_with_default_lookup, Hv.
    destruct (config !! k); eauto.
  - intros k v Hk. by rewrite init_config_with_default_lookup, Hk.
  - intros k [v Hv]%elem_of_dom.
    rewrite init_config_with_default_lookup in Hv.
    destruct (config !! k) eqn:Hk.
    + left. apply elem_of_dom. eauto.
    + right. apply elem_of_dom. eauto.
  - intros k v Hk Hd. by rewrite init_config_with_default_lookup, Hk.
Qed.
End config_defaults_facts.

(** ** [CDCAbstract]: resets and the partition by category *)

(** The loop of the reset writes the empty value to the eight fields that are
    not whitelisted, in template order. *)
Lemma reset_templates_unfold field_type (self : instance) :
  foldl (reset_template field_type) self attribute_templates =
  foldl (fun s (az : string * value) =>
           set_attribute_with_fieldtype az.1 field_type az.2 s)
        self cleared_fields.
Proof. reflexivity. Qed.

Lemma reset_practical_unfold (self : instance) :
  reset_attributes_with_fieldtype "practical" self =
  setattr (setattr (foldl (reset_template "practical") self attribute_templates)
                   "can_book_next_practical" (VBool true))
          "has_auto_reserved_practical" (VBool false).
Proof. reflexivity. Qed.

Lemma reset_pt_unfold (self : instance) :
  reset_attributes_with_fieldtype "pt" self =
  setattr (foldl (reset_template "pt") self attribute_templates)
          "can_book_next_pt" (VBool true).
Proof. reflexivity. Qed.

(** Looking through a stack of writes to literal attribute names. *)
Ltac lookup_attrs :=
  cbv [foldl cleared_fields set_attribute_with_fieldtype
       get_attribute_with_fieldtype getattr setattr fieldtype_attr fst snd];
  repeat first
    [ rewrite lookup_insert_eq
    | rewrite lookup_insert_ne by (cbv; discriminate) ];
  try reflexivity.

Lemma reset_attributes_with_fieldtype_cleared (t : Types) (self : instance) a z :
  (a, z) ∈ cleared_fields ->
  get_attribute_with_fieldtype a (Types_value t)
    (reset_attributes_with_fieldtype (Types_value t) self) = Some z.
Proof.
  intros Hin. unfold cleared_fields in Hin.
  destruct t; simpl Types_value;
    rewrite ?reset_practical_unfold, ?reset_pt_unfold, reset_templates_unfold;
    repeat (apply elem_of_cons in Hin as [Hin|Hin];
            [injection Hin as -> ->; lookup_attrs|]);
    by apply elem_of_nil in Hin.
Qed.

Lemma reset_attributes_with_fieldtype_cached (t : Types) (self : instance) :
  get_attribute_with_fieldtype "cached_earlier_sessions" (Types_value t)
    (reset_attributes_with_fieldtype (Types_value t) self) =
  get_attribute_with_fieldtype "cached_earlier_sessions" (Types_value t) self.
Proof.
  destruct t; simpl Types_value;
    rewrite ?reset_practical_unfold, ?reset_pt_unfold, reset_templates_unfold;
    lookup_attrs.
Qed.

Lemma string_length_app (a b : string) :
  String.length (a +:+ b) = String.length a + String.length b.
Proof. induction a as [|c a IH]; simpl; [done|]. by rewrite IH. Qed.

(** The attribute names of two different categories never coincide: they end
    in different letters. *)
Lemma fieldtype_attr_category_ne (t u : Types) a a' :
  t <> u -> fieldtype_attr a (Types_value t) <> fieldtype_attr a' (Types_value u).
Proof.
  intros Htu Heq. unfold fieldtype_attr in Heq.
  destruct t, u; try done; simpl in Heq.
  - change (a +:+ "_practical" = a' +:+ "_pt") in Heq.
    assert (Hlen := f_equal String.length Heq).
    rewrite !string_length_app in Hlen. simpl in Hlen.
    pose proof (String.append_correct2 a "_practical" 9) as H1.
    pose proof (String.append_correct2 a' "_pt" 2) as H2.
    rewrite Heq in H1.
    replace (9 + String.length a) with (2 + String.length a') in H1 by lia.
    rewrite <- H2 in H1. discriminate.
  - change (a +:+ "_pt" = a' +:+ "_practical") in Heq.
    assert (Hlen := f_equal String.length Heq).
    rewrite !string_length_app in Hlen. simpl in Hlen.
    pose proof (String.append_correct2 a "_pt" 2) as H1.
    pose proof (String.append_correct2 a' "_practical" 9) as H2.
    rewrite Heq in H1.
    replace (2 + String.length a) with (9 + String.length a') in H1 by lia.
    rewrite <- H2 in H1. discriminate.
Qed.

Lemma set_other_category (t u : Types) (self : instance) a v attribute :
  t <> u ->
  get_attribute_with_fieldtype attribute (Types_value u)
    (set_attribute_with_fieldtype a (Types_value t) v self) =
  get_attribute_with_fieldtype attribute (Types_value u) self.
Proof.
  intros Htu. unfold get_attribute_with_fieldtype, set_attribute_with_fieldtype,
    getattr, setattr.
  apply lookup_insert_ne. by apply fieldtype_attr_category_ne.
Qed.

Lemma setattr_other_category (t u : Types) (self : instance) a v attribute :
  t <> u ->
  get_attribute_with_fieldtype attribute (Types_value u)
    (setattr self (fieldtype_attr a (Types_value t)) v) =
  get_attribute_with_fieldtype attribute (Types_value u) self.
Proof. apply set_other_category. Qed.

Lemma reset_templates_other_category (t u : Types) (self : instance) attribute :
  t <> u ->
  get_attribute_with_fieldtype attribute (Types_value u)
    (foldl (reset_template (Types_value t)) self attribute_templates) =
  get_attribute_with_fieldtype attribute (Types_value u) self.
Proof.
  intros Htu. generalize attribute_templates as tpls. intros tpls.
  revert self. induction tpls as [|tpl tpls IH]; intros self; simpl; [done|].
  rewrite IH. unfold reset_template. case_bool_decide; [|done].
  by apply set_other_category.
Qed.

Lemma reset_other_category (t u : Types) (self : instance) attribute :
  t <> u ->
  get_attribute_with_fieldtype attribute (Types_value u)
    (reset_attributes_with_fieldtype (Types_value t) self) =
  get_attribute_with_fieldtype attribute (Types_value u) self.
Proof.
  intros Htu. destruct t; simpl Types_value.
  - rewrite reset_practical_unfold.
    change "has_auto_reserved_practical"
      with (fieldtype_attr "has_auto_reserved" (Types_value PRACTICAL)).
    change "can_book_next_practical"
      with (fieldtype_attr "can_book_next" (Types_value PRACTICAL)).
    rewrite !setattr_other_category by done.
    by apply (reset_templates_other_category PRACTICAL).
  - rewrite reset_pt_unfold.
    change "can_book_next_pt" with (fieldtype_attr "can_book_next" (Types_value PT)).
    rewrite !setattr_other_category by done.
    by apply (reset_templates_other_category PT).
Qed.

(** C3: after a reset, for every category, each of the eight listed fields
    holds its empty value and [cached_earlier_sessions] holds the value it
    had before; this is so for the reset of one category and for the reset
    of all of them. *)
Theorem reset_preserves_only_cached (t : Types) (self : instance) :
  let one := reset_attributes_with_fieldtype (Types_value t) self in
  let all := reset_attributes_for_all_fieldtypes self in
  (forall a z, (a, z) ∈ cleared_fields ->
     get_attribute_with_fieldtype a (Types_value t) one = Some z /\
     get_attribute_with_fieldtype a (Types_value t) all = Some z) /\
  get_attribute_with_fieldtype "cached_earlier_sessions" (Types_value t) one =
    get_attribute_with_fieldtype "cached_earlier_sessions" (Types_value t) self /\
  get_attribute_with_fieldtype "cached_earlier_sessions" (Types_value t) all =
    get_attribute_with_fieldtype "cached_earlier_sessions" (Types_value t) self.
Proof.
  intros one all. subst one all. split; [|split].
  - intros a z Hin. split.
    + by apply reset_attributes_with_fieldtype_cleared.
    + unfold reset_attributes_for_all_fieldtypes, field_types. cbn [foldl].
      destruct t.
      * rewrite reset_other_category by discriminate.
        by apply (reset_attributes_with_fieldtype_cleared PRACTICAL).
      * by apply (reset_attributes_with_fieldtype_cleared PT).
  - apply reset_attributes_with_fieldtype_cached.
  - unfold reset_attributes_for_all_fieldtypes, field_types. cbn [foldl].
    destruct t.
    + rewrite reset_other_category by discriminate.
      apply (reset_attributes_with_fieldtype_cached PRACTICAL).
    + rewrite (reset_attributes_with_fieldtype_cached PT).
      by rewrite reset_other_category by discriminate.
Qed.

(** C8: a write to, or a reset of, category [t] leaves every attribute of a
    different category [u] as it was. *)
Theorem category_state_partitioned (t u : Types) (self : instance) :
  t <> u ->
  forall attribute,
    (forall a v,
       get_attribute_with_fieldtype attribute (Types_value u)
         (set_attribute_with_fieldtype a (Types_value t) v self) =
       get_attribute_with_fieldtype attribute (Types_value u) self) /\
    get_attribute_with_fieldtype attribute (Types_value u)
      (reset_attributes_with_fieldtype (Types_value t) self) =
    get_attribute_with_fieldtype attribute (Types_value u) self.
Proof.
  intros Htu attribute. split.
  - intros a v. by apply set_other_category.
  - by apply reset_other_category.
Qed.

Lemma category_state_partitioned_witness :
  PRACTICAL <> PT /\
  get_attribute_with_fieldtype "booked_sessions" "pt"
    (reset_attributes_with_fieldtype "practical"
       (set_attribute_with_fieldtype "booked_sessions" "pt"
          (VDict [("12/May/2025", VList [VStr "09:00 - 10:40"])])
          (init_attributes ∅))) =
  Some (VDict [("12/May/2025", VList [VStr "09:00 - 10:40"])]).
Proof.
  split; [discriminate|].
  etransitivity.
  - apply (category_state_partitioned PRACTICAL PT); discriminate.
  - apply lookup_insert_eq.
Defined.

(** ** [check_if_same_sessions] *)

Lemma check_if_same_sessions_false (a b : sessions_map) :
  check_if_same_sessions a b = false <-> same_collections a b.
Proof.
  unfold check_if_same_sessions, same_collections.
  case_bool_decide as Hdom.
  - split; [done|]. intros [Hd _]. done.
  - split.
    + intros Hex. split; [done|]. intros date ts0 ts1 H0 H1.
      destruct (decide (time_set ts0 = time_set ts1)) as [|Hne]; [done|].
      exfalso. apply not_true_iff_false in Hex. apply Hex.
      apply existsb_exists. exists (date, ts0). split.
      * apply list_elem_of_In, elem_of_map_to_list, H0.
      * rewrite H1. simpl. by apply bool_decide_eq_true_2.
    + intros [_ Hall]. apply not_true_iff_false. intros Hex.
      apply existsb_exists in Hex as [[date ts0] [Hin Hne]].
      apply list_elem_of_In, elem_of_map_to_list in Hin.
      apply bool_decide_eq_true_1 in Hne.
      assert (is_Some (b !! date)) as [ts1 H1].
      { apply elem_of_dom. rewrite <- Hdom. apply elem_of_dom. eauto. }
      rewrite H1 in Hne. simpl in Hne. eauto.
Qed.

Lemma same_collections_refl (a : sessions_map) : same_collections a a.
Proof. split; [done|]. intros date ts0 ts1 H0 H1. congruence. Qed.

Lemma same_collections_sym (a b : sessions_map) :
  same_collections a b -> same_collections b a.
Proof.
  intros [Hd Hall]. split; [done|]. intros date ts0 ts1 H0 H1.
  symmetry. eauto.
Qed.

(** C2: [equalCollections] (the negation of [check_if_same_sessions]) holds
    exactly when the date keys are identical and every date has the same set
    of time ranges; it is reflexive and symmetric. *)
Theorem equalCollections_spec (a b : sessions_map) :
  (equalCollections a b = true <->
     dom a = dom b /\
     forall date ts0 ts1,
       a !! date = Some ts0 -> b !! date = Some ts1 ->
       time_set ts0 = time_set ts1) /\
  equalCollections a a = true /\
  equalCollections a b = equalCollections b a.
Proof.
  unfold equalCollections. split; [|split].
  - rewrite negb_true_iff. apply check_if_same_sessions_false.
  - rewrite negb_true_iff. apply check_if_same_sessions_false,
      same_collections_refl.
  - f_equal.
    destruct (check_if_same_sessions a b) eqn:Hab,
             (check_if_same_sessions b a) eqn:Hba; try done.
    + apply check_if_same_sessions_false, same_collections_sym,
        check_if_same_sessions_false in Hba. congruence.
    + apply check_if_same_sessions_false, same_collections_sym,
        check_if_same_sessions_false in Hab. congruence.
Qed.

(** The order of the time slots of a date is irrelevant, their multiplicity
    too. *)
Example equalCollections_order_independent :
  equalCollections
    {[ "12/May/2025" := ["09:00 - 10:40"; "11:00 - 12:40"] ]}
    {[ "12/May/2025" := ["11:00 - 12:40"; "09:00 - 10:40"; "09:00 - 10:40"] ]}
  = true.
Proof. vm_compute. reflexivity. Qed.

(** ** [run_all_accounts]: pool size, concurrency bound and stagger *)

Lemma effective_max_workers_cases (m : Z) (k : nat) :
  effective_max_workers m k =
    if ((0 <? m) && (m <=? Z.of_nat k))%Z then m else Z.of_nat k.
Proof.
  unfold effective_max_workers.
  destruct (Z.leb_spec m 0), (Z.gtb_spec m (Z.of_nat k)),
    (Z.ltb_spec 0 m), (Z.leb_spec m (Z.of_nat k)); simpl; lia.
Qed.

Lemma effective_max_workers_nonneg (m : Z) (k : nat) :
  (0 <= effective_max_workers m k)%Z.
Proof.
  rewrite effective_max_workers_cases.
  destruct (Z.ltb_spec 0 m), (Z.leb_spec m (Z.of_nat k)); simpl; lia.
Qed.

Lemma count_busy_app (l1 l2 : list call_status) :
  count_busy (l1 ++ l2) = count_busy l1 + count_busy l2.
Proof. unfold count_busy. by rewrite List.filter_app, length_app. Qed.

Lemma count_busy_cons (s : call_status) (l : list call_status) :
  count_busy (s :: l) = (if busy s then 1 else 0) + count_busy l.
Proof. unfold count_busy. simpl. by destruct (busy s). Qed.

Lemma count_running_le_busy (calls : list call_status) :
  count_running calls <= count_busy calls.
Proof.
  unfold count_running, count_busy.
  induction calls as [|s calls IH]; simpl; [lia|].
  destruct s; simpl; lia.
Qed.

Lemma count_busy_queued {A} (l : list A) :
  count_busy (List.map (fun _ => Queued) l) = 0.
Proof. induction l as [|x l IH]; [done|]. by rewrite List.map_cons, count_busy_cons, IH. Qed.

(** A step never takes the number of busy threads above the pool size. *)
Lemma pool_step_busy (workers : Z) (calls calls' : list call_status) :
  pool_step workers calls calls' ->
  (Z.of_nat (count_busy calls) <= workers)%Z ->
  (Z.of_nat (count_busy calls') <= workers)%Z.
Proof.
  intros Hstep. destruct Hstep as [before after _ Hfree|before after|before after];
    rewrite !count_busy_app, !count_busy_cons in *; simpl in *; lia.
Qed.

Lemma pool_reachable_busy (plan : pass_plan) (calls : list call_status) :
  (0 <= max_workers plan)%Z ->
  pool_reachable plan calls ->
  (Z.of_nat (count_busy calls) <= max_workers plan)%Z.
Proof.
  intros Hpos Hreach. induction Hreach as [|calls calls' _ IH Hstep].
  - rewrite count_busy_queued. lia.
  - by eapply pool_step_busy.
Qed.

Lemma run_all_accounts_returns (config : configuration) (accounts : list account) (M : Z) :
  max_concurrent_accounts config = Returns M ->
  List.filter account_enabled accounts <> [] ->
  run_all_accounts config accounts =
    Returns (Some {|
      max_workers :=
        effective_max_workers M (length (List.filter account_enabled accounts));
      submitted :=
        imap (fun i a => (a, (Z.of_nat i * stagger_seconds)%Z))
             (List.filter account_enabled accounts) |}).
Proof.
  intros HM Hne. unfold run_all_accounts. rewrite HM.
  by destruct (List.filter account_enabled accounts).
Qed.

(** With no enabled account the pass returns at once, before it reads the
    limit and without a pool. *)
Lemma run_all_accounts_none_enabled (config : configuration) (accounts : list account) :
  List.filter account_enabled accounts = [] ->
  run_all_accounts config accounts = Returns None.
Proof. intros Hnil. unfold run_all_accounts. by rewrite Hnil. Qed.

(** C5: the pool is created with [maxConcurrent] threads when
    [0 < maxConcurrent <= K] and with [K] threads otherwise, [K] being the
    number of enabled accounts; and when [0 < M <= K] no reachable state of
    the pool has more than [M] accounts running. *)
Theorem run_all_accounts_concurrency
    (config : configuration) (accounts : list account) (M : Z) :
  let K := length (List.filter account_enabled accounts) in
  max_concurrent_accounts config = Returns M ->
  K <> 0 ->
  exists plan,
    run_all_accounts config accounts = Returns (Some plan) /\
    max_workers plan =
      (if ((0 <? M) && (M <=? Z.of_nat K))%Z then M else Z.of_nat K) /\
    ((0 < M <= Z.of_nat K)%Z ->
     forall calls, pool_reachable plan calls ->
       (Z.of_nat (count_running calls) <= M)%Z).
Proof.
  intros K HM HK. eexists. split; [|split].
  - apply run_all_accounts_returns; [done|].
    intros Hnil. apply HK. subst K. by rewrite Hnil.
  - simpl. apply effective_max_workers_cases.
  - intros HMK calls Hreach.
    apply pool_reachable_busy in Hreach;
      [|simpl; apply effective_max_workers_nonneg].
    simpl in Hreach. rewrite effective_max_workers_cases in Hreach.
    fold K in Hreach.
    destruct (Z.ltb_spec 0 M); [|lia].
    destruct (Z.leb_spec M (Z.of_nat K)); [|lia].
    simpl in Hreach. pose proof (count_running_le_busy calls). lia.
Qed.

Lemma run_all_accounts_concurrency_witness :
  exists plan,
    run_all_accounts (demo_config 2) demo_accounts = Returns (Some plan) /\
    max_workers plan = 2%Z /\
    ((0 < 2 <= 3)%Z ->
     forall calls, pool_reachable plan calls ->
       (Z.of_nat (count_running calls) <= 2)%Z).
Proof.
  apply (run_all_accounts_concurrency (demo_config 2) demo_accounts 2).
  - reflexivity.
  - vm_compute. discriminate.
Defined.

(** The bound is reached: with three accounts and two threads, two accounts
    can be running while the third is still queued. *)
Example pool_two_running :
  forall plan,
    run_all_accounts (demo_config 2) demo_accounts = Returns (Some plan) ->
    pool_reachable plan [Running; Running; Queued].
Proof.
  intros plan Hplan. injection Hplan as <-.
  eapply reach_step; [|apply (step_wake _ [Running] [Queued])].
  eapply reach_step; [|apply (step_take _ [Running] [Queued])];
    [|repeat constructor; discriminate|simpl; vm_compute; reflexivity].
  eapply reach_step; [|apply (step_wake _ [] [Queued; Queued])].
  eapply reach_step; [|apply (step_take _ [] [Queued; Queued])];
    [|constructor|simpl; vm_compute; reflexivity].
  apply reach_submitted.
Qed.


Lemma imap_lookup_stagger (l : list account) (i : nat) (a : account) :
  l !! i = Some a ->
  imap (fun i a => (a, (Z.of_nat i * stagger_seconds)%Z)) l !! i =
    Some (a, (Z.of_nat i * stagger_seconds)%Z).
Proof. intros Hi. by rewrite list_lookup_imap, Hi. Qed.

(** C9, as the code has it: the call for the [i]-th enabled account is
    submitted with a delay of [i * 30] seconds, whatever the configuration
    says; the worker sleeps for that delay (nothing for [i = 0]) and then
    runs the account. *)
Theorem run_all_accounts_stagger
    (config : configuration) (accounts : list account) (M : Z)
    (i : nat) (a : account) :
  max_concurrent_accounts config = Returns M ->
  List.filter account_enabled accounts !! i = Some a ->
  exists plan,
    run_all_accounts config accounts = Returns (Some plan) /\
    submitted plan !! i = Some (a, (Z.of_nat i * 30)%Z) /\
    _delayed_account_start a (Z.of_nat i * 30) =
      match i with
      | 0 => [RunAccount a]
      | S _ => [Sleep (Z.of_nat i * 30); RunAccount a]
      end.
Proof.
  intros HM Hi. eexists. split; [|split].
  - apply run_all_accounts_returns; [done|].
    intros Hnil. by rewrite Hnil in Hi.
  - simpl. by apply imap_lookup_stagger.
  - unfold _delayed_account_start. destruct i as [|i]; [done|].
    destruct (Z.gtb_spec (Z.of_nat (S i) * 30) 0); [done|lia].
Qed.

Lemma run_all_accounts_stagger_witness :
  exists plan,
    run_all_accounts (demo_config_stagger 0 10) demo_accounts = Returns (Some plan) /\
    submitted plan !! 2 = Some (demo_account "carol", 60%Z) /\
    _delayed_account_start (demo_account "carol") 60 =
      [Sleep 60; RunAccount (demo_account "carol")].
Proof.
  apply (run_all_accounts_stagger (demo_config_stagger 0 10) demo_accounts 0 2
           (demo_account "carol")); reflexivity.
Defined.

(** C9 as stated fails: with [stagger_seconds: 10] in the configuration the
    second enabled account is still submitted with a delay of 30 seconds,
    not [1 * 10]. *)
Lemma run_all_accounts_stagger_counterexample :
  configured_stagger_seconds (demo_config_stagger 0 10) = Some 10%Z /\
  exists plan,
    run_all_accounts (demo_config_stagger 0 10) demo_accounts = Returns (Some plan) /\
    submitted plan !! 1 = Some (demo_account "bob", 30%Z) /\
    ~ (forall s, configured_stagger_seconds (demo_config_stagger 0 10) = Some s ->
                 submitted plan !! 1 = Some (demo_account "bob", (1 * s)%Z)).
Proof.
  split; [reflexivity|]. eexists. split; [reflexivity|]. split; [reflexivity|].
  intros Hall. specialize (Hall 10%Z eq_refl). simpl in Hall. discriminate.
Qed.

(** ** [account_login] *)

Lemma count_logouts_app (l1 l2 : list event) :
  count_logouts (l1 ++ l2) = count_logouts l1 + count_logouts l2.
Proof. unfold count_logouts. by rewrite List.filter_app, length_app. Qed.

Lemma last_None_nil {A} (l : list A) : last l = None -> l = [].
Proof. intros Hl. by apply last_None in Hl. Qed.

Lemma account_login_rec_returns (fuel : nat) (w : browser)
    (max_login_attempts current_attempt : Z) (st : handler_state) :
  Z.to_nat (max_login_attempts - current_attempt) < fuel ->
  exists b st',
    account_login_rec fuel w max_login_attempts current_attempt st =
      Some (Returns b, st') /\
    login_post w max_login_attempts current_attempt st b st'.
Proof.
  revert current_attempt st.
  induction fuel as [|fuel IH]; intros cur st Hfuel; [lia|].
  simpl. destruct (Z.gtb_spec cur max_login_attempts) as [Hgt|Hle].
  { exists false, st. split; [done|]. unfold login_post.
    split_and!; try done; lia. }
  set (st1 := begin_login_attempt st cur).
  (* the two ways an attempt ends without success *)
  assert (Hstop : login_post w max_login_attempts cur st false st1).
  { unfold login_post, st1. simpl. rewrite count_logouts_app.
    split_and!; try done; try (unfold count_logouts; simpl; lia).
    intros Hd. apply Forall_app. split; [done|]. by repeat constructor. }
  assert (Hretry :
    yields_port (login_obs w (login_clock st)) = false ->
    exists b st',
      (if (cur <? max_login_attempts)%Z
       then account_login_rec fuel w max_login_attempts (cur + 1) st1
       else Some (Returns false, st1)) = Some (Returns b, st') /\
      login_post w max_login_attempts cur st b st').
  { intros Hfail. destruct (Z.ltb_spec cur max_login_attempts) as [Hlt|Hge].
    - destruct (IH (cur + 1)%Z st1) as (b & st' & Hrun & Hpost); [lia|].
      exists b, st'. split; [done|].
      destruct Hpost as (Hp & Hc & Hd & Hlo & Hhi & Htrue & Hfalse & Hnone).
      unfold st1 in *. simpl in *. rewrite count_logouts_app in Hc. simpl in Hc.
      unfold count_logouts in Hc at 3. simpl in Hc.
      split_and!; [done|lia| |lia|lia|done|exact Hfalse|].
      { intros Hst. apply Hd, Forall_app. split; [done|]. by repeat constructor. }
      intros Hall. apply Hnone. intros k Hk. apply Hall. lia.
    - exists false, st1. by split. }
  destruct (login_obs w (login_clock st)) as [e| | | | | | |url] eqn:Hobs;
    simpl; try (destruct Hretry as (b & st' & -> & Hpost); [done|];
                by exists b, st').
  - exists false, st1. by split.
  - exists false, st1. by split.
  - destruct (contains "NewPortal" url) eqn:Hportal.
    + destruct (last (findall_digits url)) as [p|] eqn:Hlast.
      * exists true, (set_logged_in st1 p). split; [done|].
        unfold login_post, st1. simpl. rewrite count_logouts_app. simpl.
        split_and!; [done|unfold count_logouts; simpl; lia| |lia|lia| |done|].
        -- intros Hd. apply Forall_app. split; [done|]. by repeat constructor.
        -- intros _. exists url. by rewrite Hobs.
        -- intros Hall. specialize (Hall (login_clock st) (le_n _)).
           rewrite Hobs in Hall. simpl in Hall. rewrite Hportal in Hall.
           destruct (findall_digits url); [done|discriminate].
      * destruct Hretry as (b & st' & -> & Hpost).
        -- simpl. rewrite Hportal. by rewrite (last_None_nil _ Hlast).
        -- by exists b, st'.
    + destruct Hretry as (b & st' & -> & Hpost); [simpl; by rewrite Hportal|].
      by exists b, st'.
Qed.

(** C7: [account_login] always returns a Boolean and never raises; it makes
    at most [max_login_attempts] attempts (three by default); it returns
    [True] only when the last attempt landed on a "NewPortal" URL whose last
    run of digits is now stored in [port]; and when no attempt yields such a
    port it returns [False], whether or not an exception occurred. *)
Theorem account_login_fails_closed (w : browser)
    (max_login_attempts current_attempt : Z) (st : handler_state) :
  exists b st',
    account_login w max_login_attempts current_attempt st = Some (Returns b, st') /\
    login_clock st' <=
      login_clock st + Z.to_nat (max_login_attempts + 1 - current_attempt) /\
    (b = true ->
       exists url,
         login_obs w (pred (login_clock st')) = Landed url /\
         contains "NewPortal" url = true /\
         last (findall_digits url) = Some (port st') /\
         logged_in st' = true) /\
    ((forall k, login_clock st <= k -> yields_port (login_obs w k) = false) ->
     b = false).
Proof.
  destruct (account_login_rec_returns
              (S (Z.to_nat (max_login_attempts - current_attempt)))
              w max_login_attempts current_attempt st)
    as (b & st' & Hrun & Hpost); [lia|].
  exists b, st'. split; [exact Hrun|].
  destruct Hpost as (_ & _ & _ & _ & Hhi & Htrue & _ & Hnone). by split_and!.
Qed.

(** With the defaults: a login page that never gives a port is tried three
    times, then the login returns [False]. *)
Example account_login_default_exhausts :
  exists st',
    account_login_default portless_browser initial_handler = Some (Returns false, st') /\
    events st' = [EvLoginAttempt 1; EvLoginAttempt 2; EvLoginAttempt 3] /\
    port st' = "" /\ logged_in st' = false.
Proof. eexists. split; [vm_compute; reflexivity|]. by repeat split. Qed.

Example account_login_default_stores_port :
  exists st',
    account_login_default (failing_browser 0) initial_handler = Some (Returns true, st') /\
    port st' = "8443" /\ logged_in st' = true.
Proof. eexists. split; [vm_compute; reflexivity|]. by split. Qed.

(** An exception inside the body is turned into [False]. *)
Example account_login_default_catches :
  exists st',
    account_login_default
      {| login_obs := fun _ => LoginRaises WebDriverError;
         booking_obs := fun _ => PageOpened |} initial_handler
    = Some (Returns false, st') /\
    events st' = [EvLoginAttempt 1].
Proof. eexists. split; [vm_compute; reflexivity|]. done. Qed.

(** ** The call-depth guard *)

Lemma check_call_depth_below (w : browser) (d : Z) (st : handler_state) :
  (d <= 4)%Z -> check_call_depth w d st = Some (Returns true, st).
Proof.
  intros Hd. unfold check_call_depth.
  by destruct (Z.gtb_spec d 4); [lia|].
Qed.

(** Above the ceiling the guard logs out once, logs in again and answers
    [False]; the page script is not advanced. *)
Lemma check_call_depth_above (w : browser) (d : Z) (st : handler_state) :
  (d > 4)%Z ->
  exists st',
    check_call_depth w d st = Some (Returns false, st') /\
    page_clock st' = page_clock st /\
    count_logouts (events st') = S (count_logouts (events st)) /\
    (Forall depth_in_range (events st) -> Forall depth_in_range (events st')).
Proof.
  intros Hd. unfold check_call_depth, account_login_default, account_login.
  destruct (Z.gtb_spec d 4); [|lia].
  destruct (account_login_rec_returns (S (Z.to_nat (3 - 1))) w 3 1
              (account_logout st)) as (b & st' & -> & Hpost); [lia|].
  exists st'. split; [done|].
  destruct Hpost as (Hp & Hc & Hrange & _).
  simpl in *. rewrite count_logouts_app in Hc.
  unfold count_logouts in Hc at 3. simpl in Hc.
  split_and!; [done|lia|].
  intros Hst. apply Hrange, Forall_app. split; [done|]. by repeat constructor.
Qed.

(** After the guard has fired, the page is opened exactly as by a call at
    depth 0. *)
Lemma open_page_depth_reset (fuel : nat) (w : browser) (field_type : string)
    (d : Z) (st st' : handler_state) :
  (d > 4)%Z ->
  check_call_depth w d st = Some (Returns false, st') ->
  open_practical_lessons_booking_page fuel w field_type d st =
  open_practical_lessons_booking_page fuel w field_type 0 st'.
Proof.
  intros Hd Hcheck. destruct fuel as [|fuel]; [done|]. simpl.
  rewrite Hcheck. reflexivity.
Qed.

Lemma relogins_step (d : Z) (n : nat) :
  (0 <= d <= 5)%Z ->
  (if (d >? 4)%Z then 1 else 0) +
    (Z.to_nat ((if (d >? 4)%Z then 0 else d) + 1) + n) / 5 =
  (Z.to_nat d + S n) / 5.
Proof.
  intros Hd. destruct (Z.gtb_spec d 4).
  - assert (d = 5%Z) as -> by lia.
    change (Z.to_nat 5) with 5. change (Z.to_nat (0 + 1)) with 1.
    replace (5 + S n) with (1 * 5 + (1 + n)) by lia.
    by rewrite Nat.div_add_l.
  - rewrite Nat.add_0_l. f_equal. lia.
Qed.

(** [N] failed CAPTCHAs followed by an attempt that does not ask for a
    retry, starting at depth [d]: the call nests [N + 1] deep, returns what
    the last attempt gives, and the guard fires [(d + N) / 5] times. *)
Lemma open_page_after_failures (w : browser) (field_type : string) (N : nat) :
  forall (fuel : nat) (d : Z) (st : handler_state) (final : page_observation),
    (0 <= d <= 5)%Z ->
    (forall k, k < N -> booking_obs w (page_clock st + k) = NormalCaptchaFailed) ->
    booking_obs w (page_clock st + N) = final ->
    final <> NormalCaptchaFailed ->
    N < fuel ->
    exists st',
      open_practical_lessons_booking_page fuel w field_type d st =
        Some (page_result final, st') /\
      page_clock st' = page_clock st + N + 1 /\
      count_logouts (events st') =
        count_logouts (events st) + (Z.to_nat d + N) / 5 /\
      (Forall depth_in_range (events st) -> Forall depth_in_range (events st')).
Proof.
  induction N as [|N IH]; intros fuel d st final Hd Hfail Hfinal Hne Hfuel;
    (destruct fuel as [|fuel]; [lia|]);
    cbn [open_practical_lessons_booking_page].
  - (* the first attempt is the last *)
    assert (Hcheck : exists ok st1,
      check_call_depth w d st = Some (Returns ok, st1) /\
      page_clock st1 = page_clock st /\
      count_logouts (events st1) =
        count_logouts (events st) + (Z.to_nat d + 0) / 5 /\
      (0 <= (if negb ok then 0 else d) <= 4)%Z /\
      (Forall depth_in_range (events st) -> Forall depth_in_range (events st1))).
    { destruct (Z_gt_le_dec d 4) as [Hgt|Hle].
      - destruct (check_call_depth_above w d st Hgt) as (st1 & -> & Hp & Hc & Hr).
        exists false, st1. assert (d = 5%Z) as -> by lia.
        split_and!; try done; simpl; lia.
      - rewrite check_call_depth_below by done. exists true, st.
        split_and!; try done; try (simpl; lia).
        all: rewrite Nat.div_small by lia; lia. }
    destruct Hcheck as (ok & st1 & -> & Hp & Hc & Hdepth & Hr).
    rewrite Hp. rewrite Nat.add_0_r in Hfinal. rewrite Hfinal.
    exists (begin_page_open st1 (if negb ok then 0%Z else d)).
    split; [by destruct final|].
    unfold begin_page_open. cbn [page_clock events].
    rewrite count_logouts_app.
    split_and!; [lia|unfold count_logouts at 2; cbn [List.filter is_logout length]; lia|].
    intros Hst. apply Forall_app. split; [by apply Hr|].
    constructor; [exact Hdepth|constructor].
  - (* one failure, then [N] more *)
    assert (Hcheck : exists ok st1,
      check_call_depth w d st = Some (Returns ok, st1) /\
      page_clock st1 = page_clock st /\
      count_logouts (events st1) =
        count_logouts (events st) + (if (d >? 4)%Z then 1 else 0) /\
      (if negb ok then 0%Z else d) = (if (d >? 4)%Z then 0%Z else d) /\
      (Forall depth_in_range (events st) -> Forall depth_in_range (events st1))).
    { destruct (Z.gtb_spec d 4) as [Hgt|Hle].
      - destruct (check_call_depth_above w d st) as (st1 & -> & Hp & Hc & Hr);
          [lia|].
        exists false, st1. split_and!; [done|done|lia|done|done].
      - rewrite check_call_depth_below by done. exists true, st.
        split_and!; [done|done|lia|done|done]. }
    destruct Hcheck as (ok & st1 & -> & Hp & Hc & Hdepth & Hr).
    rewrite Hp. rewrite <- (Nat.add_0_r (page_clock st)).
    rewrite (Hfail 0) by lia. rewrite Hdepth.
    set (d' := if (d >? 4)%Z then 0%Z else d).
    assert (Hd' : (0 <= d' <= 4)%Z).
    { unfold d'. destruct (Z.gtb_spec d 4); lia. }
    destruct (IH fuel (d' + 1)%Z (begin_page_open st1 d') final)
      as (st' & -> & Hp' & Hc' & Hr'); [lia| | |done|lia|].
    { intros k Hk. rewrite <- (Hfail (S k)) by lia. f_equal. simpl. lia. }
    { simpl. rewrite Hp. rewrite <- Hfinal. f_equal. lia. }
    exists st'. split; [done|].
    unfold begin_page_open in *. cbn [page_clock events] in *.
    rewrite count_logouts_app in Hc'. unfold count_logouts in Hc' at 3.
    cbn [List.filter is_logout length] in Hc'.
    split_and!; [lia| |].
    + rewrite Hc', Hc. rewrite <- (relogins_step d N Hd). fold d'. lia.
    + intros Hst. apply Hr', Forall_app. split; [by apply Hr|].
      constructor; [exact Hd'|constructor].
Qed.

(** The nesting really is [N + 1] deep: with less the call is still
    retrying. *)
Lemma open_page_needs_depth (w : browser) (field_type : string) (N : nat) :
  forall (fuel : nat) (d : Z) (st : handler_state),
    (forall k, k < N -> booking_obs w (page_clock st + k) = NormalCaptchaFailed) ->
    fuel <= N ->
    open_practical_lessons_booking_page fuel w field_type d st = None.
Proof.
  induction N as [|N IH]; intros fuel d st Hfail Hfuel;
    (destruct fuel as [|fuel]; [done|]); [lia|]. simpl.
  destruct (check_call_depth w d st) as [[[ok|e] st1]|] eqn:Hcheck; [| |done].
  - assert (Hp : page_clock st1 = page_clock st).
    { destruct (Z_gt_le_dec d 4) as [Hgt|Hle].
      - destruct (check_call_depth_above w d st Hgt) as (st2 & Hc2 & Hp & _).
        congruence.
      - rewrite check_call_depth_below in Hcheck by done. congruence. }
    rewrite Hp. rewrite <- (Nat.add_0_r (page_clock st)).
    rewrite (Hfail 0) by lia. apply IH; [|lia].
    intros k Hk. rewrite <- (Hfail (S k)) by lia. f_equal. simpl. lia.
  - exfalso. destruct (Z_gt_le_dec d 4) as [Hgt|Hle].
    + destruct (check_call_depth_above w d st Hgt) as (st2 & Hc2 & _).
      congruence.
    + rewrite check_call_depth_below in Hcheck by done. congruence.
Qed.

(** C4, as the code has it: after [N] consecutive failures the guard has
    forced [N / 5] logout-and-login rounds (exactly one when [5 <= N <= 9]),
    each of them followed by an opening at depth 0 so that no page is opened
    at a depth above 4; the call ends after [N + 1] openings of the page and
    returns what the first attempt that does not fail gives. *)
Theorem call_depth_guard (w : browser) (field_type : string) (N : nat)
    (st : handler_state) (final : page_observation) :
  (forall k, k < N -> booking_obs w (page_clock st + k) = NormalCaptchaFailed) ->
  booking_obs w (page_clock st + N) = final ->
  final <> NormalCaptchaFailed ->
  forall fuel, N < fuel ->
    exists st',
      open_practical_lessons_booking_page fuel w field_type 0 st =
        Some (page_result final, st') /\
      page_clock st' = page_clock st + N + 1 /\
      count_logouts (events st') = count_logouts (events st) + N / 5 /\
      (5 <= N <= 9 -> count_logouts (events st') = count_logouts (events st) + 1) /\
      (Forall depth_in_range (events st) -> Forall depth_in_range (events st')).
Proof.
  intros Hfail Hfinal Hne fuel Hfuel.
  destruct (open_page_after_failures w field_type N fuel 0 st final)
    as (st' & Hrun & Hp & Hc & Hr); [lia|done|done|done|done|].
  exists st'. change (Z.to_nat 0 + N) with N in Hc.
  split_and!; [done|done|done| |done].
  intros HN. rewrite Hc. f_equal.
  assert (N / 5 < 2) by (apply Nat.Div0.div_lt_upper_bound; lia).
  assert (1 <= N / 5) by (apply Nat.div_le_lower_bound; lia).
  lia.
Qed.

Lemma call_depth_guard_witness :
  exists st',
    open_practical_lessons_booking_page 6 (failing_browser 5) "practical" 0
      initial_handler = Some (Returns true, st') /\
    page_clock st' = 6 /\
    count_logouts (events st') = 1.
Proof.
  destruct (call_depth_guard (failing_browser 5) "practical" 5 initial_handler
              PageOpened) with (fuel := 6) as (st' & Hopen & Hp & Hc & _).
  - intros k Hk. simpl.
    destruct k as [|[|[|[|[|k]]]]]; try reflexivity. lia.
  - reflexivity.
  - discriminate.
  - lia.
  - exists st'. split_and!; [exact Hopen|exact Hp|exact Hc].
Defined.

(** C4 as stated fails: ten consecutive failures make the guard fire twice,
    not once. *)
Lemma call_depth_guard_counterexample :
  (forall k, k < 10 -> booking_obs (failing_browser 10) k = NormalCaptchaFailed) /\
  exists st',
    open_practical_lessons_booking_page 11 (failing_browser 10) "practical" 0
      initial_handler = Some (Returns true, st') /\
    count_logouts (events st') = 2 /\
    List.filter (fun e => negb match e with EvLoginAttempt _ => true | _ => false end)
                (events st') =
      [EvOpenBookingPL 0; EvOpenBookingPL 1; EvOpenBookingPL 2;
       EvOpenBookingPL 3; EvOpenBookingPL 4;
       EvLogout; EvOpenBookingPL 0; EvOpenBookingPL 1; EvOpenBookingPL 2;
       EvOpenBookingPL 3; EvOpenBookingPL 4;
       EvLogout; EvOpenBookingPL 0].
Proof.
  split.
  - intros k Hk. simpl. destruct (Nat.ltb_spec k 10); [done|lia].
  - eexists. split; [vm_compute; reflexivity|]. split; reflexivity.
Qed.

(** A page that never stops failing keeps the call retrying at every
    nesting depth: the guard does not end the recursion. *)
Lemma open_page_unbounded (field_type : string) (fuel : nat) :
  open_practical_lessons_booking_page fuel
    {| login_obs := login_ok; booking_obs := fun _ => NormalCaptchaFailed |}
    field_type 0 initial_handler = None.
Proof. by apply (open_page_needs_depth _ field_type fuel). Qed.

(** ** The stable sort *)

Section stable_sort_facts.
Context {A : Type} (key : A -> N).

Lemma insert_by_perm (x : A) (l : list A) :
  Permutation (insert_by key x l) (x :: l).
Proof.
  induction l as [|y l IH]; simpl; [done|].
  destruct (key x <=? key y)%N; [done|].
  rewrite IH. apply perm_swap.
Qed.

Lemma stable_sort_by_perm (l : list A) : Permutation (stable_sort_by key l) l.
Proof.
  induction l as [|x l IH]; simpl; [done|].
  by rewrite insert_by_perm, IH.
Qed.

Lemma stable_sort_by_length (l : list A) :
  length (stable_sort_by key l) = length l.
Proof. apply Permutation_length, stable_sort_by_perm. Qed.

Lemma insert_by_sorted (x : A) (l : list A) :
  sorted_by key l -> sorted_by key (insert_by key x l).
Proof.
  induction l as [|y l IH]; intros Hs; simpl.
  - repeat constructor.
  - apply StronglySorted_inv in Hs as [Hl Hy].
    destruct (N.leb_spec (key x) (key y)) as [Hxy|Hyx].
    + constructor; [by constructor|].
      constructor; [done|].
      eapply Forall_impl; [exact Hy|]. simpl. intros z Hz. lia.
    + constructor; [by apply IH|].
      rewrite insert_by_perm. constructor; [lia|done].
Qed.

Lemma stable_sort_by_sorted (l : list A) : sorted_by key (stable_sort_by key l).
Proof.
  induction l as [|x l IH]; simpl; [constructor|].
  by apply insert_by_sorted.
Qed.

(** An element that is not larger than the head goes to the front. *)
Lemma insert_by_front (x : A) (l : list A) :
  Forall (fun y => (key x <= key y)%N) l -> insert_by key x l = x :: l.
Proof.
  intros Hall. destruct l as [|y l]; [done|]. simpl.
  apply Forall_inv in Hall. by destruct (N.leb_spec (key x) (key y)); [|lia].
Qed.

(** Sorting a sorted list changes nothing. *)
Lemma stable_sort_by_sorted_id (l : list A) :
  sorted_by key l -> stable_sort_by key l = l.
Proof.
  induction l as [|x l IH]; intros Hs; simpl; [done|].
  apply StronglySorted_inv in Hs as [Hl Hx].
  rewrite IH by done. by apply insert_by_front.
Qed.

Lemma sorted_by_filter (p : A -> bool) (l : list A) :
  sorted_by key l -> sorted_by key (List.filter p l).
Proof.
  induction l as [|x l IH]; intros Hs; simpl; [constructor|].
  apply StronglySorted_inv in Hs as [Hl Hx].
  destruct (p x); [|by apply IH].
  constructor; [by apply IH|].
  apply List.Forall_forall. intros y [Hy _]%List.filter_In.
  by eapply List.Forall_forall in Hx.
Qed.

Lemma In_take (n : nat) (l : list A) (x : A) : In x (take n l) -> In x l.
Proof.
  intros Hx. rewrite <- (take_drop n l). apply in_or_app. by left.
Qed.

Lemma In_drop (n : nat) (l : list A) (x : A) : In x (drop n l) -> In x l.
Proof.
  intros Hx. rewrite <- (take_drop n l). apply in_or_app. by right.
Qed.

Lemma sorted_by_take (n : nat) (l : list A) :
  sorted_by key l -> sorted_by key (take n l).
Proof.
  revert n. induction l as [|x l IH]; intros n Hs; destruct n; simpl;
    try constructor.
  - apply IH. by apply StronglySorted_inv in Hs as [Hl _].
  - apply StronglySorted_inv in Hs as [_ Hx].
    apply List.Forall_forall. intros y Hy.
    eapply List.Forall_forall in Hx; [exact Hx|].
    by eapply In_take.
Qed.

(** In a sorted list the elements of a prefix are not larger than those of
    the rest. *)
Lemma sorted_by_take_drop (n : nat) (l : list A) (x y : A) :
  sorted_by key l -> In x (take n l) -> In y (drop n l) -> (key x <= key y)%N.
Proof.
  revert n. induction l as [|z l IH]; intros n Hs Hx Hy.
  - by rewrite take_nil in Hx.
  - destruct n as [|n]; [done|]. simpl in Hx, Hy.
    apply StronglySorted_inv in Hs as [Hl Hz].
    destruct Hx as [->|Hx]; [|by eapply IH].
    eapply List.Forall_forall in Hz; [exact Hz|].
    by eapply In_drop.
Qed.

(** Filtering commutes with insertion into a sorted list ... *)
Lemma filter_insert_by (p : A -> bool) (x : A) (l : list A) :
  sorted_by key l ->
  List.filter p (insert_by key x l) =
    if p x then insert_by key x (List.filter p l) else List.filter p l.
Proof.
  induction l as [|y l IH]; intros Hs; simpl.
  - by destruct (p x).
  - apply StronglySorted_inv in Hs as [Hl Hy].
    destruct (N.leb_spec (key x) (key y)) as [Hxy|Hyx]; simpl.
    + destruct (p x) eqn:Hpx; [|done].
      symmetry. apply (insert_by_front x (List.filter p (y :: l))).
      apply List.Forall_forall. intros z [Hz _]%List.filter_In.
      destruct Hz as [<-|Hz]; [done|].
      eapply List.Forall_forall in Hy; [|exact Hz]. simpl in Hy. lia.
    + rewrite (IH Hl). destruct (p y) eqn:Hpy, (p x) eqn:Hpx; simpl; try done.
      by destruct (N.leb_spec (key x) (key y)); [lia|].
Qed.

(** ... and so with the sort: the sort keeps the order of the elements it
    does not have to move. *)
Lemma filter_stable_sort_by (p : A -> bool) (l : list A) :
  List.filter p (stable_sort_by key l) = stable_sort_by key (List.filter p l).
Proof.
  induction l as [|x l IH]; simpl; [done|].
  rewrite filter_insert_by by apply stable_sort_by_sorted.
  rewrite IH. by destruct (p x).
Qed.
End stable_sort_facts.

(** Sorting the decorated list is sorting by the key it was decorated
    with. *)
Lemma stable_sort_by_decorated {A} (key : A -> N) (l : list A) :
  List.map snd (stable_sort_by fst (List.map (fun x => (key x, x)) l)) =
  stable_sort_by key l.
Proof.
  assert (Hins : forall x l',
    insert_by fst (key x, x) (List.map (fun y => (key y, y)) l') =
    List.map (fun y => (key y, y)) (insert_by key x l')).
  { intros x l'. induction l' as [|y l' IH]; simpl; [done|].
    destruct (key x <=? key y)%N; simpl; [done|]. by rewrite IH. }
  assert (Hsort :
    stable_sort_by fst (List.map (fun x => (key x, x)) l) =
    List.map (fun x => (key x, x)) (stable_sort_by key l)).
  { induction l as [|x l IH]; simpl; [done|]. by rewrite IH, Hins. }
  rewrite Hsort, List.map_map. simpl. apply List.map_id.
Qed.

(** ** Grouping slots by date *)

Lemma filter_filter_comm {A} (p q : A -> bool) (l : list A) :
  List.filter p (List.filter q l) = List.filter q (List.filter p l).
Proof.
  induction l as [|x l IH]; simpl; [done|].
  destruct (q x) eqn:Hq, (p x) eqn:Hp; simpl; rewrite ?Hq, ?Hp, ?IH; done.
Qed.

Lemma filter_filter_same {A} (p : A -> bool) (l : list A) :
  List.filter p (List.filter p l) = List.filter p l.
Proof.
  induction l as [|x l IH]; simpl; [done|].
  destruct (p x) eqn:Hp; simpl; rewrite ?Hp, ?IH; done.
Qed.

Lemma filter_flat_map {A B} (p : B -> bool) (f : A -> list B) (l : list A) :
  List.filter p (flat_map f l) = flat_map (fun x => List.filter p (f x)) l.
Proof.
  induction l as [|x l IH]; simpl; [done|]. by rewrite List.filter_app, IH.
Qed.

Lemma filter_none {A} (p : A -> bool) (l : list A) :
  (forall x, In x l -> p x = false) -> List.filter p l = [].
Proof.
  induction l as [|x l IH]; intros Hall; simpl; [done|].
  rewrite (Hall x) by (by left). apply IH. intros y Hy. apply Hall. by right.
Qed.

Lemma filter_all {A} (p : A -> bool) (l : list A) :
  (forall x, In x l -> p x = true) -> List.filter p l = l.
Proof.
  induction l as [|x l IH]; intros Hall; simpl; [done|].
  rewrite (Hall x) by (by left). f_equal. apply IH. intros y Hy.
  apply Hall. by right.
Qed.

Lemma on_date_off_date (d : string) (l : list slot) :
  List.filter (off_date d) (List.filter (on_date d) l) = [].
Proof.
  apply filter_none. intros s [_ Hs]%List.filter_In.
  unfold on_date in Hs. unfold off_date. by rewrite Hs.
Qed.

Lemma on_date_other (d d' : string) (l : list slot) :
  d <> d' -> List.filter (on_date d) (List.filter (on_date d') l) = [].
Proof.
  intros Hne. apply filter_none. intros s [_ Hs]%List.filter_In.
  unfold on_date in *. apply String.eqb_eq in Hs as ->.
  by apply String.eqb_neq.
Qed.

Lemma on_date_absent (d : string) (l : list slot) :
  ~ In d (List.map fst l) -> List.filter (on_date d) l = [].
Proof.
  intros Hd. apply filter_none. intros s Hs. unfold on_date.
  apply String.eqb_neq. intros <-. apply Hd. by apply List.in_map.
Qed.

Lemma first_dates_In (l : list slot) (d : string) :
  In d (first_dates l) <-> In d (List.map fst l).
Proof.
  induction l as [|s l IH]; simpl; [done|].
  rewrite List.filter_In, IH. unfold other_than. split.
  - intros [?|[? _]]; auto.
  - intros [?|Hd]; [by left|].
    destruct (String.eqb_spec d s.1) as [->|Hne]; [by left|by right].
Qed.

Lemma first_dates_NoDup (l : list slot) : List.NoDup (first_dates l).
Proof.
  induction l as [|s l IH]; simpl; constructor.
  - intros [_ Hs]%List.filter_In. unfold other_than in Hs.
    by rewrite String.eqb_refl in Hs.
  - by apply List.NoDup_filter.
Qed.

(** Dropping a date from the list of first dates is taking the first dates
    of the slots of the other dates. *)
Lemma first_dates_off_date (d : string) (l : list slot) :
  List.filter (other_than d) (first_dates l) =
  first_dates (List.filter (off_date d) l).
Proof.
  induction l as [|s l IH]; simpl; [done|].
  unfold off_date at 1, other_than at 1.
  destruct (String.eqb_spec s.1 d) as [Heq|Hne]; simpl.
  - rewrite Heq, filter_filter_same. apply IH.
  - f_equal. rewrite filter_filter_comm. by rewrite IH.
Qed.

Lemma first_dates_snoc (l : list slot) (s : slot) :
  first_dates (l ++ [s]) =
  first_dates l ++
    (if existsb (String.eqb s.1) (List.map fst l) then [] else [s.1]).
Proof.
  induction l as [|a l IH]; simpl; [done|].
  rewrite IH, List.filter_app. f_equal. f_equal.
  destruct (existsb (String.eqb s.1) (List.map fst l)); simpl.
  - by rewrite orb_true_r.
  - rewrite orb_false_r. unfold other_than. by destruct (String.eqb s.1 a.1).
Qed.

Lemma existsb_eqb_In (d : string) (ds : list string) :
  existsb (String.eqb d) ds = true <-> In d ds.
Proof.
  rewrite List.existsb_exists. split.
  - intros (x & Hx & ->%String.eqb_eq). done.
  - intros Hd. exists d. split; [done|]. apply String.eqb_refl.
Qed.

Lemma dict_has_times_on (l : list slot) (ds : list string) (d : string) :
  dict_has (List.map (times_on l) ds) d = true <-> In d ds.
Proof.
  induction ds as [|a ds IH]; simpl; [done|].
  rewrite orb_true_iff, IH, String.eqb_eq. done.
Qed.

Lemma times_on_snoc_same (l : list slot) (d t : string) :
  times_on (l ++ [(d, t)]) d = (d, (times_on l d).2 ++ [t]).
Proof.
  unfold times_on. rewrite List.filter_app. simpl. unfold on_date at 2. simpl.
  rewrite String.eqb_refl. by rewrite List.map_app.
Qed.

Lemma times_on_snoc_other (l : list slot) (d d' t : string) :
  d' <> d -> times_on (l ++ [(d, t)]) d' = times_on l d'.
Proof.
  intros Hne. unfold times_on. rewrite List.filter_app. simpl.
  unfold on_date at 2. simpl.
  destruct (String.eqb_spec d d') as [->|_]; [done|]. by rewrite app_nil_r.
Qed.

Lemma times_on_snoc_others (l : list slot) (ds : list string) (d t : string) :
  ~ In d ds ->
  List.map (times_on (l ++ [(d, t)])) ds = List.map (times_on l) ds.
Proof.
  intros Hd. apply List.map_ext_in. intros d' Hd'.
  apply times_on_snoc_other. by intros ->.
Qed.

Lemma dict_append_times_on (l : list slot) (ds : list string) (d t : string) :
  List.NoDup ds -> In d ds ->
  dict_append (List.map (times_on l) ds) d t =
  List.map (times_on (l ++ [(d, t)])) ds.
Proof.
  induction ds as [|a ds IH]; intros Hnd Hin; [done|].
  apply List.NoDup_cons_iff in Hnd as [Ha Hnd]. simpl.
  destruct (String.eqb_spec a d) as [->|Hne].
  - rewrite times_on_snoc_same. f_equal. symmetry.
    by apply times_on_snoc_others.
  - rewrite times_on_snoc_other by done. f_equal.
    apply IH; [done|]. by destruct Hin.
Qed.

Lemma group_slots_snoc (l : list slot) (s : slot) :
  group_slots (l ++ [s]) = add_slot (group_slots l) s.
Proof. unfold group_slots. by rewrite foldl_app. Qed.

(** The loop builds the dates in the order of their first occurrence, each
    with its time slots in the order of the list. *)
Lemma group_slots_canonical (l : list slot) :
  group_slots l = List.map (times_on l) (first_dates l).
Proof.
  induction l as [|[d t] l IH] using rev_ind; [done|].
  rewrite group_slots_snoc, IH, first_dates_snoc. unfold add_slot. simpl.
  destruct (dict_has (List.map (times_on l) (first_dates l)) d) eqn:Hhas; simpl.
  - apply dict_has_times_on in Hhas.
    assert (existsb (String.eqb d) (List.map fst l) = true) as ->.
    { by apply existsb_eqb_In, first_dates_In. }
    rewrite app_nil_r.
    apply dict_append_times_on; [apply first_dates_NoDup|done].
  - assert (Hd : ~ In d (first_dates l)).
    { intros Hd. apply (dict_has_times_on l) in Hd. congruence. }
    assert (existsb (String.eqb d) (List.map fst l) = false) as ->.
    { apply not_true_iff_false. intros Hex.
      by apply existsb_eqb_In, first_dates_In in Hex. }
    rewrite List.map_app, times_on_snoc_others by done. f_equal. simpl.
    rewrite times_on_snoc_same. unfold times_on. simpl.
    rewrite on_date_absent; [done|]. by rewrite <- first_dates_In.
Qed.

Lemma pair_date_times (d : string) (l : list slot) :
  List.map (pair d) (List.map snd (List.filter (on_date d) l)) =
  List.filter (on_date d) l.
Proof.
  unfold on_date. induction l as [|[d' t] l IH]; simpl; [done|].
  destruct (String.eqb_spec d' d) as [->|_]; simpl; by rewrite ?IH.
Qed.

(** The result is a dictionary: no date occurs twice among its keys. *)
Lemma group_slots_keys (l : list slot) :
  List.map fst (group_slots l) = first_dates l /\
  List.NoDup (List.map fst (group_slots l)).
Proof.
  assert (Hkeys : List.map fst (group_slots l) = first_dates l).
  { rewrite group_slots_canonical, List.map_map. simpl. apply List.map_id. }
  split; [done|]. rewrite Hkeys. apply first_dates_NoDup.
Qed.

(** Flattening the result gives the slots date by date. *)
Lemma flatten_group_slots (l : list slot) :
  flatten_sessions (group_slots l) = regroup l.
Proof.
  rewrite group_slots_canonical. unfold flatten_sessions, regroup.
  generalize (first_dates l) as ds. intros ds.
  induction ds as [|d ds IH]; simpl; [done|].
  by rewrite pair_date_times, IH.
Qed.

(** Induction on a list of slots that takes away a whole date at a time. *)
Lemma slots_date_ind (P : list slot -> Prop) :
  P [] ->
  (forall s l, P (List.filter (off_date s.1) l) -> P (s :: l)) ->
  forall l, P l.
Proof.
  intros Hnil Hcons l. remember (length l) as n eqn:Hn.
  revert l Hn. induction n as [n IH] using lt_wf_ind. intros l ->.
  destruct l as [|s l]; [done|]. apply Hcons.
  apply (IH (length (List.filter (off_date s.1) l))); [|done].
  simpl. pose proof (List.filter_length_le (off_date s.1) l). lia.
Qed.

Lemma filter_on_off_other (d d' : string) (l : list slot) :
  d <> d' ->
  List.filter (on_date d) (List.filter (off_date d') l) = List.filter (on_date d) l.
Proof.
  intros Hne. rewrite filter_filter_comm. apply filter_all.
  intros s [_ Hs]%List.filter_In. unfold on_date in Hs. unfold off_date.
  apply String.eqb_eq in Hs as ->. apply negb_true_iff. by apply String.eqb_neq.
Qed.

Lemma flat_map_ext_In {A B} (f g : A -> list B) (l : list A) :
  (forall x, In x l -> f x = g x) -> flat_map f l = flat_map g l.
Proof.
  induction l as [|x l IH]; intros Hfg; simpl; [done|].
  rewrite (Hfg x) by (by left). f_equal. apply IH. intros y Hy.
  apply Hfg. by right.
Qed.

Lemma filter_partition_perm {A} (p q : A -> bool) (l : list A) :
  (forall x, q x = negb (p x)) ->
  Permutation (List.filter p l ++ List.filter q l) l.
Proof.
  intros Hq. induction l as [|x l IH]; simpl; [done|].
  rewrite Hq. destruct (p x); simpl.
  - by apply perm_skip.
  - rewrite <- Permutation_middle. by apply perm_skip.
Qed.

(** The slots of the first date come first, then the other dates. *)
Lemma regroup_cons (s : slot) (l : list slot) :
  regroup (s :: l) =
  s :: List.filter (on_date s.1) l ++ regroup (List.filter (off_date s.1) l).
Proof.
  unfold regroup. simpl. unfold on_date at 1. rewrite String.eqb_refl. simpl.
  f_equal. f_equal. rewrite first_dates_off_date.
  apply flat_map_ext_In. intros d Hd.
  apply first_dates_In, List.in_map_iff in Hd as (s' & <- & Hs').
  apply List.filter_In in Hs' as [_ Hoff]. unfold off_date in Hoff.
  apply negb_true_iff, String.eqb_neq in Hoff.
  unfold on_date at 1. destruct (String.eqb_spec s.1 s'.1) as [Heq|_].
  { by rewrite Heq in Hoff. }
  symmetry. by apply filter_on_off_other.
Qed.

Lemma regroup_perm (l : list slot) : Permutation (regroup l) l.
Proof.
  induction l as [|s l IH] using slots_date_ind; [done|].
  rewrite regroup_cons, IH. apply perm_skip.
  apply filter_partition_perm. done.
Qed.

Lemma regroup_length (l : list slot) : length (regroup l) = length l.
Proof. apply Permutation_length, regroup_perm. Qed.

Lemma regroup_In (l : list slot) (s : slot) : In s (regroup l) <-> In s l.
Proof.
  split; apply Permutation_in; [|symmetry]; apply regroup_perm.
Qed.

(** Regrouping keeps the slots of every date in their order. *)
Lemma filter_on_date_regroup (d : string) (l : list slot) :
  List.filter (on_date d) (regroup l) = List.filter (on_date d) l.
Proof.
  induction l as [|s l IH] using slots_date_ind; [done|].
  rewrite regroup_cons. cbn [List.filter]. rewrite List.filter_app, IH.
  destruct (on_date d s) eqn:Hds; unfold on_date in Hds.
  - apply String.eqb_eq in Hds as <-. f_equal.
    rewrite filter_filter_same.
    rewrite filter_filter_comm, on_date_off_date. apply app_nil_r.
  - apply String.eqb_neq in Hds.
    rewrite on_date_other by (by intros ->). simpl.
    apply filter_on_off_other. by intros ->.
Qed.

Lemma filter_off_date_regroup (d : string) (l : list slot) :
  List.filter (off_date d) (regroup (List.filter (off_date d) l)) =
  regroup (List.filter (off_date d) l).
Proof.
  apply filter_all. intros s Hs. rewrite regroup_In in Hs.
  by apply List.filter_In in Hs as [_ Hs].
Qed.

Section earliest_facts.
Context (key : slot -> N).

(** Sorting the regrouped slots of a sorted list leaves the dates in the
    order of their first occurrence ... *)
Lemma first_dates_sort_regroup (l : list slot) :
  sorted_by key l ->
  first_dates (stable_sort_by key (regroup l)) = first_dates l.
Proof.
  induction l as [|s l IH] using slots_date_ind; intros Hs; [done|].
  apply StronglySorted_inv in Hs as [Hl Hmin].
  rewrite regroup_cons. simpl.
  set (Q := List.filter (on_date s.1) l ++ regroup (List.filter (off_date s.1) l)).
  assert (HQ : Permutation Q l).
  { unfold Q. rewrite regroup_perm. by apply filter_partition_perm. }
  rewrite insert_by_front.
  2:{ apply List.Forall_forall. intros y Hy.
      eapply List.Forall_forall in Hmin; [exact Hmin|].
      eapply Permutation_in; [exact HQ|].
      eapply Permutation_in; [apply stable_sort_by_perm|exact Hy]. }
  simpl. f_equal.
  rewrite !first_dates_off_date, filter_stable_sort_by. unfold Q.
  rewrite List.filter_app, on_date_off_date, filter_off_date_regroup. simpl.
  apply IH. by apply sorted_by_filter.
Qed.

(** ... and every date with its slots in the same order: the result of the
    loop is the same. *)
Lemma group_slots_sort_regroup (l : list slot) :
  sorted_by key l ->
  group_slots (stable_sort_by key (regroup l)) = group_slots l.
Proof.
  intros Hs. rewrite !group_slots_canonical, first_dates_sort_regroup by done.
  apply List.map_ext. intros d. unfold times_on. f_equal. f_equal.
  rewrite filter_stable_sort_by, filter_on_date_regroup.
  apply stable_sort_by_sorted_id. by apply sorted_by_filter.
Qed.
End earliest_facts.

(** ** Dates and times *)

(** On well-formed datetimes the numeric key orders as the field-by-field
    comparison does. *)
Lemma datetime_key_lt (a b : datetime) :
  datetime_in_range a -> datetime_in_range b ->
  (datetime_key a < datetime_key b)%N <-> datetime_lt a b.
Proof.
  unfold datetime_in_range, datetime_key, datetime_lt.
  destruct a as [ya ma da ha mia], b as [yb mb db hb mib]. simpl. lia.
Qed.

Lemma digit_value_bound (c : ascii) (v : N) :
  digit_value c = Some v -> (v <= 9)%N.
Proof.
  unfold digit_value, is_digit. destruct (Nat.leb_spec 48 (nat_of_ascii c)); [|done].
  destruct (Nat.leb_spec (nat_of_ascii c) 57); [|done]. simpl.
  intros [= <-]. unfold nat_of_ascii in *. lia.
Qed.

Lemma parse_day_bound (s : string) (d : N) : parse_day s = Some d -> (d < 32)%N.
Proof.
  unfold parse_day. intros H. repeat case_match; simplify_eq;
    repeat match goal with
           | H : digit_value _ = Some _ |- _ => apply digit_value_bound in H
           | H : (_ && _) = true |- _ => apply andb_true_iff in H as [? ?]
           | H : (_ <=? _)%N = true |- _ => apply N.leb_le in H
           end; lia.
Qed.

Lemma index_of_bound (x : string) (l : list string) (from m : N) :
  index_of x l from = Some m -> (m < from + N.of_nat (length l))%N.
Proof.
  revert from. induction l as [|y l IH]; intros from; simpl; [done|].
  destruct (String.eqb x y).
  - intros [= <-]. lia.
  - intros H. apply IH in H. lia.
Qed.

Lemma parse_month_bound (s : string) (m : N) :
  parse_month s = Some m -> (m < 13)%N.
Proof. intros H. apply index_of_bound in H. simpl in H. lia. Qed.

Lemma parse_hour_bound (s : string) (h : N) : parse_hour s = Some h -> (h < 24)%N.
Proof.
  unfold parse_hour. intros H. repeat case_match; simplify_eq;
    repeat match goal with
           | H : digit_value _ = Some _ |- _ => apply digit_value_bound in H
           | H : (_ <=? _)%N = true |- _ => apply N.leb_le in H
           end; lia.
Qed.

Lemma parse_minute_bound (s : string) (m : N) :
  parse_minute s = Some m -> (m < 60)%N.
Proof.
  unfold parse_minute. intros H. repeat case_match; simplify_eq;
    repeat match goal with
           | H : digit_value _ = Some _ |- _ => apply digit_value_bound in H
           | H : (_ <=? _)%N = true |- _ => apply N.leb_le in H
           end; lia.
Qed.

Lemma parse_date_prefix_bound (s rest : string) (d m y : N) :
  parse_date_prefix s = Some (d, m, y, rest) -> (d < 32 /\ m < 13)%N.
Proof.
  unfold parse_date_prefix. intros H. repeat case_match; simplify_eq.
  split; [by eapply parse_day_bound|by eapply parse_month_bound].
Qed.

(** What [convert_to_datetime] returns is well formed. *)
Lemma sort_key_in_range (s : slot) (dt : datetime) :
  sort_key s = Returns dt -> datetime_in_range dt.
Proof.
  unfold sort_key, convert_to_datetime, strptime_datetime, strptime_date,
    parse_time_suffix, datetime_in_range.
  intros H. repeat case_match; simplify_eq; simpl;
    repeat match goal with
           | H : parse_date_prefix _ = Some _ |- _ =>
               apply parse_date_prefix_bound in H as [? ?]
           | H : parse_hour _ = Some _ |- _ => apply parse_hour_bound in H
           | H : parse_minute _ = Some _ |- _ => apply parse_minute_bound in H
           end; lia.
Qed.

(** So [chron_le] is "not later than" in the order of [datetime]. *)
Lemma chron_le_not_later (a b : slot) :
  chron_le a b <->
  exists da db,
    sort_key a = Returns da /\ sort_key b = Returns db /\ ~ datetime_lt db da.
Proof.
  unfold chron_le. split; intros (da & db & Ha & Hb & Hle); exists da, db;
    (split; [done|split; [done|]]);
    pose proof (sort_key_in_range a da Ha);
    pose proof (sort_key_in_range b db Hb).
  - rewrite <- datetime_key_lt by done. lia.
  - rewrite <- datetime_key_lt in Hle by done. lia.
Qed.

(** ** [get_earliest_time_slots] *)

(** The key function raises nothing but [ValueError]. *)
Lemma sort_key_raises (s : slot) (e : exn) :
  sort_key s = Raises e -> e = ValueError.
Proof.
  unfold sort_key, convert_to_datetime, strptime_datetime, strptime_date.
  intros H. repeat case_match; congruence.
Qed.

Lemma not_parses_raises (s : slot) :
  ~ parses s <-> sort_key s = Raises ValueError.
Proof.
  unfold parses. split.
  - intros Hn. destruct (sort_key s) as [dt|e] eqn:Hk.
    + exfalso. apply Hn. by exists dt.
    + by rewrite (sort_key_raises s e Hk).
  - intros Hr [dt Hdt]. congruence.
Qed.

Lemma slot_key_parses (s : slot) (dt : datetime) :
  sort_key s = Returns dt -> slot_key s = datetime_key dt.
Proof. intros Hs. unfold slot_key. by rewrite Hs. Qed.

Lemma decorate_parses (l : list slot) :
  Forall parses l ->
  decorate sort_key l = Returns (List.map (fun s => (slot_key s, s)) l).
Proof.
  induction 1 as [|s l [dt Hs] _ IH]; simpl; [done|].
  rewrite Hs, IH. simpl. by rewrite (slot_key_parses s dt Hs).
Qed.

Lemma decorate_raises (l : list slot) :
  Exists (fun s => ~ parses s) l -> decorate sort_key l = Raises ValueError.
Proof.
  induction l as [|s l IH]; intros Hex; [by apply Exists_nil in Hex|].
  simpl. destruct (sort_key s) as [dt|e] eqn:Hs; simpl.
  - rewrite IH; [done|]. apply Exists_cons in Hex as [Hn|Hex]; [|done].
    exfalso. apply Hn. by exists dt.
  - by rewrite (sort_key_raises s e Hs).
Qed.

Lemma sort_with_key_parses (l : list slot) :
  Forall parses l ->
  sort_with_key sort_key l = Returns (stable_sort_by slot_key l).
Proof.
  intros Hl. unfold sort_with_key. rewrite decorate_parses by done. simpl.
  by rewrite stable_sort_by_decorated.
Qed.

Lemma py_range_step_1 (stop : nat) :
  py_range 0 (Z.of_nat stop) step = List.map Z.of_nat (seq 0 stop).
Proof.
  unfold py_range, step.
  replace ((Z.of_nat stop - 0 + 1 - 1) / 1)%Z with (Z.of_nat stop)
    by (rewrite Z.div_1_r; lia).
  rewrite Nat2Z.id. apply List.map_ext. intros k. lia.
Qed.

(** The loop over the indices adds the first [m] slots one after the
    other. *)
Lemma select_loop (sorted_datetimes : list slot) (m : nat) (acc : sessions) :
  m <= length sorted_datetimes ->
  foldl (fun return_sessions_data i =>
           match sorted_datetimes !! Z.to_nat i with
           | Some selected => add_slot return_sessions_data selected
           | None => return_sessions_data
           end)
        acc (List.map Z.of_nat (seq 0 m)) =
  foldl add_slot acc (take m sorted_datetimes).
Proof.
  induction m as [|m IH]; intros Hm; [done|].
  rewrite seq_S, List.map_app, foldl_app, IH by lia. simpl.
  rewrite Nat2Z.id.
  destruct (lookup_lt_is_Some_2 sorted_datetimes m) as [s Hs]; [lia|].
  rewrite Hs. by rewrite (take_S_r _ _ _ Hs), foldl_app.
Qed.

Lemma get_earliest_time_slots_parses
    (sessions_data : sessions) (n : nat) (field_type : string) :
  Forall parses (flatten_sessions sessions_data) ->
  get_earliest_time_slots sessions_data (Z.of_nat n) field_type =
  Returns (group_slots
             (take n (stable_sort_by slot_key (flatten_sessions sessions_data)))).
Proof.
  intros Hp. unfold get_earliest_time_slots.
  rewrite sort_with_key_parses by done. simpl. f_equal.
  set (sorted := stable_sort_by slot_key (flatten_sessions sessions_data)).
  replace (Z.min (Z.of_nat n * step) (Z.of_nat (length sorted)))
    with (Z.of_nat (Nat.min n (length sorted))) by (unfold step; lia).
  rewrite py_range_step_1, select_loop by lia.
  unfold group_slots. f_equal.
  destruct (Nat.min_spec n (length sorted)) as [[_ ->]|[Hle ->]]; [done|].
  by rewrite !take_ge by lia.
Qed.

(** C1, as the code has it: when every slot of the collection parses, the
    call returns a collection with at most [n] slots, none of them later
    than a slot it leaves out; an empty collection gives an empty one; and
    the result is a fixed point for the same or a larger [n]. *)
Theorem get_earliest_time_slots_spec
    (sessions_data : sessions) (n : nat) (field_type : string) :
  Forall parses (flatten_sessions sessions_data) ->
  exists result,
    get_earliest_time_slots sessions_data (Z.of_nat n) field_type = Returns result /\
    length (flatten_sessions result) <= n /\
    (forall s s',
       In s (flatten_sessions result) ->
       In s' (flatten_sessions sessions_data) ->
       ~ In s' (flatten_sessions result) ->
       chron_le s s') /\
    (sessions_data = [] -> result = []) /\
    (forall m field_type', n <= m ->
       get_earliest_time_slots result (Z.of_nat m) field_type' = Returns result).
Proof.
  intros Hp.
  set (sorted := stable_sort_by slot_key (flatten_sessions sessions_data)).
  exists (group_slots (take n sorted)).
  assert (Hsorted : sorted_by slot_key sorted) by apply stable_sort_by_sorted.
  assert (Hperm : Permutation sorted (flatten_sessions sessions_data))
    by apply stable_sort_by_perm.
  assert (Hin : forall s, In s (flatten_sessions (group_slots (take n sorted))) <->
                          In s (take n sorted)).
  { intros s. rewrite flatten_group_slots. apply regroup_In. }
  split_and!.
  - by apply get_earliest_time_slots_parses.
  - rewrite flatten_group_slots, regroup_length, length_take. lia.
  - intros s s' Hs Hs' Hout. rewrite Hin in Hs. rewrite Hin in Hout.
    assert (Hdrop : In s' (drop n sorted)).
    { apply (Permutation_in _ (Permutation_sym Hperm)) in Hs'.
      rewrite <- (take_drop n sorted) in Hs'.
      apply in_app_or in Hs' as [?|?]; [done|done]. }
    pose proof (sorted_by_take_drop slot_key n sorted s s' Hsorted Hs Hdrop) as Hle.
    assert (Hps : parses s).
    { eapply List.Forall_forall; [exact Hp|].
      eapply Permutation_in; [exact Hperm|]. by eapply In_take. }
    assert (Hps' : parses s').
    { eapply List.Forall_forall; [exact Hp|].
      eapply Permutation_in; [exact Hperm|]. by eapply In_drop. }
    destruct Hps as [da Hda], Hps' as [db Hdb]. exists da, db.
    rewrite (slot_key_parses s da Hda), (slot_key_parses s' db Hdb) in Hle.
    done.
  - intros ->. subst sorted. simpl. by rewrite take_nil.
  - intros m field_type' Hm.
    rewrite get_earliest_time_slots_parses.
    2:{ apply List.Forall_forall. intros s Hs. rewrite Hin in Hs.
        eapply List.Forall_forall; [exact Hp|].
        eapply Permutation_in; [exact Hperm|]. by eapply In_take. }
    f_equal. rewrite flatten_group_slots.
    rewrite take_ge.
    2:{ rewrite stable_sort_by_length, regroup_length, length_take. lia. }
    apply group_slots_sort_regroup. by apply sorted_by_take.
Qed.

Lemma may_sessions_parse : Forall parses (flatten_sessions may_sessions).
Proof. repeat constructor; eexists; vm_compute; reflexivity. Qed.

Lemma get_earliest_time_slots_spec_witness :
  exists result,
    get_earliest_time_slots may_sessions (Z.of_nat 3) "practical" = Returns result /\
    length (flatten_sessions result) <= 3 /\
    (forall s s',
       In s (flatten_sessions result) ->
       In s' (flatten_sessions may_sessions) ->
       ~ In s' (flatten_sessions result) ->
       chron_le s s') /\
    (may_sessions = [] -> result = []) /\
    (forall m field_type', 3 <= m ->
       get_earliest_time_slots result (Z.of_nat m) field_type' = Returns result).
Proof.
  apply (get_earliest_time_slots_spec may_sessions 3 "practical").
  repeat constructor; eexists; vm_compute; reflexivity.
Defined.

(** The three earliest of the five sample slots, regrouped by date. *)
Example get_earliest_time_slots_may :
  get_earliest_time_slots may_sessions 3 "practical" =
  Returns [ ("12/May/2025", ["15:00 - 16:40"]);
            ("13/May/2025", ["08:00 - 09:40"; "13:00 - 14:40"]) ].
Proof. vm_compute. reflexivity. Qed.

(** The result compared with a cached copy that lists the same slots in
    another order: [check_if_same_sessions] finds no difference. *)
Example earliest_same_as_cached :
  check_if_same_sessions
    (sessions_as_map
       [ ("12/May/2025", ["15:00 - 16:40"]);
         ("13/May/2025", ["08:00 - 09:40"; "13:00 - 14:40"]) ])
    (sessions_as_map
       [ ("13/May/2025", ["13:00 - 14:40"; "08:00 - 09:40"]);
         ("12/May/2025", ["15:00 - 16:40"]) ])
  = false.
Proof. vm_compute. reflexivity. Qed.

(** C1 as stated fails: a time range written as in the specification's
    scenarios does not parse, and the call raises instead of returning a
    collection. *)
Lemma get_earliest_time_slots_counterexample :
  get_earliest_time_slots [("12/May/2025", ["09:00-10:00"; "11:00-12:00"])] 1
    "practical" = Raises ValueError /\
  ~ exists result,
      get_earliest_time_slots [("12/May/2025", ["09:00-10:00"; "11:00-12:00"])] 1
        "practical" = Returns result.
Proof.
  split; [vm_compute; reflexivity|]. intros [result H].
  vm_compute in H. discriminate.
Qed.

(** C6, as the code has it: one slot that does not parse makes the call
    raise [ValueError], whatever the number of slots asked for. *)
Theorem get_earliest_time_slots_unparsed
    (sessions_data : sessions) (length : Z) (field_type : string) :
  Exists (fun s => ~ parses s) (flatten_sessions sessions_data) ->
  get_earliest_time_slots sessions_data length field_type = Raises ValueError.
Proof.
  intros Hex. unfold get_earliest_time_slots, sort_with_key.
  by rewrite decorate_raises.
Qed.

Lemma get_earliest_time_slots_unparsed_witness :
  get_earliest_time_slots numeric_month_sessions 0 "practical" = Raises ValueError.
Proof.
  apply get_earliest_time_slots_unparsed.
  apply Exists_cons_tl, Exists_cons_hd.
  intros [dt Hdt]. vm_compute in Hdt. discriminate.
Defined.

(** C6 as stated fails: the collection below has a slot that parses and two
    that do not; the call does not return the one that parses, it raises. *)
Lemma get_earliest_time_slots_unparsed_counterexample :
  parses ("12/May/2025", "09:00 - 10:40") /\
  ~ parses ("12/05/2025", "09:00-10:00") /\
  get_earliest_time_slots numeric_month_sessions 3 "practical" = Raises ValueError /\
  get_earliest_time_slots numeric_month_sessions 3 "practical" <>
    Returns [("12/May/2025", ["09:00 - 10:40"])].
Proof.
  split_and!.
  - eexists. vm_compute. reflexivity.
  - intros [dt Hdt]. vm_compute in Hdt. discriminate.
  - vm_compute. reflexivity.
  - vm_compute. discriminate.
Qed.

(* ===================================================================== *)
(** * Part III: further properties of the code                            *)
(* ===================================================================== *)

(** ** [CDCAbstract]: attribute access, initialisation and resets *)

Lemma string_app_inj_r (a a' s : string) : a +:+ s = a' +:+ s -> a = a'.
Proof.
  intros Heq. assert (Hlen := f_equal String.length Heq).
  rewrite !string_length_app in Hlen.
  assert (Hl : String.length a = String.length a') by lia. clear Hlen.
  revert a' Heq Hl. induction a as [|c a IH]; intros [|c' a'] Heq Hl;
    try done. simpl in *. injection Heq as -> Heq. f_equal. apply IH; [done|lia].
Qed.

Lemma fieldtype_attr_inj (a a' field_type : string) :
  fieldtype_attr a field_type = fieldtype_attr a' field_type -> a = a'.
Proof. unfold fieldtype_attr. apply string_app_inj_r. Qed.

(** X1: what [set_attribute_with_fieldtype] stores is what
    [get_attribute_with_fieldtype] reads back, and no other attribute of the
    same field type changes. *)
Theorem attribute_with_fieldtype_round_trip
    (attribute field_type : string) (v : value) (self : instance) :
  get_attribute_with_fieldtype attribute field_type
    (set_attribute_with_fieldtype attribute field_type v self) = Some v /\
  forall other,
    other <> attribute ->
    get_attribute_with_fieldtype other field_type
      (set_attribute_with_fieldtype attribute field_type v self) =
    get_attribute_with_fieldtype other field_type self.
Proof.
  unfold get_attribute_with_fieldtype, set_attribute_with_fieldtype,
    getattr, setattr. split.
  - apply lookup_insert_eq.
  - intros other Hne. apply lookup_insert_ne.
    intros Heq. apply Hne. symmetry. by eapply fieldtype_attr_inj.
Qed.

Lemma attribute_with_fieldtype_round_trip_witness :
  "lesson_name" <> "booked_sessions" /\
  get_attribute_with_fieldtype "lesson_name" "pt"
    (set_attribute_with_fieldtype "booked_sessions" "pt" (VDict [])
       (init_attributes ∅)) =
  get_attribute_with_fieldtype "lesson_name" "pt" (init_attributes ∅).
Proof.
  assert (H : "lesson_name" <> "booked_sessions") by discriminate.
  split; [exact H|].
  exact (proj2 (attribute_with_fieldtype_round_trip
                  "booked_sessions" "pt" (VDict []) (init_attributes ∅))
               "lesson_name" H).
Defined.

(** A reset writes a fixed set of attributes: it is the union of what it
    writes with the object it started from. *)
Lemma reset_templates_as_union (field_type : string) (self : instance) :
  foldl (reset_template field_type) self attribute_templates =
  foldl (reset_template field_type) ∅ attribute_templates ∪ self.
Proof.
  rewrite !reset_templates_unfold. cbv [foldl cleared_fields].
  unfold set_attribute_with_fieldtype, setattr. cbn [fst snd].
  rewrite <- !insert_union_l. by rewrite (left_id_L ∅ (∪)).
Qed.

Lemma reset_attributes_with_fieldtype_as_union (field_type : string) (self : instance) :
  reset_attributes_with_fieldtype field_type self =
  reset_attributes_with_fieldtype field_type ∅ ∪ self.
Proof.
  unfold reset_attributes_with_fieldtype.
  rewrite (reset_templates_as_union field_type self).
  unfold setattr.
  repeat case_bool_decide; rewrite <- ?insert_union_l; reflexivity.
Qed.

(** What the resets of the two categories write is disjoint. *)
Lemma reset_writes_disjoint (t u : Types) :
  t <> u ->
  reset_attributes_with_fieldtype (Types_value t) ∅ ##ₘ
  reset_attributes_with_fieldtype (Types_value u) ∅.
Proof.
  intros Htu. apply map_disjoint_dom.
  destruct t, u; try done; apply (bool_decide_unpack _); vm_compute; exact I.
Qed.

(** X2: resetting twice is resetting once, and the resets of the two
    categories can be done in either order. *)
Theorem reset_idempotent_commutes (t u : Types) (self : instance) :
  reset_attributes_with_fieldtype (Types_value t)
    (reset_attributes_with_fieldtype (Types_value t) self) =
  reset_attributes_with_fieldtype (Types_value t) self /\
  reset_attributes_with_fieldtype (Types_value t)
    (reset_attributes_with_fieldtype (Types_value u) self) =
  reset_attributes_with_fieldtype (Types_value u)
    (reset_attributes_with_fieldtype (Types_value t) self) /\
  reset_attributes_for_all_fieldtypes (reset_attributes_for_all_fieldtypes self) =
  reset_attributes_for_all_fieldtypes self.
Proof.
  assert (Hidem : forall t s,
    reset_attributes_with_fieldtype (Types_value t)
      (reset_attributes_with_fieldtype (Types_value t) s) =
    reset_attributes_with_fieldtype (Types_value t) s).
  { intros t' s.
    rewrite (reset_attributes_with_fieldtype_as_union _ (reset_attributes_with_fieldtype _ s)).
    rewrite (reset_attributes_with_fieldtype_as_union _ s).
    by rewrite (assoc_L (∪)), (idemp_L (∪)). }
  assert (Hcomm : forall t u s,
    reset_attributes_with_fieldtype (Types_value t)
      (reset_attributes_with_fieldtype (Types_value u) s) =
    reset_attributes_with_fieldtype (Types_value u)
      (reset_attributes_with_fieldtype (Types_value t) s)).
  { intros t' u' s.
    assert (t' = u' \/ t' <> u') as [->|Hne]
      by (destruct t', u'; auto; right; discriminate); [done|].
    rewrite (reset_attributes_with_fieldtype_as_union _ (reset_attributes_with_fieldtype (Types_value u') s)).
    rewrite (reset_attributes_with_fieldtype_as_union _ (reset_attributes_with_fieldtype (Types_value t') s)).
    rewrite (reset_attributes_with_fieldtype_as_union (Types_value u') s).
    rewrite (reset_attributes_with_fieldtype_as_union (Types_value t') s).
    rewrite !(assoc_L (∪)). f_equal.
    apply map_union_comm. by apply reset_writes_disjoint. }
  split_and!; [apply Hidem|apply Hcomm|].
  unfold reset_attributes_for_all_fieldtypes, field_types. cbn [foldl].
  rewrite (Hcomm PRACTICAL PT
             (reset_attributes_with_fieldtype (Types_value PRACTICAL) self)).
  by rewrite (Hidem PT), (Hidem PRACTICAL).
Qed.


Lemma init_attributes_as_union (self : instance) :
  init_attributes self = init_attributes ∅ ∪ self.
Proof.
  cbv [init_attributes foldl field_types attribute_templates setattr fst snd].
  rewrite <- !insert_union_l. by rewrite (left_id_L ∅ (∪)).
Qed.

Lemma reset_all_as_union (self : instance) :
  reset_attributes_for_all_fieldtypes self =
  reset_attributes_for_all_fieldtypes ∅ ∪ self.
Proof.
  unfold reset_attributes_for_all_fieldtypes, field_types. cbn [foldl].
  rewrite (reset_attributes_with_fieldtype_as_union (Types_value PT)
             (reset_attributes_with_fieldtype (Types_value PRACTICAL) self)).
  rewrite (reset_attributes_with_fieldtype_as_union (Types_value PT)
             (reset_attributes_with_fieldtype (Types_value PRACTICAL) ∅)).
  rewrite (reset_attributes_with_fieldtype_as_union (Types_value PRACTICAL) self).
  by rewrite (assoc_L (∪)).
Qed.

(** X3: [__init__] gives every template attribute of every field type its
    empty value, and the object it leaves is one that a reset of all field
    types does not change. *)
Theorem init_attributes_reset_fixed_point (self : instance) :
  (forall t a c,
     (a, c) ∈ attribute_templates ->
     get_attribute_with_fieldtype a (Types_value t) (init_attributes self) =
       Some (construct c)) /\
  reset_attributes_for_all_fieldtypes (init_attributes self) =
    init_attributes self.
Proof.
  split.
  - intros t a c Hin.
    rewrite init_attributes_as_union.
    unfold get_attribute_with_fieldtype, getattr.
    apply lookup_union_Some_l.
    assert (Hall : Forall (fun tpl : string * type_ctor =>
                     forall t, init_attributes ∅
                                 !! fieldtype_attr tpl.1 (Types_value t) =
                               Some (construct tpl.2)) attribute_templates).
    { unfold attribute_templates.
      repeat (constructor; [intros []; vm_compute; reflexivity|]).
      constructor. }
    rewrite Forall_forall in Hall. apply (Hall (a, c) Hin t).
  - rewrite reset_all_as_union, init_attributes_as_union, (assoc_L (∪)).
    assert (Hsub : reset_attributes_for_all_fieldtypes ∅ ⊆ init_attributes ∅).
    { unfold reset_attributes_for_all_fieldtypes, field_types.
      cbn [foldl Types_value].
      rewrite reset_pt_unfold, reset_practical_unfold, !reset_templates_unfold.
      cbv [foldl cleared_fields set_attribute_with_fieldtype setattr fst snd].
      repeat (apply insert_subseteq_l; [vm_compute; reflexivity|]).
      apply map_empty_subseteq. }
    by rewrite (map_subseteq_union _ _ Hsub).
Qed.

Lemma init_attributes_reset_fixed_point_witness :
  ("earlier_sessions", dict_ctor) ∈ attribute_templates /\
  get_attribute_with_fieldtype "earlier_sessions" (Types_value PT)
    (init_attributes ∅) = Some (construct dict_ctor).
Proof.
  assert (H : ("earlier_sessions", dict_ctor) ∈ attribute_templates)
    by (unfold attribute_templates; repeat constructor).
  split; [exact H|].
  exact (proj1 (init_attributes_reset_fixed_point ∅)
               PT "earlier_sessions" dict_ctor H).
Defined.


Lemma reset_templates_frame (field_type name : string) (self : instance) :
  (forall a, name <> fieldtype_attr a field_type) ->
  foldl (reset_template field_type) self attribute_templates !! name = self !! name.
Proof.
  intros Hname. generalize attribute_templates as tpls. intros tpls.
  revert self. induction tpls as [|tpl tpls IH]; intros self; simpl; [done|].
  rewrite IH. unfold reset_template. case_bool_decide; [|done].
  unfold set_attribute_with_fieldtype, setattr.
  apply lookup_insert_ne. intros Heq. by apply (Hname tpl.1).
Qed.

(** A reset touches no attribute whose name is not built from the field
    type. *)
Lemma reset_frame (t : Types) (name : string) (self : instance) :
  (forall a, name <> fieldtype_attr a (Types_value t)) ->
  reset_attributes_with_fieldtype (Types_value t) self !! name = self !! name.
Proof.
  intros Hname. destruct t; simpl Types_value.
  - rewrite reset_practical_unfold. unfold setattr.
    rewrite !lookup_insert_ne.
    + by apply (reset_templates_frame (Types_value PRACTICAL)).
    + intros Heq. by apply (Hname "can_book_next").
    + intros Heq. by apply (Hname "has_auto_reserved").
  - rewrite reset_pt_unfold. unfold setattr.
    rewrite !lookup_insert_ne.
    + by apply (reset_templates_frame (Types_value PT)).
    + intros Heq. by apply (Hname "can_book_next").
Qed.

(** X4: [reset_state] clears the notification text and the reservation
    flag, keeps [cached_earlier_sessions] of every field type, and leaves
    alone every attribute that is neither one of those two nor named after
    a field type: the port and the login status survive it. *)
Theorem reset_state_frame (self : instance) (name : string) :
  (forall a t, name <> fieldtype_attr a (Types_value t)) ->
  name <> "notification_update_msg" ->
  name <> "has_slots_reserved" ->
  getattr (reset_state self) name = getattr self name /\
  getattr (reset_state self) "notification_update_msg" = Some (VStr "") /\
  getattr (reset_state self) "has_slots_reserved" = Some (VBool false) /\
  forall t,
    get_attribute_with_fieldtype "cached_earlier_sessions" (Types_value t)
      (reset_state self) =
    get_attribute_with_fieldtype "cached_earlier_sessions" (Types_value t) self.
Proof.
  intros Hname Hmsg Hflag. unfold reset_state, getattr, setattr. split_and!.
  - rewrite !lookup_insert_ne by done.
    unfold reset_attributes_for_all_fieldtypes, field_types. cbn [foldl].
    rewrite (reset_frame PT) by (intros a; apply Hname).
    apply (reset_frame PRACTICAL). intros a. apply Hname.
  - rewrite lookup_insert_ne by done. apply lookup_insert_eq.
  - apply lookup_insert_eq.
  - intros t. unfold get_attribute_with_fieldtype, getattr.
    rewrite !lookup_insert_ne by (destruct t; vm_compute; discriminate).
    unfold reset_attributes_for_all_fieldtypes, field_types. cbn [foldl].
    destruct t.
    + pose proof (reset_other_category PT PRACTICAL
        (reset_attributes_with_fieldtype (Types_value PRACTICAL) self)
        "cached_earlier_sessions") as H1.
      unfold get_attribute_with_fieldtype, getattr in H1.
      rewrite H1 by discriminate.
      apply (reset_attributes_with_fieldtype_cached PRACTICAL).
    + pose proof (reset_attributes_with_fieldtype_cached PT
        (reset_attributes_with_fieldtype (Types_value PRACTICAL) self)) as H1.
      unfold get_attribute_with_fieldtype, getattr in H1. rewrite H1.
      pose proof (reset_other_category PRACTICAL PT self
        "cached_earlier_sessions") as H2.
      unfold get_attribute_with_fieldtype, getattr in H2.
      apply H2. discriminate.
Qed.

Lemma reset_state_frame_witness :
  let self := setattr (init_attributes ∅) "port" (VStr "8443") in
  getattr (reset_state self) "port" = getattr self "port" /\
  getattr (reset_state self) "notification_update_msg" = Some (VStr "") /\
  getattr (reset_state self) "has_slots_reserved" = Some (VBool false) /\
  forall t,
    get_attribute_with_fieldtype "cached_earlier_sessions" (Types_value t)
      (reset_state self) =
    get_attribute_with_fieldtype "cached_earlier_sessions" (Types_value t) self.
Proof.
  intros self. apply (reset_state_frame self "port").
  - intros a t Heq.
    assert (Hlen := f_equal String.length Heq). unfold fieldtype_attr in *.
    rewrite !string_length_app in Hlen.
    destruct t; simpl in Hlen; [lia|].
    destruct a as [|c [|c' a]]; simpl in Hlen; try lia. discriminate.
  - discriminate.
  - discriminate.
Defined.


(** ** [utils]: defaults, message concatenation and the format table *)

Section config_defaults_algebra.
Context {K : Type} `{Countable K} {V : Type}.
Implicit Types config default_config : gmap K V.

Lemma init_config_with_default_union config default_config :
  init_config_with_default config default_config = config ∪ default_config.
Proof.
  apply map_eq. intros k.
  rewrite init_config_with_default_lookup, lookup_union.
  destruct (config !! k), (default_config !! k); done.
Qed.

(** X5: filling in defaults twice is filling them in once; empty defaults
    change nothing and an empty configuration becomes the defaults; and
    filling in [d1] and then [d2] is filling in [d1] completed by [d2]. *)
Theorem init_config_with_default_algebra config (d1 d2 : gmap K V) :
  init_config_with_default (init_config_with_default config d1) d1 =
    init_config_with_default config d1 /\
  init_config_with_default config ∅ = config /\
  init_config_with_default ∅ d1 = d1 /\
  init_config_with_default (init_config_with_default config d1) d2 =
    init_config_with_default config (init_config_with_default d1 d2).
Proof.
  rewrite !init_config_with_default_union. split_and!.
  - by rewrite <- (assoc_L (∪)), (idemp_L (∪)).
  - by rewrite (right_id_L ∅ (∪)).
  - by rewrite (left_id_L ∅ (∪)).
  - by rewrite (assoc_L (∪)).
Qed.
End config_defaults_algebra.

Lemma rstrip_app_space (s : string) : rstrip (s +:+ " ") = rstrip s.
Proof.
  induction s as [|c s IH]; [done|].
  change (String c s +:+ " ") with (String c (s +:+ " ")).
  cbn [rstrip]. by rewrite IH.
Qed.

Lemma rstrip_ends (s : string) : ends_with_space (rstrip s) = false.
Proof.
  induction s as [|c s IH]; [done|]. cbn [rstrip].
  destruct (rstrip s) as [|c' kept] eqn:Hr.
  - destruct (is_space c) eqn:Hc; [done|]. simpl. by rewrite Hc.
  - done.
Qed.

Lemma rstrip_starts (s : string) :
  starts_with_space s = false -> starts_with_space (rstrip s) = false.
Proof.
  destruct s as [|c s]; [done|]. simpl. intros Hc.
  destruct (rstrip s); rewrite ?Hc; done.
Qed.

Lemma rstrip_fixed (s : string) : ends_with_space s = false -> rstrip s = s.
Proof.
  induction s as [|c s IH]; [done|]. intros Hend. cbn [rstrip].
  destruct s as [|c' s].
  - simpl in *. by rewrite Hend.
  - rewrite IH by done. done.
Qed.

Lemma skip_spaces_starts (s : string) :
  starts_with_space (skip_spaces s) = false.
Proof.
  induction s as [|c s IH]; [done|]. simpl.
  destruct (is_space c) eqn:Hc; [done|]. simpl. by rewrite Hc.
Qed.

Lemma skip_spaces_fixed (s : string) :
  starts_with_space s = false -> skip_spaces s = s.
Proof. destruct s as [|c s]; [done|]. simpl. by intros ->. Qed.

Lemma py_strip_fixed (s : string) :
  starts_with_space s = false -> ends_with_space s = false -> py_strip s = s.
Proof.
  intros Hs He. unfold py_strip. by rewrite skip_spaces_fixed, rstrip_fixed.
Qed.

Lemma starts_with_space_app (s r : string) :
  s <> "" -> starts_with_space (s +:+ r) = starts_with_space s.
Proof. by destruct s. Qed.

Lemma ends_with_space_app (s r : string) :
  r <> "" -> ends_with_space (s +:+ r) = ends_with_space r.
Proof.
  intros Hr. induction s as [|c s IH]; [done|].
  change (String c s +:+ r) with (String c (s +:+ r)).
  cbn [ends_with_space]. rewrite IH.
  destruct (s +:+ r) eqn:Hsr; [|done].
  destruct s; [by simpl in Hsr|done].
Qed.

Lemma string_app_assoc (a b c : string) : (a +:+ b) +:+ c = a +:+ (b +:+ c).
Proof.
  induction a as [|x a IH]; [done|].
  change (String x ((a +:+ b) +:+ c) = String x (a +:+ (b +:+ c))).
  by rewrite IH.
Qed.

Lemma string_app_empty_r (a : string) : a +:+ "" = a.
Proof.
  induction a as [|x a IH]; [done|].
  change (String x (a +:+ "") = String x a). by rewrite IH.
Qed.

(** The loop puts a space after every message. *)
Lemma concat_loop (acc : string) (l : list string) :
  foldl (fun result m => result +:+ m +:+ " ") acc l =
  acc +:+ foldl (fun result m => result +:+ m +:+ " ") "" l.
Proof.
  revert acc. induction l as [|m l IH]; intros acc; cbn [foldl].
  - by rewrite string_app_empty_r.
  - rewrite (IH (acc +:+ m +:+ " ")), (IH ("" +:+ m +:+ " ")).
    change ("" +:+ m +:+ " ") with (m +:+ " ").
    by rewrite !string_app_assoc.
Qed.

Lemma concat_loop_join (l : list string) :
  l <> [] ->
  foldl (fun result m => result +:+ m +:+ " ") "" l = join_spaces l +:+ " ".
Proof.
  induction l as [|m l IH]; [done|]. intros _. cbn [foldl].
  rewrite concat_loop. change ("" +:+ m +:+ " ") with (m +:+ " ").
  destruct l as [|m' l]; [by rewrite string_app_empty_r|].
  rewrite IH by done.
  change (join_spaces (m :: m' :: l)) with (m +:+ " " +:+ join_spaces (m' :: l)).
  by rewrite !string_app_assoc.
Qed.

Lemma join_spaces_trimmed (l : list string) :
  l <> [] -> Forall trimmed l -> trimmed (join_spaces l).
Proof.
  induction l as [|m l IH]; [done|]. intros _ Hall.
  apply Forall_cons in Hall as [(Hm & Hs & He) Hl].
  destruct l as [|m' l]; [done|].
  destruct (IH ltac:(done) Hl) as (Hj & Hjs & Hje).
  change (join_spaces (m :: m' :: l)) with (m +:+ " " +:+ join_spaces (m' :: l)).
  split_and!.
  - by destruct m.
  - by rewrite starts_with_space_app.
  - rewrite ends_with_space_app; [|by destruct (join_spaces (m' :: l))].
    by rewrite ends_with_space_app.
Qed.

(** X6: what [concat_tuple] returns neither begins nor ends with white
    space; concatenating the result again gives it back; and messages that
    are themselves trimmed come out joined by single spaces. *)
Theorem concat_tuple_trimmed (ouput_tuple : list string) :
  starts_with_space (concat_tuple ouput_tuple) = false /\
  ends_with_space (concat_tuple ouput_tuple) = false /\
  concat_tuple [concat_tuple ouput_tuple] = concat_tuple ouput_tuple /\
  (Forall trimmed ouput_tuple ->
   concat_tuple ouput_tuple = join_spaces ouput_tuple).
Proof.
  assert (Hs : starts_with_space (concat_tuple ouput_tuple) = false).
  { unfold concat_tuple, py_strip. apply rstrip_starts, skip_spaces_starts. }
  assert (He : ends_with_space (concat_tuple ouput_tuple) = false).
  { unfold concat_tuple, py_strip. apply rstrip_ends. }
  split_and!; [done|done| |].
  - generalize dependent (concat_tuple ouput_tuple). intros m Hs He.
    unfold concat_tuple at 1. cbn [foldl].
    change ("" +:+ m +:+ " ") with (m +:+ " "). unfold py_strip.
    destruct (decide (m = "")) as [->|Hm]; [done|].
    rewrite skip_spaces_fixed by (by rewrite starts_with_space_app).
    by rewrite rstrip_app_space, rstrip_fixed.
  - intros Hall. destruct ouput_tuple as [|m l]; [done|].
    unfold concat_tuple. rewrite concat_loop_join by done.
    destruct (join_spaces_trimmed (m :: l) ltac:(done) Hall) as (Hj & Hjs & Hje).
    unfold py_strip. rewrite skip_spaces_fixed.
    + by rewrite rstrip_app_space, rstrip_fixed.
    + by rewrite starts_with_space_app.
Qed.

Lemma concat_tuple_trimmed_witness :
  Forall trimmed ["Scheduling"; "account"; "alice"] /\
  concat_tuple ["Scheduling"; "account"; "alice"] =
    join_spaces ["Scheduling"; "account"; "alice"].
Proof.
  assert (H : Forall trimmed ["Scheduling"; "account"; "alice"])
    by (repeat constructor; done).
  split; [exact H|].
  exact (proj2 (proj2 (proj2
           (concat_tuple_trimmed ["Scheduling"; "account"; "alice"]))) H).
Defined.

Example concat_tuple_account_log :
  concat_tuple ["[alice] "; " Login successful "; "  "] =
  "[alice]   Login successful".
Proof. vm_compute. reflexivity. Qed.

(** X7: [get_date_formatter] raises [KeyError] exactly when the default
    option is not in the table, even for a format option that is; with the
    defaults that [get_date_now] and [get_datetime_now] pass it never
    raises, and an unknown option gives the default's format. *)
Theorem get_date_formatter_default_first (format_option default_format_option : string) :
  (get_date_formatter format_option default_format_option = Err KeyError <->
   table_lookup date_formatter default_format_option = None) /\
  (forall fallback,
     table_lookup date_formatter default_format_option = Some fallback ->
     get_date_formatter format_option default_format_option =
       Ok (match table_lookup date_formatter format_option with
           | Some format => format
           | None => fallback
           end)) /\
  (exists format, get_date_now_format format_option = Ok format) /\
  (exists format, get_datetime_now_format format_option = Ok format) /\
  (table_lookup date_formatter format_option = None ->
   get_date_now_format format_option = Ok "%d-%m-%Y" /\
   get_datetime_now_format format_option = Ok "%d%m%Y %H%M%S").
Proof.
  unfold get_date_now_format, get_datetime_now_format, get_date_formatter.
  split_and!.
  - destruct (table_lookup date_formatter default_format_option); split; done.
  - intros fallback ->. by destruct (table_lookup date_formatter format_option).
  - eexists. reflexivity.
  - eexists. reflexivity.
  - intros ->. done.
Qed.

Lemma get_date_formatter_default_first_witness :
  table_lookup date_formatter "iso" = None /\
  get_date_now_format "iso" = Ok "%d-%m-%Y" /\
  get_datetime_now_format "iso" = Ok "%d%m%Y %H%M%S".
Proof.
  split; [reflexivity|].
  exact (proj2 (proj2 (proj2 (proj2
           (get_date_formatter_default_first "iso" "dd-mm-yyyy")))) eq_refl).
Defined.

Example get_date_formatter_bad_default :
  get_date_formatter "dd/mm/yyyy" "iso" = Err KeyError.
Proof. reflexivity. Qed.


(** ** Comparing and selecting sessions *)

Lemma same_collections_trans (a b c : sessions_map) :
  same_collections a b -> same_collections b c -> same_collections a c.
Proof.
  intros [Hd1 H1] [Hd2 H2]. split; [congruence|].
  intros date ts0 ts2 Ha Hc.
  assert (is_Some (b !! date)) as [ts1 Hb].
  { apply elem_of_dom. rewrite <- Hd1. apply elem_of_dom. eauto. }
  rewrite (H1 date ts0 ts1 Ha Hb). exact (H2 date ts1 ts2 Hb Hc).
Qed.

Lemma time_set_perm (ts ts' : list string) :
  Permutation ts ts' -> time_set ts = time_set ts'.
Proof.
  intros Hp. unfold time_set. apply set_eq. intros t.
  rewrite !elem_of_list_to_set. by rewrite Hp.
Qed.

(** X8: two collections that [check_if_same_sessions] does not tell apart
    compare alike with every third one, so the comparison is transitive;
    and it does not see the order in which the time slots of a date are
    listed. *)
Theorem equalCollections_congruence (a b : sessions_map) :
  equalCollections a b = true ->
  (forall c, equalCollections a c = equalCollections b c) /\
  (forall c, equalCollections b c = true -> equalCollections a c = true) /\
  (forall date ts ts',
     Permutation ts ts' ->
     equalCollections (<[date := ts]> a) (<[date := ts']> b) = true).
Proof.
  unfold equalCollections. rewrite negb_true_iff, check_if_same_sessions_false.
  intros Hab.
  assert (Hcong : forall c,
            check_if_same_sessions a c = check_if_same_sessions b c).
  { intros c.
    destruct (check_if_same_sessions a c) eqn:Hac,
             (check_if_same_sessions b c) eqn:Hbc; try done.
    - apply check_if_same_sessions_false in Hbc.
      pose proof (same_collections_trans _ _ _ Hab Hbc) as H.
      apply check_if_same_sessions_false in H. congruence.
    - apply check_if_same_sessions_false in Hac.
      pose proof (same_collections_trans _ _ _ (same_collections_sym _ _ Hab) Hac) as H.
      apply check_if_same_sessions_false in H. congruence. }
  split_and!.
  - intros c. by rewrite Hcong.
  - intros c. by rewrite Hcong.
  - intros date ts ts' Hp. rewrite negb_true_iff, check_if_same_sessions_false.
    destruct Hab as [Hd Hall]. split.
    + rewrite !dom_insert_L. by rewrite Hd.
    + intros date' ts0 ts1.
      destruct (decide (date = date')) as [<-|Hne].
      * rewrite !lookup_insert_eq. intros [= <-] [= <-]. by apply time_set_perm.
      * rewrite !lookup_insert_ne by done. apply Hall.
Qed.

Lemma equalCollections_congruence_witness :
  equalCollections
    {[ "12/May/2025" := ["09:00 - 10:40"; "11:00 - 12:40"] ]}
    {[ "12/May/2025" := ["11:00 - 12:40"; "09:00 - 10:40"] ]} = true /\
  (forall c,
     equalCollections {[ "12/May/2025" := ["09:00 - 10:40"; "11:00 - 12:40"] ]} c =
     equalCollections {[ "12/May/2025" := ["11:00 - 12:40"; "09:00 - 10:40"] ]} c).
Proof.
  assert (H : equalCollections
                {[ "12/May/2025" := ["09:00 - 10:40"; "11:00 - 12:40"] ]}
                {[ "12/May/2025" := ["11:00 - 12:40"; "09:00 - 10:40"] ]} = true)
    by (vm_compute; reflexivity).
  split; [exact H|].
  exact (proj1 (equalCollections_congruence _ _ H)).
Defined.

(** The call for any [length], also one that is zero or negative. *)
Lemma get_earliest_time_slots_any_length
    (sessions_data : sessions) (length : Z) (field_type : string) :
  Forall parses (flatten_sessions sessions_data) ->
  get_earliest_time_slots sessions_data length field_type =
  Returns (group_slots
             (take (Z.to_nat length)
                   (stable_sort_by slot_key (flatten_sessions sessions_data)))).
Proof.
  intros Hp. destruct (Z.le_gt_cases 0 length) as [Hpos|Hneg].
  - rewrite <- (Z2Nat.id length) at 1 by done.
    by apply get_earliest_time_slots_parses.
  - unfold get_earliest_time_slots. rewrite sort_with_key_parses by done.
    simpl. f_equal.
    replace (Z.to_nat length) with 0 by lia. rewrite take_0.
    unfold py_range, step.
    set (sorted := stable_sort_by slot_key (flatten_sessions sessions_data)).
    replace (Z.to_nat _) with 0; [done|].
    rewrite Z.div_1_r. lia.
Qed.

Lemma group_slots_nonempty (l : list slot) :
  Forall (fun item : string * list string => item.2 <> []) (group_slots l).
Proof.
  rewrite group_slots_canonical. apply List.Forall_forall.
  intros item [d [<- Hd]]%List.in_map_iff. unfold times_on. simpl.
  apply first_dates_In, List.in_map_iff in Hd as [s [Hs Hin]].
  intros Hnil. apply List.map_eq_nil in Hnil.
  assert (Hf : In s (List.filter (on_date d) l)).
  { apply List.filter_In. split; [done|]. unfold on_date.
    by apply String.eqb_eq. }
  by rewrite Hnil in Hf.
Qed.

(** X9: the shape of what [get_earliest_time_slots] returns, for any
    [length]: a dictionary whose dates are distinct and none of which has
    an empty list, holding exactly [min(max(length, 0), total)] slots, each
    of them a slot of the input and as often as there; nothing at all for a
    [length] of zero or less. *)
Theorem get_earliest_time_slots_shape
    (sessions_data : sessions) (length : Z) (field_type : string) :
  Forall parses (flatten_sessions sessions_data) ->
  exists result,
    get_earliest_time_slots sessions_data length field_type = Returns result /\
    List.NoDup (List.map fst result) /\
    Forall (fun item : string * list string => item.2 <> []) result /\
    List.length (flatten_sessions result) =
      Nat.min (Z.to_nat length) (List.length (flatten_sessions sessions_data)) /\
    (exists left_out,
       Permutation (flatten_sessions result ++ left_out)
                   (flatten_sessions sessions_data)) /\
    ((length <= 0)%Z -> result = []).
Proof.
  intros Hp.
  set (sorted := stable_sort_by slot_key (flatten_sessions sessions_data)).
  exists (group_slots (take (Z.to_nat length) sorted)). split_and!.
  - by apply get_earliest_time_slots_any_length.
  - apply group_slots_keys.
  - apply group_slots_nonempty.
  - rewrite flatten_group_slots, regroup_length, length_take.
    unfold sorted. by rewrite stable_sort_by_length.
  - exists (drop (Z.to_nat length) sorted).
    rewrite flatten_group_slots, regroup_perm, take_drop.
    apply stable_sort_by_perm.
  - intros Hle. replace (Z.to_nat length) with 0 by lia. by rewrite take_0.
Qed.

Lemma get_earliest_time_slots_shape_witness :
  exists result,
    get_earliest_time_slots may_sessions 4 "practical" = Returns result /\
    List.NoDup (List.map fst result) /\
    Forall (fun item : string * list string => item.2 <> []) result /\
    List.length (flatten_sessions result) =
      Nat.min (Z.to_nat 4) (List.length (flatten_sessions may_sessions)) /\
    (exists left_out,
       Permutation (flatten_sessions result ++ left_out)
                   (flatten_sessions may_sessions)) /\
    ((4 <= 0)%Z -> result = []).
Proof.
  apply (get_earliest_time_slots_shape may_sessions 4 "practical").
  repeat constructor; eexists; vm_compute; reflexivity.
Defined.

Lemma In_flatten_sessions (sessions_data : sessions) (d t : string) :
  In (d, t) (flatten_sessions sessions_data) <->
  exists ts, In (d, ts) sessions_data /\ In t ts.
Proof.
  unfold flatten_sessions. rewrite List.in_flat_map. split.
  - intros [[d' ts] [Hin Hm]]. apply List.in_map_iff in Hm as [t' [[= -> ->] Ht]].
    eauto.
  - intros [ts [Hin Ht]]. exists (d, ts). split; [done|].
    by apply List.in_map.
Qed.

Lemma sessions_as_map_lookup (sessions_data : sessions) (d : string) (ts : list string) :
  List.NoDup (List.map fst sessions_data) ->
  sessions_as_map sessions_data !! d = Some ts <-> In (d, ts) sessions_data.
Proof.
  intros Hnd. unfold sessions_as_map.
  rewrite <- elem_of_list_to_map by (by apply NoDup_ListNoDup).
  apply list_elem_of_In.
Qed.

Lemma group_slots_lookup (l : list slot) (d : string) (ts : list string) :
  In (d, ts) (group_slots l) ->
  forall t, In t ts <-> In (d, t) l.
Proof.
  rewrite group_slots_canonical. intros [d' [[= -> <-] Hd]]%List.in_map_iff t.
  rewrite List.in_map_iff. split.
  - intros [[d' t'] [Ht Hf]]. apply List.filter_In in Hf as [Hin Hon].
    simpl in Ht. subst t'.
    unfold on_date in Hon. simpl in Hon. by apply String.eqb_eq in Hon as ->.
  - intros Hin. exists (d, t). split; [done|]. apply List.filter_In.
    split; [done|]. unfold on_date. simpl. apply String.eqb_refl.
Qed.

(** X10: asked for at least as many slots as there are, the call returns
    the collection it was given, as far as [check_if_same_sessions] can
    tell: the same dates and for every date the same time slots.  The dates
    of the input have to carry at least one slot each, a date with an empty
    list is dropped. *)
Theorem get_earliest_time_slots_all
    (sessions_data : sessions) (length : Z) (field_type : string) :
  Forall parses (flatten_sessions sessions_data) ->
  List.NoDup (List.map fst sessions_data) ->
  Forall (fun item : string * list string => item.2 <> []) sessions_data ->
  (Z.of_nat (List.length (flatten_sessions sessions_data)) <= length)%Z ->
  exists result,
    get_earliest_time_slots sessions_data length field_type = Returns result /\
    check_if_same_sessions (sessions_as_map sessions_data)
                           (sessions_as_map result) = false.
Proof.
  intros Hp Hnd Hne Hlen.
  set (sorted := stable_sort_by slot_key (flatten_sessions sessions_data)).
  exists (group_slots sorted).
  assert (Hperm : Permutation sorted (flatten_sessions sessions_data))
    by apply stable_sort_by_perm.
  assert (Hin : forall s, In s sorted <-> In s (flatten_sessions sessions_data)).
  { intros s. split; apply Permutation_in; [done|by symmetry]. }
  split.
  { rewrite get_earliest_time_slots_any_length by done. f_equal. f_equal.
    apply take_ge. unfold sorted. rewrite stable_sort_by_length. lia. }
  apply check_if_same_sessions_false.
  destruct (group_slots_keys sorted) as [Hkeys Hnd'].
  split.
  - unfold sessions_as_map. rewrite !dom_list_to_map_L. apply set_eq. intros d.
    rewrite !elem_of_list_to_set, !list_elem_of_In.
    change (In d (List.map fst sessions_data) <->
            In d (List.map fst (group_slots sorted))).
    rewrite Hkeys, first_dates_In. split.
    + intros [[d' ts] [Hd Hitem]]%List.in_map_iff. simpl in Hd. subst d'.
      destruct ts as [|t ts].
      { eapply List.Forall_forall in Hne; [|exact Hitem]. done. }
      apply List.in_map_iff. exists (d, t). split; [done|].
      apply Hin, In_flatten_sessions. exists (t :: ts). split; [done|by left].
    + intros [[d' t] [Hd Hs]]%List.in_map_iff. simpl in Hd. subst d'.
      apply Hin, In_flatten_sessions in Hs as [ts [Hitem _]].
      apply List.in_map_iff. by exists (d, ts).
  - intros date ts0 ts1 H0 H1.
    apply sessions_as_map_lookup in H0; [|done].
    apply sessions_as_map_lookup in H1; [|done].
    unfold time_set. apply set_eq. intros t.
    rewrite !elem_of_list_to_set, !list_elem_of_In.
    rewrite (group_slots_lookup sorted date ts1 H1 t), Hin, In_flatten_sessions.
    split.
    + intros Ht. eauto.
    + intros [ts [Hitem Ht]].
      assert (ts = ts0) as ->; [|done].
      apply (sessions_as_map_lookup _ _ _ Hnd) in Hitem.
      apply (sessions_as_map_lookup _ _ _ Hnd) in H0. congruence.
Qed.

Lemma get_earliest_time_slots_all_witness :
  exists result,
    get_earliest_time_slots may_sessions 7 "practical" = Returns result /\
    check_if_same_sessions (sessions_as_map may_sessions)
                           (sessions_as_map result) = false.
Proof.
  apply (get_earliest_time_slots_all may_sessions 7 "practical").
  - repeat constructor; eexists; vm_compute; reflexivity.
  - apply NoDup_ListNoDup, (bool_decide_unpack _). vm_compute. exact I.
  - repeat constructor; discriminate.
  - vm_compute. discriminate.
Defined.

(** A date without slots does not come back: the result differs from the
    input although every slot was asked for. *)
Example get_earliest_time_slots_drops_empty_date :
  get_earliest_time_slots
    [("12/May/2025", ["15:00 - 16:40"]); ("13/May/2025", [])] 5 "practical" =
  Returns [("12/May/2025", ["15:00 - 16:40"])] /\
  check_if_same_sessions
    (sessions_as_map [("12/May/2025", ["15:00 - 16:40"]); ("13/May/2025", [])])
    (sessions_as_map [("12/May/2025", ["15:00 - 16:40"])]) = true.
Proof. split; vm_compute; reflexivity. Qed.


(** ** Choosing a course *)

Lemma first_course_with_name_spec (courses : list string) (start : Z)
    (course_name : string) :
  match first_course_with_name courses start course_name with
  | Some idx =>
      (start <= idx < start + Z.of_nat (List.length courses))%Z /\
      (exists c, courses !! Z.to_nat (idx - start) = Some c /\
                 contains course_name c = true) /\
      (forall k c, k < Z.to_nat (idx - start) -> courses !! k = Some c ->
                   contains course_name c = false)
  | None => Forall (fun c => contains course_name c = false) courses
  end.
Proof.
  revert start. induction courses as [|c courses IH]; intros start; simpl.
  { constructor. }
  destruct (contains course_name c) eqn:Hc.
  - split_and!; [lia|lia| |].
    + exists c. by rewrite Z.sub_diag.
    + intros k c'. rewrite Z.sub_diag. simpl. lia.
  - specialize (IH (start + 1)%Z).
    destruct (first_course_with_name courses (start + 1) course_name) as [idx|].
    + destruct IH as ([Hlo Hhi] & (c' & Hc' & Hin) & Hfirst).
      assert (Hk : Z.to_nat (idx - start) = S (Z.to_nat (idx - (start + 1))))
        by lia.
      split_and!; [lia|lia| |].
      * exists c'. by rewrite Hk.
      * intros k c''. rewrite Hk. destruct k as [|k]; simpl.
        -- by intros _ [= <-].
        -- intros Hlt. apply Hfirst. lia.
    + by constructor.
Qed.

(** X11: [select_course_from_name] selects and returns the index of the
    first course whose text contains the name, and selects nothing when
    there is none.  In [name or index 1], an index of 0 counts as not
    found: the course at index 0 is selected and then the one at index 1.
    With more than one course the expression always ends on a selection
    other than index 0, and it is false only when the text of the course
    at index 1 is empty. *)
Theorem select_motorcar_or_second_spec (cd : course_data) :
  (1 < List.length (available_courses cd)) ->
  (forall idx cd',
     select_course_from_name cd "Class 3A Motorcar" = (cd', VInt idx) ->
     course_selection cd' = course_selection cd ++ [idx] /\
     (exists c, available_courses cd !! Z.to_nat idx = Some c /\
                contains "Class 3A Motorcar" c = true) /\
     (forall k c, k < Z.to_nat idx -> available_courses cd !! k = Some c ->
                  contains "Class 3A Motorcar" c = false)) /\
  (first_course_with_name (available_courses cd) 0 "Class 3A Motorcar" = Some 0%Z ->
   course_selection (select_motorcar_or_second cd).1 =
     course_selection cd ++ [0%Z; 1%Z]) /\
  (exists idx,
     last (course_selection (select_motorcar_or_second cd).1) = Some idx /\
     (1 <= idx < Z.of_nat (List.length (available_courses cd)))%Z) /\
  (truthy (select_motorcar_or_second cd).2 = false ->
   available_courses cd !! 1 = Some "").
Proof.
  intros Hlen.
  pose proof (first_course_with_name_spec (available_courses cd) 0
                "Class 3A Motorcar") as Hspec.
  assert (Hidx : select_course_from_idx cd 1 =
                 (select_by_index cd 1,
                  VStr (default "" (available_courses cd !! 1)))).
  { unfold select_course_from_idx.
    replace (_ && _) with true; [done|].
    symmetry. apply andb_true_iff. split; [done|]. apply Z.ltb_lt. lia. }
  assert (Hidx' : forall cd0 : course_data,
            available_courses cd0 = available_courses cd ->
            select_course_from_idx cd0 1 =
            (select_by_index cd0 1,
             VStr (default "" (available_courses cd !! 1)))).
  { intros cd0 Hcd0. unfold select_course_from_idx. rewrite Hcd0.
    replace (_ && _) with true; [done|].
    symmetry. apply andb_true_iff. split; [done|]. apply Z.ltb_lt. lia. }
  assert (Hsecond : is_Some (available_courses cd !! 1))
    by (apply lookup_lt_is_Some; lia).
  unfold select_motorcar_or_second, select_course_from_name.
  destruct (first_course_with_name (available_courses cd) 0 "Class 3A Motorcar")
    as [idx|] eqn:Hfirst.
  - destruct Hspec as ([Hlo Hhi] & Hc & Hearlier).
    rewrite Z.sub_0_r in Hc, Hearlier.
    split_and!.
    + intros idx' cd' [= <- <-]. done.
    + intros [= ->]. simpl. rewrite Hidx' by done. simpl.
      by rewrite <- (assoc_L (++)).
    + simpl. destruct (idx =? 0)%Z eqn:H0; simpl.
      * rewrite Hidx' by done. simpl. exists 1%Z.
        rewrite last_snoc. split; [done|lia].
      * exists idx. rewrite last_snoc. split; [done|].
        apply Z.eqb_neq in H0. lia.
    + simpl. destruct (idx =? 0)%Z eqn:H0; simpl; [|by rewrite H0].
      rewrite Hidx' by done. simpl.
      destruct Hsecond as [c ->]. simpl.
      destruct (String.eqb_spec c ""); [by subst|done].
  - split_and!.
    + intros idx' cd' [=].
    + done.
    + simpl. rewrite Hidx. simpl. exists 1%Z.
      rewrite last_snoc. split; [done|lia].
    + simpl. rewrite Hidx. simpl.
      destruct Hsecond as [c ->]. simpl.
      destruct (String.eqb_spec c ""); [by subst|done].
Qed.

Lemma select_motorcar_or_second_spec_witness :
  first_course_with_name ["Class 3A Motorcar"; "Class 2B Motorcycle"] 0
    "Class 3A Motorcar" = Some 0%Z /\
  course_selection
    (select_motorcar_or_second
       {| available_courses := ["Class 3A Motorcar"; "Class 2B Motorcycle"];
          course_selection := [] |}).1 = [] ++ [0%Z; 1%Z].
Proof.
  assert (H : first_course_with_name ["Class 3A Motorcar"; "Class 2B Motorcycle"] 0
                "Class 3A Motorcar" = Some 0%Z) by reflexivity.
  split; [exact H|].
  exact (proj1 (proj2
    (select_motorcar_or_second_spec
       {| available_courses := ["Class 3A Motorcar"; "Class 2B Motorcycle"];
          course_selection := [] |} ltac:(simpl; lia))) H).
Defined.

(** The usual page: a placeholder at index 0, the wanted course further
    down. *)
Example select_motorcar_by_name :
  select_motorcar_or_second
    {| available_courses := ["Select Course"; "Class 2B Motorcycle";
                             "02. Class 3A Motorcar (Auto)"];
       course_selection := [] |} =
  ({| available_courses := ["Select Course"; "Class 2B Motorcycle";
                            "02. Class 3A Motorcar (Auto)"];
      course_selection := [2%Z] |}, VInt 2).
Proof. vm_compute. reflexivity. Qed.


(** ** Retry loops *)

Lemma attempt_log_step (retry_delay : Z) (k j : nat) :
  k < j ->
  attempt_log retry_delay k j =
  EvAttempt k :: EvSleep retry_delay :: attempt_log retry_delay (S k) j.
Proof.
  intros Hlt. unfold attempt_log.
  replace (j - k) with (S (j - S k)) by lia. done.
Qed.

Lemma seconds_slept_attempt_log (retry_delay : Z) (k j : nat) :
  k <= j ->
  seconds_slept (attempt_log retry_delay k j) = (Z.of_nat (j - k) * retry_delay)%Z.
Proof.
  intros Hle. remember (j - k) as m eqn:Hm. revert k Hle Hm.
  induction m as [|m IH]; intros k Hle Hm.
  - unfold attempt_log. rewrite <- Hm. simpl. lia.
  - rewrite attempt_log_step by lia. cbn [seconds_slept foldr].
    fold (seconds_slept (attempt_log retry_delay (S k) j)).
    rewrite (IH (S k)) by lia. lia.
Qed.

Lemma fetch_attempts_spec (fs : nat -> fetch_observation) (max_retries : nat)
    (retry_delay : Z) (m k : nat) :
  k + S m = max_retries ->
  exists j,
    k <= j < max_retries /\
    (forall i, k <= i < j -> fetch_success (fs i) = None) /\
    fetch_attempts fs max_retries retry_delay (seq k (S m)) =
      (fetch_success (fs j), attempt_log retry_delay k j) /\
    (fetch_success (fs j) = None -> j = max_retries - 1).
Proof.
  revert k. induction m as [|m IH]; intros k Hk.
  - exists k. split_and!; [lia|lia|intros; lia| |lia].
    cbn [seq fetch_attempts].
    unfold attempt_log. rewrite Nat.sub_diag. simpl.
    destruct (fetch_success (fs k)) as [r|]; [done|].
    replace (Nat.ltb k (max_retries - 1)) with false; [done|].
    symmetry. apply Nat.ltb_ge. lia.
  - change (seq k (S (S m))) with (k :: seq (S k) (S m)).
    cbn [fetch_attempts].
    destruct (fetch_success (fs k)) as [r|] eqn:Hfk.
    + exists k. split_and!; [lia|lia|intros; lia| |].
      * rewrite Hfk. unfold attempt_log. by rewrite Nat.sub_diag.
      * by rewrite Hfk.
    + replace (Nat.ltb k (max_retries - 1)) with true
        by (symmetry; apply Nat.ltb_lt; lia).
      destruct (IH (S k)) as (j & Hj & Hfail & Heq & Hlast); [lia|].
      exists j. rewrite Heq. split_and!; [lia|lia| | |done].
      * intros i Hi. destruct (decide (i = k)) as [->|Hne]; [done|].
        apply Hfail. lia.
      * by rewrite (attempt_log_step _ k j) by lia.
Qed.

(** X12: [_fetch_with_flaresolverr] stops in some attempt [j] out of three;
    every attempt before it failed, attempt [j] decides the result, and a
    failure is only returned from the third attempt.  It sleeps five
    seconds between two attempts and not after the last, ten seconds at
    most. *)
Theorem _fetch_with_flaresolverr_spec (fs : nat -> fetch_observation) :
  exists j,
    j < 3 /\
    (forall i, i < j -> fetch_success (fs i) = None) /\
    _fetch_with_flaresolverr fs = (fetch_success (fs j), attempt_log 5 0 j) /\
    (fetch_success (fs j) = None -> j = 2) /\
    seconds_slept (_fetch_with_flaresolverr fs).2 = (5 * Z.of_nat j)%Z /\
    (seconds_slept (_fetch_with_flaresolverr fs).2 <= 10)%Z.
Proof.
  destruct (fetch_attempts_spec fs 3 5 2 0 eq_refl) as (j & Hj & Hfail & Heq & Hlast).
  exists j. unfold _fetch_with_flaresolverr. rewrite Heq. simpl snd.
  rewrite seconds_slept_attempt_log by lia.
  split_and!; [lia| |done|done|lia|lia].
  intros i Hi. apply Hfail. lia.
Qed.

Lemma _fetch_with_flaresolverr_spec_witness :
  exists j,
    j < 3 /\
    (forall i, i < j ->
       fetch_success
         ((fun k => {| fetch_cookies := [("cf_clearance", "t")];
                       fetch_reply := if Nat.ltb k 1 then Returns (503%Z, "")
                                      else Returns (200%Z, "<html>") |}) i) = None) /\
    _fetch_with_flaresolverr
      (fun k => {| fetch_cookies := [("cf_clearance", "t")];
                   fetch_reply := if Nat.ltb k 1 then Returns (503%Z, "")
                                  else Returns (200%Z, "<html>") |}) =
      (fetch_success
         ((fun k => {| fetch_cookies := [("cf_clearance", "t")];
                       fetch_reply := if Nat.ltb k 1 then Returns (503%Z, "")
                                      else Returns (200%Z, "<html>") |}) j),
       attempt_log 5 0 j) /\
    (fetch_success
       ((fun k => {| fetch_cookies := [("cf_clearance", "t")];
                     fetch_reply := if Nat.ltb k 1 then Returns (503%Z, "")
                                    else Returns (200%Z, "<html>") |}) j) = None ->
     j = 2) /\
    seconds_slept
      (_fetch_with_flaresolverr
         (fun k => {| fetch_cookies := [("cf_clearance", "t")];
                      fetch_reply := if Nat.ltb k 1 then Returns (503%Z, "")
                                     else Returns (200%Z, "<html>") |})).2 =
      (5 * Z.of_nat j)%Z /\
    (seconds_slept
       (_fetch_with_flaresolverr
          (fun k => {| fetch_cookies := [("cf_clearance", "t")];
                       fetch_reply := if Nat.ltb k 1 then Returns (503%Z, "")
                                      else Returns (200%Z, "<html>") |})).2 <= 10)%Z.
Proof.
  exact (_fetch_with_flaresolverr_spec
           (fun k => {| fetch_cookies := [("cf_clearance", "t")];
                        fetch_reply := if Nat.ltb k 1 then Returns (503%Z, "")
                                       else Returns (200%Z, "<html>") |})).
Defined.

(** A first answer of 503 and a second of 200: two attempts, one sleep. *)
Example _fetch_with_flaresolverr_second_attempt :
  _fetch_with_flaresolverr
    (fun k => {| fetch_cookies := [("cf_clearance", "t")];
                 fetch_reply := if Nat.ltb k 1 then Returns (503%Z, "")
                                else Returns (200%Z, "<html>") |}) =
  (Some ("<html>", [("cf_clearance", "t")]),
   [EvAttempt 0; EvSleep 5; EvAttempt 1]).
Proof. reflexivity. Qed.

Section initialize_driver_facts.
Context {driver : Type}.

Lemma initialize_attempts_spec (ds : nat -> outcome driver) (max_retries : nat)
    (retry_delay : Z) (m k : nat) (last_exception : option exn) :
  k + S m = max_retries ->
  exists j,
    k <= j < max_retries /\
    (forall i, k <= i < j -> exists e, ds i = Raises e) /\
    initialize_attempts ds max_retries retry_delay (seq k (S m)) last_exception =
      (match ds j with
       | Returns d => DriverReady d
       | Raises e => InitRaises e
       end, attempt_log retry_delay k j) /\
    (forall e, ds j = Raises e -> j = max_retries - 1).
Proof.
  revert k last_exception. induction m as [|m IH]; intros k last_exception Hk.
  - exists k. split_and!; [lia|lia|intros; lia| |intros; lia].
    cbn [seq initialize_attempts].
    unfold attempt_log. rewrite Nat.sub_diag. simpl.
    destruct (ds k) as [d|e]; [done|].
    replace (Nat.ltb k (max_retries - 1)) with false; [done|].
    symmetry. apply Nat.ltb_ge. lia.
  - change (seq k (S (S m))) with (k :: seq (S k) (S m)).
    cbn [initialize_attempts].
    destruct (ds k) as [d|e] eqn:Hdk.
    + exists k. split_and!; [lia|lia|intros; lia| |].
      * rewrite Hdk. unfold attempt_log. by rewrite Nat.sub_diag.
      * intros e. by rewrite Hdk.
    + replace (Nat.ltb k (max_retries - 1)) with true
        by (symmetry; apply Nat.ltb_lt; lia).
      destruct (IH (S k) (Some e)) as (j & Hj & Hfail & Heq & Hlast); [lia|].
      exists j. rewrite Heq. split_and!; [lia|lia| | |done].
      * intros i Hi. destruct (decide (i = k)) as [->|Hne]; [by exists e|].
        apply Hfail. lia.
      * by rewrite (attempt_log_step _ k j) by lia.
Qed.

(** X13: [initialize_driver] stops in some attempt [j] out of three, every
    attempt before it having raised.  It returns the driver of attempt [j],
    or raises the exception of the third attempt; the "Unknown error" of
    its last line is never raised.  It sleeps five seconds between two
    attempts, ten seconds at most. *)
Theorem initialize_driver_spec (ds : nat -> outcome driver) :
  (exists j,
     j < 3 /\
     (forall i, i < j -> exists e, ds i = Raises e) /\
     initialize_driver ds =
       (match ds j with
        | Returns d => DriverReady d
        | Raises e => InitRaises e
        end, attempt_log 5 0 j) /\
     (forall e, ds j = Raises e -> j = 2)) /\
  (initialize_driver ds).1 <> InitUnknownError /\
  (seconds_slept (initialize_driver ds).2 <= 10)%Z.
Proof.
  destruct (initialize_attempts_spec ds 3 5 2 0 None eq_refl)
    as (j & Hj & Hfail & Heq & Hlast).
  fold (initialize_driver ds) in Heq.
  split_and!.
  - exists j. split_and!; [lia| |done|done].
    intros i Hi. apply Hfail. lia.
  - rewrite Heq. simpl. by destruct (ds j).
  - rewrite Heq. simpl snd. rewrite seconds_slept_attempt_log by lia. lia.
Qed.
End initialize_driver_facts.

Lemma initialize_driver_spec_witness :
  initialize_driver (driver := string)
    (fun k => if Nat.ltb k 2 then Raises WebDriverError else Returns "chrome") =
  (DriverReady "chrome",
   [EvAttempt 0; EvSleep 5; EvAttempt 1; EvSleep 5; EvAttempt 2]) /\
  (initialize_driver (driver := string)
     (fun k => if Nat.ltb k 2 then Raises WebDriverError else Returns "chrome")).1
    <> InitUnknownError.
Proof.
  split; [reflexivity|].
  exact (proj1 (proj2 (initialize_driver_spec
    (fun k => if Nat.ltb k 2 then Raises WebDriverError else Returns "chrome")))).
Defined.


(** ** Notifications and logging *)

Lemma posts_of_app (evs evs' : list net_event) :
  posts_of (evs ++ evs') = posts_of evs ++ posts_of evs'.
Proof. unfold posts_of. apply flat_map_app. Qed.

(** X14: a [DiscordManager] is enabled only with the flag set and a
    webhook URL that is not empty; and one that is not enabled posts
    nothing and calls no logger, whichever of its methods is asked: every
    one of them returns [False] at once. *)
Theorem DiscordManager_fails_closed (config : list (string * value)) :
  (truthy (DiscordManager.enabled (DiscordManager.init config).1) = true <->
   truthy (dict_get config "discord_notification_enabled" (VBool false)) = true /\
   truthy (dict_get config "webhook_url" (VStr "")) = true) /\
  (truthy (DiscordManager.enabled (DiscordManager.init config).1) = false ->
   forall log net st,
     let self := (DiscordManager.init config).1 in
     (forall color, DiscordManager.send_notification self log net color st
                    = Some (false, st)) /\
     (forall webhook_url bot color retry,
        DiscordManager._send_to_webhook self log net webhook_url bot color retry st
        = Some (false, st)) /\
     (forall level msg, DiscordManager.send_log self log net level msg st
                        = Some (false, st)) /\
     DiscordManager.send_booking_alert self log net st = Some (false, st) /\
     DiscordManager.send_booking_confirmation_alert self log net st
       = Some (false, st) /\
     DiscordManager.send_query_log self log net st = Some (false, st) /\
     DiscordManager.send_error_log self log net st = Some (false, st)).
Proof.
  split.
  - unfold DiscordManager.init. simpl.
    destruct (truthy (dict_get config "discord_notification_enabled" (VBool false)))
      eqn:He,
      (truthy (dict_get config "webhook_url" (VStr ""))) eqn:Hw; simpl;
      rewrite ?He; split; try done; by intros [? ?].
  - intros Hoff log net st self.
    assert (Hsend : forall webhook_url bot color retry st0,
              DiscordManager._send_to_webhook self log net webhook_url bot color
                retry st0 = Some (false, st0)).
    { intros. unfold DiscordManager._send_to_webhook. subst self.
      by rewrite Hoff. }
    split_and!.
    + intros color. unfold DiscordManager.send_notification. apply Hsend.
    + intros. apply Hsend.
    + intros level msg. unfold DiscordManager.send_log. subst self.
      by rewrite Hoff.
    + unfold DiscordManager.send_booking_alert, DiscordManager.send_to_both.
      by rewrite !Hsend.
    + unfold DiscordManager.send_booking_confirmation_alert,
        DiscordManager.send_to_both.
      by rewrite !Hsend.
    + unfold DiscordManager.send_query_log. subst self. by rewrite Hoff.
    + unfold DiscordManager.send_error_log. subst self. by rewrite Hoff.
Qed.

Lemma DiscordManager_fails_closed_witness :
  truthy (DiscordManager.enabled
            (DiscordManager.init
               [("discord_notification_enabled", VBool true)]).1) = false /\
  DiscordManager.send_booking_alert
    (DiscordManager.init [("discord_notification_enabled", VBool true)]).1
    plain_logger (fun _ => Response 204 (Returns 1%Z))
    {| post_clock := 0; net_events := [] |} =
  Some (false, {| post_clock := 0; net_events := [] |}).
Proof.
  assert (H : truthy (DiscordManager.enabled
            (DiscordManager.init
               [("discord_notification_enabled", VBool true)]).1) = false)
    by reflexivity.
  split; [exact H|].
  exact (proj1 (proj2 (proj2 (proj2
    (proj2 (DiscordManager_fails_closed
              [("discord_notification_enabled", VBool true)]) H
       plain_logger (fun _ => Response 204 (Returns 1%Z))
       {| post_clock := 0; net_events := [] |}))))).
Defined.

Lemma succ_sub_1 (n : nat) : S n - n = 1.
Proof. lia. Qed.

Lemma succ_sub_2 (n : nat) : S (S n) - n = 2.
Proof. lia. Qed.

(** Closes the cases of a call whose state is known. *)
Ltac net_finish :=
  eexists _, _; split; [reflexivity|]; simpl;
  rewrite ?posts_of_app, ?succ_sub_1, ?succ_sub_2; simpl;
  rewrite <- ?(assoc_L (++)); simpl; rewrite ?app_nil_r;
  split_and!; try done; try lia;
  try (intros _; split; [lia|]);
  try (repeat match goal with
              | H : _ = PostRaises |- _ => rewrite H
              | H : _ = Response _ _ |- _ => rewrite H
              end; simpl; try done).

(** What one call of [_send_to_webhook] with a logger that only writes
    locally does to the network. *)
Lemma send_to_webhook_plain (self : DiscordManager.t)
    (net : nat -> post_observation) (webhook_url : value) (bot : string)
    (color : Z) (retry : bool) (st : net_state) :
  exists sent st',
    DiscordManager._send_to_webhook self plain_logger net webhook_url bot color
      retry st = Some (sent, st') /\
    post_clock st <= post_clock st' <= post_clock st + 2 /\
    posts_of (net_events st') =
      posts_of (net_events st) ++
      replicate (post_clock st' - post_clock st) webhook_url /\
    (retry = false -> post_clock st' <= post_clock st + 1) /\
    (post_clock st' = post_clock st + 2 ->
     exists r, net (post_clock st) = Response 429 r) /\
    (sent = true ->
     post_fails (net (pred (post_clock st'))) = false) /\
    (truthy (DiscordManager.enabled self) = true ->
     post_clock st < post_clock st' /\
     (post_fails (net (post_clock st)) = false ->
      sent = true /\ post_clock st' = S (post_clock st))) /\
    (truthy (DiscordManager.enabled self) = false -> st' = st /\ sent = false).
Proof.
  unfold DiscordManager._send_to_webhook, DiscordManager.check_status,
    DiscordManager.on_exception.
  destruct (truthy (DiscordManager.enabled self)) eqn:Hen; simpl.
  2:{ exists false, st. rewrite Nat.sub_diag, app_nil_r.
      split_and!; try done; lia. }
  destruct (net (post_clock st)) as [|status_code retry_after] eqn:Hobs.
  { net_finish. }
  destruct ((status_code =? 429)%Z && retry) eqn:Hretry.
  - apply andb_true_iff in Hretry as [H429 ->]. apply Z.eqb_eq in H429 as ->.
    destruct retry_after as [seconds|e]; simpl; [|net_finish].
    destruct (seconds <? 0)%Z; simpl; [net_finish|].
    destruct (net (S (post_clock st))) as [|status_code' retry_after'] eqn:Hobs';
      [net_finish; by eexists|].
    destruct (400 <=? status_code')%Z eqn:Hs'; net_finish; by eexists.
  - destruct (400 <=? status_code)%Z eqn:Hs; net_finish.
Qed.

(** X15: one call of [_send_to_webhook] posts at most twice, to the webhook
    it was given and to no other, and only once without the retry; a second
    post follows a first answer of 429 only; [True] is returned only when
    the last post was answered with a status below 400; a first answer
    below 400 ends the call with [True] after one post. *)
Theorem _send_to_webhook_posts (self : DiscordManager.t)
    (net : nat -> post_observation) (webhook_url : value) (bot : string)
    (color : Z) (retry : bool) (st : net_state) :
  exists sent st',
    DiscordManager._send_to_webhook self plain_logger net webhook_url bot color
      retry st = Some (sent, st') /\
    post_clock st <= post_clock st' <= post_clock st + 2 /\
    posts_of (net_events st') =
      posts_of (net_events st) ++
      replicate (post_clock st' - post_clock st) webhook_url /\
    (retry = false -> post_clock st' <= post_clock st + 1) /\
    (post_clock st' = post_clock st + 2 ->
     exists r, net (post_clock st) = Response 429 r) /\
    (sent = true ->
     post_fails (net (pred (post_clock st'))) = false) /\
    (truthy (DiscordManager.enabled self) = true ->
     post_clock st < post_clock st' /\
     (post_fails (net (post_clock st)) = false ->
      sent = true /\ post_clock st' = S (post_clock st))) /\
    (truthy (DiscordManager.enabled self) = false -> st' = st /\ sent = false).
Proof. apply send_to_webhook_plain. Qed.

Lemma _send_to_webhook_posts_witness :
  exists sent st',
    DiscordManager._send_to_webhook
      (DiscordManager.init [("discord_notification_enabled", VBool true);
                            ("webhook_url", VStr "https://discord.test/hook")]).1
      plain_logger
      (fun k => if Nat.eqb k 0 then Response 429 (Returns 2%Z)
                else Response 204 (Returns 1%Z))
      (VStr "https://discord.test/hook") "" 3447003 true
      {| post_clock := 0; net_events := [] |} = Some (sent, st') /\
    sent = true /\ post_clock st' = 2 /\
    posts_of (net_events st') =
      [VStr "https://discord.test/hook"; VStr "https://discord.test/hook"].
Proof.
  destruct (_send_to_webhook_posts
    (DiscordManager.init [("discord_notification_enabled", VBool true);
                          ("webhook_url", VStr "https://discord.test/hook")]).1
    (fun k => if Nat.eqb k 0 then Response 429 (Returns 2%Z)
              else Response 204 (Returns 1%Z))
    (VStr "https://discord.test/hook") "" 3447003 true
    {| post_clock := 0; net_events := [] |}) as (sent & st' & Heq & _).
  exists sent, st'. split; [exact Heq|].
  vm_compute in Heq. injection Heq as <- <-. done.
Defined.

(** X16: without [reservations_webhook_url] in the configuration, the two
    posts of a booking alert go to one and the same webhook: every post of
    [send_booking_alert] goes to [webhook_url], there are between two and
    four of them, and when the first two are accepted the alert has been
    delivered twice. *)
Theorem send_booking_alert_same_webhook (config : list (string * value))
    (net : nat -> post_observation) (st : net_state) :
  truthy (DiscordManager.enabled (DiscordManager.init config).1) = true ->
  (forall default, dict_get config "reservations_webhook_url" default = default) ->
  exists sent st' n,
    DiscordManager.send_booking_alert (DiscordManager.init config).1
      plain_logger net st = Some (sent, st') /\
    2 <= n <= 4 /\
    post_clock st' = post_clock st + n /\
    posts_of (net_events st') =
      posts_of (net_events st) ++
      replicate n (DiscordManager.webhook_url (DiscordManager.init config).1) /\
    (post_fails (net (post_clock st)) = false ->
     post_fails (net (S (post_clock st))) = false ->
     sent = true /\ n = 2).
Proof.
  intros Hen Hkey.
  set (self := (DiscordManager.init config).1) in *.
  assert (Hres : DiscordManager.reservations_webhook_url self =
                 DiscordManager.webhook_url self).
  { subst self. unfold DiscordManager.init. simpl. apply Hkey. }
  unfold DiscordManager.send_booking_alert, DiscordManager.send_to_both.
  rewrite Hres.
  destruct (send_to_webhook_plain self net (DiscordManager.webhook_url self)
              " Reservations" 5763719 true st)
    as (sent1 & st1 & -> & Hc1 & Hp1 & _ & _ & _ & Hon1 & _).
  destruct (send_to_webhook_plain self net (DiscordManager.webhook_url self)
              " Reservations" 5763719 true st1)
    as (sent2 & st2 & -> & Hc2 & Hp2 & _ & _ & _ & Hon2 & _).
  destruct (Hon1 Hen) as [Hlt1 Hok1]. destruct (Hon2 Hen) as [Hlt2 Hok2].
  exists (sent1 || sent2), st2, (post_clock st2 - post_clock st).
  split_and!; [done|lia|lia|lia| |].
  - rewrite Hp2, Hp1, <- (assoc_L (++)), <- replicate_add. do 2 f_equal. lia.
  - intros Hf1 Hf2. destruct (Hok1 Hf1) as [-> Hst1].
    rewrite Hst1 in Hok2. destruct (Hok2 Hf2) as [-> Hst2].
    split; [done|]. lia.
Qed.

Lemma send_booking_alert_same_webhook_witness :
  exists sent st' n,
    DiscordManager.send_booking_alert
      (DiscordManager.init [("discord_notification_enabled", VBool true);
                            ("webhook_url", VStr "https://discord.test/hook")]).1
      plain_logger (fun _ => Response 204 (Returns 1%Z))
      {| post_clock := 0; net_events := [] |} = Some (sent, st') /\
    2 <= n <= 4 /\
    post_clock st' = 0 + n /\
    posts_of (net_events st') =
      [] ++ replicate n (VStr "https://discord.test/hook") /\
    (post_fails (Response 204 (Returns 1%Z)) = false ->
     post_fails (Response 204 (Returns 1%Z)) = false ->
     sent = true /\ n = 2).
Proof.
  apply (send_booking_alert_same_webhook
           [("discord_notification_enabled", VBool true);
            ("webhook_url", VStr "https://discord.test/hook")]
           (fun _ => Response 204 (Returns 1%Z))
           {| post_clock := 0; net_events := [] |}).
  - reflexivity.
  - intros default. reflexivity.
Defined.

(** One level of [append_stack_if] when the line is forwarded: the line is
    posted, and a post that fails is logged as an error by the manager,
    through this same logger. *)
Lemma append_stack_if_step (fuel : nat) (self : Log.t) (dm : DiscordManager.t)
    (net : nat -> post_observation) (lt : Log.log_type) (output : list string)
    (st : net_state) :
  forwards_errors self dm ->
  (Log.discord_log_level self <= Log.level_value lt)%Z ->
  exists st1 m,
    post_clock st1 = S (post_clock st) /\
    posts_of (net_events st1) =
      posts_of (net_events st) ++ [DiscordManager.log_channel_webhook dm] /\
    Log.append_stack_if (S fuel) self net lt output st =
      if post_fails (net (post_clock st))
      then Log.append_stack_if fuel self net Log.error [m] st1
      else Some st1.
Proof.
  intros ((nm & Hnm & Hdm) & Hen & Hlogs & _) Hlevel.
  cbn [Log.append_stack_if]. rewrite Hnm.
  replace (Log.discord_log_level self <=? Log.level_value lt)%Z with true
    by (symmetry; by apply Z.leb_le).
  unfold NotificationManager.send_log_to_discord. rewrite Hdm.
  unfold DiscordManager.send_log. rewrite Hen, Hlogs. simpl negb. simpl orb.
  cbv iota.
  unfold DiscordManager._send_to_webhook. rewrite Hen. simpl negb. cbv iota.
  unfold requests_post. cbn [post_clock net_events emit].
  set (st1 := {| post_clock := S (post_clock st); net_events := _ |}).
  assert (Hst1 : post_clock st1 = S (post_clock st)) by done.
  assert (Hp1 : posts_of (net_events st1) =
                posts_of (net_events st) ++ [DiscordManager.log_channel_webhook dm]).
  { subst st1. simpl. rewrite !posts_of_app. simpl. by rewrite app_nil_r. }
  destruct (net (post_clock st)) as [|status_code retry_after] eqn:Hobs; simpl.
  - exists st1, "Error sending Discord notification".
    split_and!; [done|done|]. unfold DiscordManager.on_exception. simpl.
    by destruct (Log.append_stack_if fuel self net Log.error _ st1).
  - rewrite andb_false_r. unfold DiscordManager.check_status. simpl.
    exists st1, "Failed to send Discord notification".
    split_and!; [done|done|].
    destruct (400 <=? status_code)%Z; [|done].
    by destruct (Log.append_stack_if fuel self net Log.error _ st1).
Qed.

Lemma level_value_error_max (lt : Log.log_type) :
  (Log.level_value lt <= Log.level_value Log.error)%Z.
Proof. by destruct lt. Qed.

(** X17: with log lines forwarded to Discord, a post that fails is logged
    as an error, and that error is forwarded in turn.  One line that is
    followed by [n] failing posts and then an accepted one costs [n + 1]
    posts, all to the log channel; and while every post fails the call
    never returns: whatever the bound on the nesting of calls, it is
    exceeded. *)
Theorem log_error_feedback (self : Log.t) (dm : DiscordManager.t)
    (net : nat -> post_observation) (lt : Log.log_type) (output : list string)
    (st : net_state) :
  forwards_errors self dm ->
  (Log.discord_log_level self <= Log.level_value lt)%Z ->
  (forall n,
     (forall k, k < n -> post_fails (net (post_clock st + k)) = true) ->
     post_fails (net (post_clock st + n)) = false ->
     exists st',
       Log.append_stack_if (S n) self net lt output st = Some st' /\
       post_clock st' = post_clock st + S n /\
       posts_of (net_events st') =
         posts_of (net_events st) ++
         replicate (S n) (DiscordManager.log_channel_webhook dm)) /\
  ((forall k, post_fails (net (post_clock st + k)) = true) ->
   forall fuel, Log.append_stack_if fuel self net lt output st = None).
Proof.
  intros Hfw Hlevel.
  assert (Herr : (Log.discord_log_level self <= Log.level_value Log.error)%Z)
    by (destruct Hfw as (_ & _ & _ & H4); exact H4).
  split.
  - intros n. revert lt output st Hlevel.
    induction n as [|n IH]; intros lt output st Hlevel Hfail Hok.
    + destruct (append_stack_if_step 0 self dm net lt output st Hfw Hlevel)
        as (st1 & m & Hc & Hp & ->).
      rewrite Nat.add_0_r in Hok. rewrite Hok.
      exists st1. split_and!; [done|lia|done].
    + destruct (append_stack_if_step (S n) self dm net lt output st Hfw Hlevel)
        as (st1 & m & Hc & Hp & ->).
      assert (Hf0 : post_fails (net (post_clock st)) = true).
      { rewrite <- (Nat.add_0_r (post_clock st)). apply Hfail. lia. }
      rewrite Hf0.
      destruct (IH Log.error [m] st1 Herr) as (st' & Heq & Hc' & Hp').
      * intros k Hk. rewrite Hc.
        replace (S (post_clock st) + k) with (post_clock st + S k) by lia.
        apply Hfail. lia.
      * rewrite Hc.
        by replace (S (post_clock st) + n) with (post_clock st + S n) by lia.
      * exists st'. split_and!; [done|lia|].
        rewrite Hp', Hp, <- (assoc_L (++)). done.
  - intros Hfail fuel. revert lt output st Hlevel Hfail.
    induction fuel as [|fuel IH]; intros lt output st Hlevel Hfail; [done|].
    destruct (append_stack_if_step fuel self dm net lt output st Hfw Hlevel)
      as (st1 & m & Hc & Hp & ->).
    assert (Hf0 : post_fails (net (post_clock st)) = true).
    { rewrite <- (Nat.add_0_r (post_clock st)). apply Hfail. }
    rewrite Hf0.
    apply IH; [done|]. intros k. rewrite Hc.
    replace (S (post_clock st) + k) with (post_clock st + S k) by lia.
    apply Hfail.
Qed.

(** A logger with the prefix of an account, wired to a manager that has
    log forwarding switched on. *)
Lemma log_error_feedback_witness :
  Log.append_stack_if 50
    {| Log.prefix := "[alice] ";
       Log.discord_log_level := 2;
       Log.discord_notification_manager :=
         Some (NotificationManager.init
                 [("discord_notification_enabled", VBool true);
                  ("webhook_url", VStr "https://discord.test/hook");
                  ("send_logs_to_discord", VBool true)]) |}
    (fun _ => Response 404 (Raises ValueError))
    Log.warning ["Login may have failed."]
    {| post_clock := 0; net_events := [] |} = None.
Proof.
  refine (proj2 (log_error_feedback _
    (DiscordManager.init
       [("discord_notification_enabled", VBool true);
        ("webhook_url", VStr "https://discord.test/hook");
        ("send_logs_to_discord", VBool true)]).1 _ _ _ _ _ _) _ 50).
  - split_and!; [|reflexivity|reflexivity|simpl; lia].
    eexists. split; reflexivity.
  - simpl. lia.
  - intros k. reflexivity.
Defined.

(** The same logger when the third post is accepted: one warning, three
    posts. *)
Example log_warning_three_posts :
  option_map (fun st => posts_of (net_events st))
    (Log.append_stack_if 3
       {| Log.prefix := "[alice] ";
          Log.discord_log_level := 2;
          Log.discord_notification_manager :=
            Some (NotificationManager.init
                    [("discord_notification_enabled", VBool true);
                     ("webhook_url", VStr "https://discord.test/hook");
                     ("send_logs_to_discord", VBool true)]) |}
       (fun k => if Nat.ltb k 2 then Response 429 (Returns 1%Z)
                 else Response 204 (Returns 1%Z))
       Log.warning ["Login may have failed."]
       {| post_clock := 0; net_events := [] |}) =
  Some [VStr "https://discord.test/hook"; VStr "https://discord.test/hook";
        VStr "https://discord.test/hook"].
Proof. vm_compute. reflexivity. Qed.


(** ** The description of an error log *)

Lemma string_take_length (n : nat) (s : string) :
  String.length (string_take n s) = Nat.min n (String.length s).
Proof.
  revert s. induction n as [|n IH]; intros [|c s]; simpl; try done.
  by rewrite IH.
Qed.

Lemma slice_to_length (s : string) (n : Z) :
  String.length (slice_to s n) =
  if (0 <=? n)%Z then Nat.min (Z.to_nat n) (String.length s)
  else String.length s - Z.to_nat (- n).
Proof.
  unfold slice_to. destruct (0 <=? n)%Z; rewrite string_take_length; lia.
Qed.

Lemma error_description_length
    (account_name error_type current_time error_msg stack_trace : string) :
  stack_trace <> "" ->
  String.length
    (error_description account_name error_type current_time error_msg
       (Some stack_trace)) =
  let head := String.length (error_description_head account_name error_type
                               current_time error_msg) in
  let room := (1950 - Z.of_nat head)%Z in
  if (room <? Z.of_nat (String.length stack_trace))%Z
  then head + 40 + String.length (slice_to stack_trace room)
  else head + 26 + String.length stack_trace.
Proof.
  intros Hne. unfold error_description.
  destruct (String.eqb_spec stack_trace "") as [|_]; [done|].
  set (description := error_description_head _ _ _ _).
  cbv zeta.
  replace (2000 - Z.of_nat (String.length description) - 50)%Z
    with (1950 - Z.of_nat (String.length description))%Z by lia.
  destruct (_ <? _)%Z; rewrite !string_length_app; simpl; lia.
Qed.

(** X18: the description of an error log with a stack trace.  When the
    part before the trace has at most 1950 characters the description has
    at most 1990, and exactly 1990 when the trace had to be cut.  When that
    part is longer, the cut takes characters off the end of the trace
    instead: only as many as the part exceeds 1950 by, so a description of
    more than 2000 characters is sent. *)
Theorem error_description_bound
    (account_name error_type current_time error_msg stack_trace : string) :
  stack_trace <> "" ->
  let head := String.length (error_description_head account_name error_type
                               current_time error_msg) in
  let len := String.length
               (error_description account_name error_type current_time
                  error_msg (Some stack_trace)) in
  (head <= 1950 ->
   len <= 1990 /\
   (1950 - head < String.length stack_trace -> len = 1990)) /\
  (1950 < head ->
   len = head + 40 + (String.length stack_trace - (head - 1950)) /\
   (head - 1950 <= String.length stack_trace ->
    len = 1990 + String.length stack_trace)).
Proof.
  intros Hne head len.
  pose proof (error_description_length account_name error_type current_time
                error_msg stack_trace Hne) as Hlen.
  fold head len in Hlen. cbv zeta in Hlen.
  rewrite slice_to_length in Hlen.
  split.
  - intros Hhead.
    destruct (1950 - Z.of_nat head <? Z.of_nat (String.length stack_trace))%Z
      eqn:Hcut.
    + apply Z.ltb_lt in Hcut.
      replace (0 <=? 1950 - Z.of_nat head)%Z with true in Hlen
        by (symmetry; apply Z.leb_le; lia).
      split; lia.
    + apply Z.ltb_ge in Hcut. split; lia.
  - intros Hhead.
    replace (1950 - Z.of_nat head <? Z.of_nat (String.length stack_trace))%Z
      with true in Hlen by (symmetry; apply Z.ltb_lt; lia).
    replace (0 <=? 1950 - Z.of_nat head)%Z with false in Hlen
      by (symmetry; apply Z.leb_gt; lia).
    split; lia.
Qed.

Lemma error_description_bound_witness :
  String.length (error_description_head "alice" "Login Error"
                   "04-Nov-2026 10:00:00" "timeout") <= 1950 /\
  String.length (error_description "alice" "Login Error"
                   "04-Nov-2026 10:00:00" "timeout" (Some "Traceback")) <= 1990.
Proof.
  assert (Hne : "Traceback" <> "") by discriminate.
  assert (Hhead : String.length (error_description_head "alice" "Login Error"
                    "04-Nov-2026 10:00:00" "timeout") <= 1950)
    by (vm_compute; lia).
  split; [exact Hhead|].
  exact (proj1 (proj1 (error_description_bound "alice" "Login Error"
                         "04-Nov-2026 10:00:00" "timeout" "Traceback" Hne)
                       Hhead)).
Defined.


(** ** [AccountManager]: accounts and one run of an account *)

Lemma has_credentials_named (i : nat) (a : account) :
  has_credentials (name_account i a) = has_credentials a.
Proof.
  unfold has_credentials, name_account.
  destruct (a !! "name"); [done|].
  by rewrite !lookup_insert_ne by done.
Qed.

Lemma has_credentials_username (a : account) :
  has_credentials a = true -> username_is_empty a = false.
Proof.
  unfold has_credentials, username_is_empty.
  destruct (a !! "username") as [[| | |s| |]|]; simpl; try done.
  destruct (String.eqb s ""); done.
Qed.

Lemma imap_same {A} (f : nat -> A -> A) (l : list A) :
  (forall i x, In x l -> f i x = x) -> imap f l = l.
Proof.
  revert f. induction l as [|x l IH]; intros f Hf; [done|].
  rewrite imap_cons. f_equal.
  - apply Hf. by left.
  - apply IH. intros i y Hy. apply Hf. by right.
Qed.

(** X19: every account that [_parse_accounts] returns has a name and a
    user name and a password that are not empty; it is an account of the
    configuration, as it was or named after its user name: the generated
    name [account_{i+1}] only ever goes to accounts that are then left out.
    Parsing what was returned returns it unchanged. *)
Theorem _parse_accounts_spec (accounts : list account) :
  Forall (fun a => is_Some (a !! "name") /\ has_credentials a = true)
         (_parse_accounts (Some accounts)) /\
  (forall a', In a' (_parse_accounts (Some accounts)) ->
     exists i a,
       accounts !! i = Some a /\ has_credentials a = true /\
       match a !! "name" with
       | Some _ => a' = a
       | None => a' = <["name" := default VNone (a !! "username")]> a
       end) /\
  _parse_accounts (Some (_parse_accounts (Some accounts))) =
    _parse_accounts (Some accounts) /\
  List.length (_parse_accounts (Some accounts)) <= List.length accounts.
Proof.
  assert (Hin : forall a', In a' (_parse_accounts (Some accounts)) ->
            exists i a,
              accounts !! i = Some a /\ has_credentials a = true /\
              a' = name_account i a).
  { intros a' [Hm Hc]%List.filter_In.
    apply list_elem_of_In, elem_of_lookup_imap in Hm as (i & a & -> & Ha).
    exists i, a. by rewrite has_credentials_named in Hc. }
  assert (Hall : Forall (fun a => is_Some (a !! "name") /\ has_credentials a = true)
                        (_parse_accounts (Some accounts))).
  { apply List.Forall_forall. intros a' Ha'.
    destruct (Hin a' Ha') as (i & a & Ha & Hc & ->). split.
    - unfold name_account. destruct (a !! "name") eqn:Hn; [by rewrite Hn|].
      rewrite lookup_insert_eq. eauto.
    - by rewrite has_credentials_named. }
  split_and!.
  - done.
  - intros a' Ha'. destruct (Hin a' Ha') as (i & a & Ha & Hc & ->).
    exists i, a. split_and!; [done|done|].
    unfold name_account. destruct (a !! "name"); [done|].
    by rewrite (has_credentials_username a Hc).
  - set (parsed := _parse_accounts (Some accounts)) in *.
    unfold _parse_accounts at 1.
    rewrite imap_same.
    + apply filter_all. intros a Ha.
      eapply List.Forall_forall in Hall; [|exact Ha]. apply Hall.
    + intros i a Ha. eapply List.Forall_forall in Hall; [|exact Ha].
      destruct Hall as [[v Hv] _]. unfold name_account. by rewrite Hv.
  - unfold _parse_accounts.
    etrans; [apply List.filter_length_le|]. by rewrite length_imap.
Qed.

Lemma _parse_accounts_spec_witness :
  In (<["name" := VStr "bob"]> {[ "username" := VStr "bob"; "password" := VStr "pw" ]})
     (_parse_accounts
        (Some [ {[ "password" := VStr "pw" ]};
                {[ "username" := VStr "bob"; "password" := VStr "pw" ]} ])) /\
  exists i a,
    [ ({[ "password" := VStr "pw" ]} : account);
      {[ "username" := VStr "bob"; "password" := VStr "pw" ]} ] !! i = Some a /\
    has_credentials a = true /\
    match a !! "name" with
    | Some _ =>
        <["name" := VStr "bob"]> {[ "username" := VStr "bob"; "password" := VStr "pw" ]}
        = a
    | None =>
        <["name" := VStr "bob"]> {[ "username" := VStr "bob"; "password" := VStr "pw" ]}
        = <["name" := default VNone (a !! "username")]> a
    end.
Proof.
  assert (H : In (<["name" := VStr "bob"]>
                    {[ "username" := VStr "bob"; "password" := VStr "pw" ]})
                 (_parse_accounts
                    (Some [ {[ "password" := VStr "pw" ]};
                            {[ "username" := VStr "bob"; "password" := VStr "pw" ]} ]))).
  { vm_compute. left. reflexivity. }
  split; [exact H|].
  exact (proj1 (proj2 (_parse_accounts_spec _)) _ H).
Defined.

(** An account without credentials gets the generated name and is left
    out. *)
Example _parse_accounts_generated_name :
  name_account 0 {[ "password" := VStr "pw" ]} =
    <["name" := VStr "account_1"]> {[ "password" := VStr "pw" ]} /\
  _parse_accounts (Some [ {[ "password" := VStr "pw" ]} ]) = [].
Proof. split; vm_compute; reflexivity. Qed.

Lemma count_events_app (p : account_event -> bool) (l1 l2 : list account_event) :
  count_events p (l1 ++ l2) = count_events p l1 + count_events p l2.
Proof. unfold count_events. by rewrite List.filter_app, length_app. Qed.

Lemma running_add_remove (name : string) (running : gset string) :
  ({[ name ]} ∪ running) ∖ {[ name ]} = running ∖ {[ name ]}.
Proof.
  apply set_eq. intros x. rewrite !elem_of_difference, elem_of_union. tauto.
Qed.

(** Closes a case of [run_account] whose events are known. *)
Ltac run_account_goal :=
  first [ done | lia
        | apply running_add_remove
        | (split; [intros; lia | intros [? ?]; lia])
        | (split; [intros; lia | intros [_ [? ?]]; done])
        | (split; [intros _; split; [done|by eexists] | done])
        | (intros; lia) | (intros; done) ].

Ltac run_account_case :=
  eexists; split;
  [ simpl; rewrite <- ?(assoc_L (++)); simpl; reflexivity
  | simpl; split_and!; unfold count_events; simpl; run_account_goal ].

(** X20: one run of an enabled account.  When the temporary directory
    cannot be cleared the exception leaves [run_account] and the name stays
    in [running_accounts]; otherwise the call returns with the name taken
    out.  There is at most one login; a login is always followed by a
    logout and then the closing of the driver, as the last two calls; the
    account is processed at most once and only after a login that returned
    [True]; at most one notification is sent, and none exactly when the
    account was processed without an exception. *)
Theorem run_account_releases (config : configuration) (w : account_script)
    (a : account) (name : string) (st : manager_state) :
  a !! "name" = Some (VStr name) ->
  account_enabled a = true ->
  exists evs,
    account_events (run_account config w a st).2 =
      account_events st ++ AcClearTemp name :: evs /\
    match clear_account_temp_dir w with
    | Raises e =>
        (run_account config w a st).1 = Err (Other e) /\
        running_accounts (run_account config w a st).2 =
          {[ name ]} ∪ running_accounts st /\
        evs = []
    | Returns _ =>
        (run_account config w a st).1 = Ok tt /\
        running_accounts (run_account config w a st).2 =
          running_accounts st ∖ {[ name ]} /\
        (count_events is_notify evs = 0 <->
         count_events is_process evs = 1 /\
         exists u, process_account w = Returns u)
    end /\
    count_events is_login evs <= 1 /\
    count_events is_release evs = 2 * count_events is_login evs /\
    (count_events is_login evs = 1 ->
     drop (List.length evs - 2) evs = [AcLogout; AcQuit]) /\
    count_events is_process evs <= count_events is_login evs /\
    (count_events is_process evs = 1 -> login_result w = Returns true) /\
    count_events is_notify evs <= 1.
Proof.
  intros Hname Hen. unfold run_account. rewrite Hname, Hen. simpl negb. cbv iota.
  destruct (clear_account_temp_dir w) as [[]|e]; [|run_account_case].
  unfold run_with_handler.
  destruct (a !! "username"); [|run_account_case].
  destruct (a !! "password"); [|run_account_case].
  destruct (config !! "browser_config"); [|run_account_case].
  destruct (config !! "program_config") as [pc|] eqn:Hpc; [|run_account_case].
  destruct (handler_init w) as [[]|e]; [|run_account_case].
  unfold run_logged_in, release_browser, default_monitored_types. rewrite Hpc.
  destruct (login_result w) as [[|]|e]; [|run_account_case|run_account_case].
  destruct pc as [| | | | |program_config]; try run_account_case.
  destruct (dict_find program_config "monitored_types"); [|run_account_case].
  destruct (process_account w) as [[]|e] eqn:Hp; run_account_case.
Qed.

Lemma run_account_releases_witness :
  exists evs,
    account_events
      (run_account
         {[ "browser_config" := VDict [];
            "program_config" := VDict [("monitored_types", VDict [])] ]}
         {| clear_account_temp_dir := Returns tt; handler_init := Returns tt;
            login_result := Returns false; process_account := Returns tt;
            logout_result := Raises WebDriverError; quit_result := Returns tt |}
         {[ "name" := VStr "alice"; "username" := VStr "alice";
            "password" := VStr "pw" ]}
         {| running_accounts := ∅; account_events := [] |}).2 =
      [] ++ AcClearTemp "alice" :: evs /\
    evs = [AcHandler; AcLogin; AcNotify " Login Failed"; AcLogout; AcQuit].
Proof.
  set (a := ({[ "name" := VStr "alice"; "username" := VStr "alice";
                "password" := VStr "pw" ]} : account)).
  assert (Hn : a !! "name" = Some (VStr "alice")) by (vm_compute; reflexivity).
  assert (He : account_enabled a = true) by (vm_compute; reflexivity).
  destruct (run_account_releases
    {[ "browser_config" := VDict [];
       "program_config" := VDict [("monitored_types", VDict [])] ]}
    {| clear_account_temp_dir := Returns tt; handler_init := Returns tt;
       login_result := Returns false; process_account := Returns tt;
       logout_result := Raises WebDriverError; quit_result := Returns tt |}
    a "alice" {| running_accounts := ∅; account_events := [] |} Hn He)
    as (evs & Hevs & _).
  exists evs. split; [exact Hevs|].
  vm_compute in Hevs. by injection Hevs as <-.
Defined.

Lemma cleanup_loop (names : list string) (st : manager_state) :
  running_accounts (foldl cleanup_account st names) =
    running_accounts st ∖ list_to_set names /\
  account_events (foldl cleanup_account st names) =
    account_events st ++ List.map AcClearTemp names.
Proof.
  revert st. induction names as [|n names IH]; intros st; simpl.
  - split; [by rewrite difference_empty_L|by rewrite app_nil_r].
  - destruct (IH (cleanup_account st n)) as [-> ->]. simpl. split.
    + by rewrite difference_difference_l_L.
    + by rewrite <- (assoc_L (++)).
Qed.

(** X21: [_cleanup_resources] leaves [running_accounts] empty; it clears
    the temporary directory of every name that was in the set, once, and
    does nothing when the set was empty.  After a run of an account whose
    directory could not be cleared, it is what takes the name out, and it
    clears that directory a second time. *)
Theorem _cleanup_resources_spec (st : manager_state) :
  running_accounts (_cleanup_resources st) = ∅ /\
  account_events (_cleanup_resources st) =
    account_events st ++ List.map AcClearTemp (elements (running_accounts st)) /\
  (running_accounts st = ∅ -> _cleanup_resources st = st) /\
  (forall config w a name e,
     a !! "name" = Some (VStr name) ->
     account_enabled a = true ->
     clear_account_temp_dir w = Raises e ->
     running_accounts st = ∅ ->
     running_accounts (run_account config w a st).2 = {[ name ]} /\
     account_events (_cleanup_resources (run_account config w a st).2) =
       account_events st ++ [AcClearTemp name; AcClearTemp name]).
Proof.
  unfold _cleanup_resources.
  destruct (cleanup_loop (elements (running_accounts st)) st) as [Hr He].
  split_and!.
  - rewrite Hr. rewrite list_to_set_elements_L. apply difference_diag_L.
  - done.
  - intros Hempty. rewrite Hempty, elements_empty. done.
  - intros config w a name e Hname Hen Hclear Hempty.
    unfold run_account. rewrite Hname, Hen, Hclear. simpl.
    rewrite Hempty, (right_id_L ∅ (∪)). split; [done|].
    destruct (cleanup_loop (elements ({[ name ]} : gset string))
                (record_event (AcClearTemp name)
                   (set_running {[ name ]} st))) as [_ ->].
    rewrite elements_singleton. simpl. by rewrite <- (assoc_L (++)).
Qed.

Lemma _cleanup_resources_spec_witness :
  running_accounts
    (run_account ∅
       {| clear_account_temp_dir := Raises WebDriverError;
          handler_init := Returns tt; login_result := Returns true;
          process_account := Returns tt; logout_result := Returns tt;
          quit_result := Returns tt |}
       {[ "name" := VStr "alice" ]}
       {| running_accounts := ∅; account_events := [] |}).2 = {[ "alice" ]} /\
  account_events
    (_cleanup_resources
       (run_account ∅
          {| clear_account_temp_dir := Raises WebDriverError;
             handler_init := Returns tt; login_result := Returns true;
             process_account := Returns tt; logout_result := Returns tt;
             quit_result := Returns tt |}
          {[ "name" := VStr "alice" ]}
          {| running_accounts := ∅; account_events := [] |}).2) =
    [] ++ [AcClearTemp "alice"; AcClearTemp "alice"].
Proof.
  set (a := ({[ "name" := VStr "alice" ]} : account)).
  assert (Hn : a !! "name" = Some (VStr "alice")) by (vm_compute; reflexivity).
  assert (He : account_enabled a = true) by (vm_compute; reflexivity).
  exact (proj2 (proj2 (proj2
    (_cleanup_resources_spec {| running_accounts := ∅; account_events := [] |})))
    ∅ {| clear_account_temp_dir := Raises WebDriverError;
         handler_init := Returns tt; login_result := Returns true;
         process_account := Returns tt; logout_result := Returns tt;
         quit_result := Returns tt |}
    a "alice" WebDriverError Hn He eq_refl eq_refl).
Defined.
